(** * useDataFetcher: the request / connection lifecycle controller

    A shallow embedding of the hook [useDataFetcher] (the TypeScript source
    with the request-identifier guard, the [timeout] option and the
    [retry * 2] reconnect budget).

    The hook is event driven: React renders it, timers fire, the HTTP
    transport settles a promise, the socket raises open / message / error /
    close events, and the owner calls [refetch], [cancel], [sendMessage] or
    [closeWebSocket].  Every one of these is an [Event]; [step] runs the
    handler the source attaches to it on an explicit [State] that holds

    - the [useState] cells ([data], [loading], [error], [wsData], [wsState],
      [wsMessagesQueue], [isFirst]),
    - the [useRef] cells ([wsRef], [abortControllerRef], [timeoutRef],
      [isMounted], [latestRequestIdRef], [fetchDataRef]),
    - what React remembers between renders (the props, the callback that
      [useCallback] memoised, the dependencies the queue effect last saw),
    - the environment: the clock read by [Date.now()], the pending timers,
      the abort controllers, the calls in flight, the sockets, and the
      [let reconnectAttempts] cell of each run of the socket effect.

    Closures are explicit.  The function that [useCallback] returns keeps the
    values of the render that created it; [Closure] records them, and a
    re-render replaces the memoised callback only when one of the listed
    dependencies changed, as React does.  Numbers are integers ([Z]). *)

From stdpp Require Import base numbers list strings.
From Stdlib Require Import Ascii DecimalString.

Local Open Scope Z_scope.

(** ** Values *)

(** [TResponse = any] and the [any] of messages: JSON values. *)
#[warnings="-register-all"]
Inductive Json :=
| JNull
| JBool (b : bool)
| JNum (n : Z)                   (* an integer *)
| JDec (m e : Z)                 (* [m * 10 ^ e], for a number that is not one *)
| JStr (s : string)
| JArr (l : list Json)
| JObj (l : list (string * Json)).

Inductive HttpMethod := GET | POST | PUT | DELETE.

#[global] Instance HttpMethod_eq_dec : EqDecision HttpMethod.
Proof. solve_decision. Defined.

(** [body], [headers] and [queryParams] are objects: a dependency list
    compares them with [Object.is], by reference.  A reference is a number. *)
Definition Ref := nat.

(** [UseHttpOptions], after the defaults of the parameter list are applied. *)
Record Options := mkOptions {
  url : string;
  method : HttpMethod;
  body : option Ref;
  headers : option Ref;
  queryParams : option Ref;
  autoFetch : bool;
  retry : Z;
  debounce : Z;
  baseUrl : option string;
  credentials : bool;
  autoRefresh : Z;
  wsUrl : option string;
  timeout : Z
}.

(** The parameter list: [method = "GET"], [autoFetch = true], [retry = 0],
    [debounce = 300], [credentials = false], [autoRefresh = 0],
    [timeout = 15000]. *)
Definition defaults (u : string) : Options :=
  {| url := u; method := GET; body := None; headers := None; queryParams := None;
     autoFetch := true; retry := 0; debounce := 300; baseUrl := None;
     credentials := false; autoRefresh := 0; wsUrl := None; timeout := 15000 |}.

(** JavaScript truthiness of an optional string: [undefined] and the empty
    string are falsy. *)
Definition truthy (o : option string) : bool :=
  match o with
  | Some u => negb (String.eqb u "")
  | None => false
  end.

(** The dependency list of the [useCallback] around [fetchData]:
    [[url, method, body, headers, queryParams, retry, debounce, baseUrl,
    credentials, timeout]].  [isFirst] is not in it. *)
Definition fetchDeps (p : Options) :=
  (url p, method p, body p, headers p, queryParams p,
   retry p, debounce p, baseUrl p, credentials p, timeout p).

(** [[autoFetch, wsUrl]], [[wsUrl, retry, isMounted]] (the ref object never
    changes) and [[autoRefresh, wsUrl]]. *)
Definition autoFetchDeps (p : Options) := (autoFetch p, wsUrl p).
Definition wsDeps (p : Options) := (wsUrl p, retry p).
Definition refreshDeps (p : Options) := (autoRefresh p, wsUrl p).

(** The callback [fetchData] of one render: the props it closes over and the
    value of the state cell [isFirst] in that render. *)
Record Closure := mkClosure {
  cl_props : Options;
  cl_isFirst : bool
}.

(** What a pending [setTimeout] will run. *)
Inductive Callback :=
| CbFetch (c : Closure) (attempts currentRequestId : Z)
    (* the [async () => { ... }] of line 90 *)
| CbRetry (c : Closure) (attempts : Z)
    (* [() => fetchData(attempts + 1)] of line 126 *)
| CbConnect (run : nat).
    (* [connectWebSocket] of line 196, of one run of the socket effect *)

Record Timer := mkTimer {
  t_id : nat;
  t_delay : Z;      (* the delay handed to [setTimeout] *)
  t_due : Z;        (* the clock value from which it may fire *)
  t_cb : Callback
}.

(** A call handed to the transport and not settled yet.  Every call has its
    own [AbortController], so the controller names the call. *)
Record Request := mkRequest {
  r_controller : nat;
  r_closure : Closure;
  r_attempts : Z;
  r_requestId : Z
}.

(** JavaScript truthiness: [null], [false], [0] and the empty string are
    falsy, every object is truthy. *)
Definition jsTruthy (j : Json) : bool :=
  match j with
  | JNull => false
  | JBool b => b
  | JNum n => negb (n =? 0)
  | JDec m _ => negb (m =? 0)
  | JStr t => negb (String.eqb t "")
  | JArr _ | JObj _ => true
  end.

(** Truthiness of a value that may be [undefined]. *)
Definition truthyValue (o : option Json) : bool :=
  match o with
  | Some v => jsTruthy v
  | None => false
  end.

(** What a call is rejected with, as the [catch] block reads it: [err] is
    [any].  Reading [err.response] of [null] or [undefined] throws; of any
    other value, [err.response?.data?.message] and [err.message] are read,
    each [undefined] ([None]) or a value of any type. *)
Inductive Err :=
| Nullish
| Thrown (response_message message : option Json).

(** [a || b] *)
Definition jsOr (a : option Json) (b : Json) : Json :=
  match a with
  | Some v => if jsTruthy v then v else b
  | None => b
  end.

(** [err.response?.data?.message || err.message || "Something went wrong"]:
    the first operand that is truthy, whatever its type; [None] when the
    expression throws. *)
Definition errorMessage (e : Err) : option Json :=
  match e with
  | Nullish => None
  | Thrown response_message message =>
      Some (jsOr response_message (jsOr message (JStr "Something went wrong")))
  end.

(** How the transport settles a call: [axios.isCancel(err)] holds for
    [Cancelled] only. *)
Inductive Outcome :=
| Success (d : Json)
| Failure (e : Err)
| Cancelled.

Inductive WsState := Ws_connecting | Ws_open | Ws_closed | Ws_error.

#[global] Instance WsState_eq_dec : EqDecision WsState.
Proof. solve_decision. Defined.

Inductive ReadyState := CONNECTING | OPEN | CLOSING | CLOSED.

#[global] Instance ReadyState_eq_dec : EqDecision ReadyState.
Proof. solve_decision. Defined.

(** A [WebSocket] object: its handlers belong to the run [ws_run] of the
    socket effect; [ws_sent] is what [send] was given, oldest first;
    [ws_closeFired] tells that its close event was raised. *)
Record Socket := mkSocket {
  ws_url : string;
  readyState : ReadyState;
  ws_run : nat;
  ws_sent : list string;
  ws_closeFired : bool
}.

(** One run of the socket effect: its [wsUrl], its
    [MAX_RECONNECT_ATTEMPTS = retry * 2] and its [let reconnectAttempts]. *)
Record Run := mkRun {
  run_wsUrl : string;
  MAX_RECONNECT_ATTEMPTS : Z;
  reconnectAttempts : Z
}.

(** Calls to the outside that the claims count: timers set and transport
    calls made, oldest first. *)
Inductive Call :=
| SetTimeout (cb : Callback) (delay : Z)
| Axios (r : Request).

(** ** The state *)

Record State := mkState {
  (* useState *)
  data : option Json;
  loading : bool;
  error : option Json;           (* typed [string | null]; holds what [setError] is given *)
  wsData : option Json;
  wsState : WsState;
  wsMessagesQueue : list Json;
  isFirst : bool;
  (* useRef *)
  wsRef : option nat;
  abortControllerRef : option nat;
  timeoutRef : option nat;
  isMounted : bool;
  latestRequestIdRef : Z;
  fetchDataRef : Closure;
  (* kept by React between renders *)
  props : Options;
  memo : Closure;                (* the callback [useCallback] returned last *)
  flushDeps : WsState * nat;     (* [[wsState, wsMessagesQueue]] of the last render *)
  queueId : nat;                 (* identity of the array in [wsMessagesQueue] *)
  wsCleanup : bool;              (* the socket effect returned a cleanup *)
  interval : bool;               (* the [setInterval] of auto refresh is set *)
  (* environment *)
  now : Z;
  timers : list Timer;
  nextTimer : nat;
  aborted : list nat;
  nextController : nat;
  inflight : list Request;
  sockets : list Socket;
  runs : list Run;
  calls : list Call
}.

Definition set_data (v : option Json) (s : State) : State :=
  {| data := v; loading := loading s; error := error s; wsData := wsData s; wsState := wsState s;
     wsMessagesQueue := wsMessagesQueue s; isFirst := isFirst s; wsRef := wsRef s;
     abortControllerRef := abortControllerRef s; timeoutRef := timeoutRef s; isMounted := isMounted s;
     latestRequestIdRef := latestRequestIdRef s; fetchDataRef := fetchDataRef s; props := props s; memo := memo s;
     flushDeps := flushDeps s; queueId := queueId s; wsCleanup := wsCleanup s; interval := interval s; now := now s;
     timers := timers s; nextTimer := nextTimer s; aborted := aborted s; nextController := nextController s;
     inflight := inflight s; sockets := sockets s; runs := runs s; calls := calls s |}.
Definition set_loading (v : bool) (s : State) : State :=
  {| data := data s; loading := v; error := error s; wsData := wsData s; wsState := wsState s;
     wsMessagesQueue := wsMessagesQueue s; isFirst := isFirst s; wsRef := wsRef s;
     abortControllerRef := abortControllerRef s; timeoutRef := timeoutRef s; isMounted := isMounted s;
     latestRequestIdRef := latestRequestIdRef s; fetchDataRef := fetchDataRef s; props := props s; memo := memo s;
     flushDeps := flushDeps s; queueId := queueId s; wsCleanup := wsCleanup s; interval := interval s; now := now s;
     timers := timers s; nextTimer := nextTimer s; aborted := aborted s; nextController := nextController s;
     inflight := inflight s; sockets := sockets s; runs := runs s; calls := calls s |}.
Definition set_error (v : option Json) (s : State) : State :=
  {| data := data s; loading := loading s; error := v; wsData := wsData s; wsState := wsState s;
     wsMessagesQueue := wsMessagesQueue s; isFirst := isFirst s; wsRef := wsRef s;
     abortControllerRef := abortControllerRef s; timeoutRef := timeoutRef s; isMounted := isMounted s;
     latestRequestIdRef := latestRequestIdRef s; fetchDataRef := fetchDataRef s; props := props s; memo := memo s;
     flushDeps := flushDeps s; queueId := queueId s; wsCleanup := wsCleanup s; interval := interval s; now := now s;
     timers := timers s; nextTimer := nextTimer s; aborted := aborted s; nextController := nextController s;
     inflight := inflight s; sockets := sockets s; runs := runs s; calls := calls s |}.
Definition set_wsData (v : option Json) (s : State) : State :=
  {| data := data s; loading := loading s; error := error s; wsData := v; wsState := wsState s;
     wsMessagesQueue := wsMessagesQueue s; isFirst := isFirst s; wsRef := wsRef s;
     abortControllerRef := abortControllerRef s; timeoutRef := timeoutRef s; isMounted := isMounted s;
     latestRequestIdRef := latestRequestIdRef s; fetchDataRef := fetchDataRef s; props := props s; memo := memo s;
     flushDeps := flushDeps s; queueId := queueId s; wsCleanup := wsCleanup s; interval := interval s; now := now s;
     timers := timers s; nextTimer := nextTimer s; aborted := aborted s; nextController := nextController s;
     inflight := inflight s; sockets := sockets s; runs := runs s; calls := calls s |}.
Definition set_wsState (v : WsState) (s : State) : State :=
  {| data := data s; loading := loading s; error := error s; wsData := wsData s; wsState := v;
     wsMessagesQueue := wsMessagesQueue s; isFirst := isFirst s; wsRef := wsRef s;
     abortControllerRef := abortControllerRef s; timeoutRef := timeoutRef s; isMounted := isMounted s;
     latestRequestIdRef := latestRequestIdRef s; fetchDataRef := fetchDataRef s; props := props s; memo := memo s;
     flushDeps := flushDeps s; queueId := queueId s; wsCleanup := wsCleanup s; interval := interval s; now := now s;
     timers := timers s; nextTimer := nextTimer s; aborted := aborted s; nextController := nextController s;
     inflight := inflight s; sockets := sockets s; runs := runs s; calls := calls s |}.
Definition set_wsMessagesQueue (v : list Json) (s : State) : State :=
  {| data := data s; loading := loading s; error := error s; wsData := wsData s; wsState := wsState s;
     wsMessagesQueue := v; isFirst := isFirst s; wsRef := wsRef s; abortControllerRef := abortControllerRef s;
     timeoutRef := timeoutRef s; isMounted := isMounted s; latestRequestIdRef := latestRequestIdRef s;
     fetchDataRef := fetchDataRef s; props := props s; memo := memo s; flushDeps := flushDeps s;
     queueId := queueId s; wsCleanup := wsCleanup s; interval := interval s; now := now s; timers := timers s;
     nextTimer := nextTimer s; aborted := aborted s; nextController := nextController s; inflight := inflight s;
     sockets := sockets s; runs := runs s; calls := calls s |}.
Definition set_isFirst (v : bool) (s : State) : State :=
  {| data := data s; loading := loading s; error := error s; wsData := wsData s; wsState := wsState s;
     wsMessagesQueue := wsMessagesQueue s; isFirst := v; wsRef := wsRef s;
     abortControllerRef := abortControllerRef s; timeoutRef := timeoutRef s; isMounted := isMounted s;
     latestRequestIdRef := latestRequestIdRef s; fetchDataRef := fetchDataRef s; props := props s; memo := memo s;
     flushDeps := flushDeps s; queueId := queueId s; wsCleanup := wsCleanup s; interval := interval s; now := now s;
     timers := timers s; nextTimer := nextTimer s; aborted := aborted s; nextController := nextController s;
     inflight := inflight s; sockets := sockets s; runs := runs s; calls := calls s |}.
Definition set_wsRef (v : option nat) (s : State) : State :=
  {| data := data s; loading := loading s; error := error s; wsData := wsData s; wsState := wsState s;
     wsMessagesQueue := wsMessagesQueue s; isFirst := isFirst s; wsRef := v;
     abortControllerRef := abortControllerRef s; timeoutRef := timeoutRef s; isMounted := isMounted s;
     latestRequestIdRef := latestRequestIdRef s; fetchDataRef := fetchDataRef s; props := props s; memo := memo s;
     flushDeps := flushDeps s; queueId := queueId s; wsCleanup := wsCleanup s; interval := interval s; now := now s;
     timers := timers s; nextTimer := nextTimer s; aborted := aborted s; nextController := nextController s;
     inflight := inflight s; sockets := sockets s; runs := runs s; calls := calls s |}.
Definition set_abortControllerRef (v : option nat) (s : State) : State :=
  {| data := data s; loading := loading s; error := error s; wsData := wsData s; wsState := wsState s;
     wsMessagesQueue := wsMessagesQueue s; isFirst := isFirst s; wsRef := wsRef s; abortControllerRef := v;
     timeoutRef := timeoutRef s; isMounted := isMounted s; latestRequestIdRef := latestRequestIdRef s;
     fetchDataRef := fetchDataRef s; props := props s; memo := memo s; flushDeps := flushDeps s;
     queueId := queueId s; wsCleanup := wsCleanup s; interval := interval s; now := now s; timers := timers s;
     nextTimer := nextTimer s; aborted := aborted s; nextController := nextController s; inflight := inflight s;
     sockets := sockets s; runs := runs s; calls := calls s |}.
Definition set_timeoutRef (v : option nat) (s : State) : State :=
  {| data := data s; loading := loading s; error := error s; wsData := wsData s; wsState := wsState s;
     wsMessagesQueue := wsMessagesQueue s; isFirst := isFirst s; wsRef := wsRef s;
     abortControllerRef := abortControllerRef s; timeoutRef := v; isMounted := isMounted s;
     latestRequestIdRef := latestRequestIdRef s; fetchDataRef := fetchDataRef s; props := props s; memo := memo s;
     flushDeps := flushDeps s; queueId := queueId s; wsCleanup := wsCleanup s; interval := interval s; now := now s;
     timers := timers s; nextTimer := nextTimer s; aborted := aborted s; nextController := nextController s;
     inflight := inflight s; sockets := sockets s; runs := runs s; calls := calls s |}.
Definition set_isMounted (v : bool) (s : State) : State :=
  {| data := data s; loading := loading s; error := error s; wsData := wsData s; wsState := wsState s;
     wsMessagesQueue := wsMessagesQueue s; isFirst := isFirst s; wsRef := wsRef s;
     abortControllerRef := abortControllerRef s; timeoutRef := timeoutRef s; isMounted := v;
     latestRequestIdRef := latestRequestIdRef s; fetchDataRef := fetchDataRef s; props := props s; memo := memo s;
     flushDeps := flushDeps s; queueId := queueId s; wsCleanup := wsCleanup s; interval := interval s; now := now s;
     timers := timers s; nextTimer := nextTimer s; aborted := aborted s; nextController := nextController s;
     inflight := inflight s; sockets := sockets s; runs := runs s; calls := calls s |}.
Definition set_latestRequestIdRef (v : Z) (s : State) : State :=
  {| data := data s; loading := loading s; error := error s; wsData := wsData s; wsState := wsState s;
     wsMessagesQueue := wsMessagesQueue s; isFirst := isFirst s; wsRef := wsRef s;
     abortControllerRef := abortControllerRef s; timeoutRef := timeoutRef s; isMounted := isMounted s;
     latestRequestIdRef := v; fetchDataRef := fetchDataRef s; props := props s; memo := memo s;
     flushDeps := flushDeps s; queueId := queueId s; wsCleanup := wsCleanup s; interval := interval s; now := now s;
     timers := timers s; nextTimer := nextTimer s; aborted := aborted s; nextController := nextController s;
     inflight := inflight s; sockets := sockets s; runs := runs s; calls := calls s |}.
Definition set_fetchDataRef (v : Closure) (s : State) : State :=
  {| data := data s; loading := loading s; error := error s; wsData := wsData s; wsState := wsState s;
     wsMessagesQueue := wsMessagesQueue s; isFirst := isFirst s; wsRef := wsRef s;
     abortControllerRef := abortControllerRef s; timeoutRef := timeoutRef s; isMounted := isMounted s;
     latestRequestIdRef := latestRequestIdRef s; fetchDataRef := v; props := props s; memo := memo s;
     flushDeps := flushDeps s; queueId := queueId s; wsCleanup := wsCleanup s; interval := interval s; now := now s;
     timers := timers s; nextTimer := nextTimer s; aborted := aborted s; nextController := nextController s;
     inflight := inflight s; sockets := sockets s; runs := runs s; calls := calls s |}.
Definition set_props (v : Options) (s : State) : State :=
  {| data := data s; loading := loading s; error := error s; wsData := wsData s; wsState := wsState s;
     wsMessagesQueue := wsMessagesQueue s; isFirst := isFirst s; wsRef := wsRef s;
     abortControllerRef := abortControllerRef s; timeoutRef := timeoutRef s; isMounted := isMounted s;
     latestRequestIdRef := latestRequestIdRef s; fetchDataRef := fetchDataRef s; props := v; memo := memo s;
     flushDeps := flushDeps s; queueId := queueId s; wsCleanup := wsCleanup s; interval := interval s; now := now s;
     timers := timers s; nextTimer := nextTimer s; aborted := aborted s; nextController := nextController s;
     inflight := inflight s; sockets := sockets s; runs := runs s; calls := calls s |}.
Definition set_memo (v : Closure) (s : State) : State :=
  {| data := data s; loading := loading s; error := error s; wsData := wsData s; wsState := wsState s;
     wsMessagesQueue := wsMessagesQueue s; isFirst := isFirst s; wsRef := wsRef s;
     abortControllerRef := abortControllerRef s; timeoutRef := timeoutRef s; isMounted := isMounted s;
     latestRequestIdRef := latestRequestIdRef s; fetchDataRef := fetchDataRef s; props := props s; memo := v;
     flushDeps := flushDeps s; queueId := queueId s; wsCleanup := wsCleanup s; interval := interval s; now := now s;
     timers := timers s; nextTimer := nextTimer s; aborted := aborted s; nextController := nextController s;
     inflight := inflight s; sockets := sockets s; runs := runs s; calls := calls s |}.
Definition set_flushDeps (v : WsState * nat) (s : State) : State :=
  {| data := data s; loading := loading s; error := error s; wsData := wsData s; wsState := wsState s;
     wsMessagesQueue := wsMessagesQueue s; isFirst := isFirst s; wsRef := wsRef s;
     abortControllerRef := abortControllerRef s; timeoutRef := timeoutRef s; isMounted := isMounted s;
     latestRequestIdRef := latestRequestIdRef s; fetchDataRef := fetchDataRef s; props := props s; memo := memo s;
     flushDeps := v; queueId := queueId s; wsCleanup := wsCleanup s; interval := interval s; now := now s;
     timers := timers s; nextTimer := nextTimer s; aborted := aborted s; nextController := nextController s;
     inflight := inflight s; sockets := sockets s; runs := runs s; calls := calls s |}.
Definition set_queueId (v : nat) (s : State) : State :=
  {| data := data s; loading := loading s; error := error s; wsData := wsData s; wsState := wsState s;
     wsMessagesQueue := wsMessagesQueue s; isFirst := isFirst s; wsRef := wsRef s;
     abortControllerRef := abortControllerRef s; timeoutRef := timeoutRef s; isMounted := isMounted s;
     latestRequestIdRef := latestRequestIdRef s; fetchDataRef := fetchDataRef s; props := props s; memo := memo s;
     flushDeps := flushDeps s; queueId := v; wsCleanup := wsCleanup s; interval := interval s; now := now s;
     timers := timers s; nextTimer := nextTimer s; aborted := aborted s; nextController := nextController s;
     inflight := inflight s; sockets := sockets s; runs := runs s; calls := calls s |}.
Definition set_wsCleanup (v : bool) (s : State) : State :=
  {| data := data s; loading := loading s; error := error s; wsData := wsData s; wsState := wsState s;
     wsMessagesQueue := wsMessagesQueue s; isFirst := isFirst s; wsRef := wsRef s;
     abortControllerRef := abortControllerRef s; timeoutRef := timeoutRef s; isMounted := isMounted s;
     latestRequestIdRef := latestRequestIdRef s; fetchDataRef := fetchDataRef s; props := props s; memo := memo s;
     flushDeps := flushDeps s; queueId := queueId s; wsCleanup := v; interval := interval s; now := now s;
     timers := timers s; nextTimer := nextTimer s; aborted := aborted s; nextController := nextController s;
     inflight := inflight s; sockets := sockets s; runs := runs s; calls := calls s |}.
Definition set_interval (v : bool) (s : State) : State :=
  {| data := data s; loading := loading s; error := error s; wsData := wsData s; wsState := wsState s;
     wsMessagesQueue := wsMessagesQueue s; isFirst := isFirst s; wsRef := wsRef s;
     abortControllerRef := abortControllerRef s; timeoutRef := timeoutRef s; isMounted := isMounted s;
     latestRequestIdRef := latestRequestIdRef s; fetchDataRef := fetchDataRef s; props := props s; memo := memo s;
     flushDeps := flushDeps s; queueId := queueId s; wsCleanup := wsCleanup s; interval := v; now := now s;
     timers := timers s; nextTimer := nextTimer s; aborted := aborted s; nextController := nextController s;
     inflight := inflight s; sockets := sockets s; runs := runs s; calls := calls s |}.
Definition set_now (v : Z) (s : State) : State :=
  {| data := data s; loading := loading s; error := error s; wsData := wsData s; wsState := wsState s;
     wsMessagesQueue := wsMessagesQueue s; isFirst := isFirst s; wsRef := wsRef s;
     abortControllerRef := abortControllerRef s; timeoutRef := timeoutRef s; isMounted := isMounted s;
     latestRequestIdRef := latestRequestIdRef s; fetchDataRef := fetchDataRef s; props := props s; memo := memo s;
     flushDeps := flushDeps s; queueId := queueId s; wsCleanup := wsCleanup s; interval := interval s; now := v;
     timers := timers s; nextTimer := nextTimer s; aborted := aborted s; nextController := nextController s;
     inflight := inflight s; sockets := sockets s; runs := runs s; calls := calls s |}.
Definition set_timers (v : list Timer) (s : State) : State :=
  {| data := data s; loading := loading s; error := error s; wsData := wsData s; wsState := wsState s;
     wsMessagesQueue := wsMessagesQueue s; isFirst := isFirst s; wsRef := wsRef s;
     abortControllerRef := abortControllerRef s; timeoutRef := timeoutRef s; isMounted := isMounted s;
     latestRequestIdRef := latestRequestIdRef s; fetchDataRef := fetchDataRef s; props := props s; memo := memo s;
     flushDeps := flushDeps s; queueId := queueId s; wsCleanup := wsCleanup s; interval := interval s; now := now s;
     timers := v; nextTimer := nextTimer s; aborted := aborted s; nextController := nextController s;
     inflight := inflight s; sockets := sockets s; runs := runs s; calls := calls s |}.
Definition set_nextTimer (v : nat) (s : State) : State :=
  {| data := data s; loading := loading s; error := error s; wsData := wsData s; wsState := wsState s;
     wsMessagesQueue := wsMessagesQueue s; isFirst := isFirst s; wsRef := wsRef s;
     abortControllerRef := abortControllerRef s; timeoutRef := timeoutRef s; isMounted := isMounted s;
     latestRequestIdRef := latestRequestIdRef s; fetchDataRef := fetchDataRef s; props := props s; memo := memo s;
     flushDeps := flushDeps s; queueId := queueId s; wsCleanup := wsCleanup s; interval := interval s; now := now s;
     timers := timers s; nextTimer := v; aborted := aborted s; nextController := nextController s;
     inflight := inflight s; sockets := sockets s; runs := runs s; calls := calls s |}.
Definition set_aborted (v : list nat) (s : State) : State :=
  {| data := data s; loading := loading s; error := error s; wsData := wsData s; wsState := wsState s;
     wsMessagesQueue := wsMessagesQueue s; isFirst := isFirst s; wsRef := wsRef s;
     abortControllerRef := abortControllerRef s; timeoutRef := timeoutRef s; isMounted := isMounted s;
     latestRequestIdRef := latestRequestIdRef s; fetchDataRef := fetchDataRef s; props := props s; memo := memo s;
     flushDeps := flushDeps s; queueId := queueId s; wsCleanup := wsCleanup s; interval := interval s; now := now s;
     timers := timers s; nextTimer := nextTimer s; aborted := v; nextController := nextController s;
     inflight := inflight s; sockets := sockets s; runs := runs s; calls := calls s |}.
Definition set_nextController (v : nat) (s : State) : State :=
  {| data := data s; loading := loading s; error := error s; wsData := wsData s; wsState := wsState s;
     wsMessagesQueue := wsMessagesQueue s; isFirst := isFirst s; wsRef := wsRef s;
     abortControllerRef := abortControllerRef s; timeoutRef := timeoutRef s; isMounted := isMounted s;
     latestRequestIdRef := latestRequestIdRef s; fetchDataRef := fetchDataRef s; props := props s; memo := memo s;
     flushDeps := flushDeps s; queueId := queueId s; wsCleanup := wsCleanup s; interval := interval s; now := now s;
     timers := timers s; nextTimer := nextTimer s; aborted := aborted s; nextController := v; inflight := inflight s;
     sockets := sockets s; runs := runs s; calls := calls s |}.
Definition set_inflight (v : list Request) (s : State) : State :=
  {| data := data s; loading := loading s; error := error s; wsData := wsData s; wsState := wsState s;
     wsMessagesQueue := wsMessagesQueue s; isFirst := isFirst s; wsRef := wsRef s;
     abortControllerRef := abortControllerRef s; timeoutRef := timeoutRef s; isMounted := isMounted s;
     latestRequestIdRef := latestRequestIdRef s; fetchDataRef := fetchDataRef s; props := props s; memo := memo s;
     flushDeps := flushDeps s; queueId := queueId s; wsCleanup := wsCleanup s; interval := interval s; now := now s;
     timers := timers s; nextTimer := nextTimer s; aborted := aborted s; nextController := nextController s;
     inflight := v; sockets := sockets s; runs := runs s; calls := calls s |}.
Definition set_sockets (v : list Socket) (s : State) : State :=
  {| data := data s; loading := loading s; error := error s; wsData := wsData s; wsState := wsState s;
     wsMessagesQueue := wsMessagesQueue s; isFirst := isFirst s; wsRef := wsRef s;
     abortControllerRef := abortControllerRef s; timeoutRef := timeoutRef s; isMounted := isMounted s;
     latestRequestIdRef := latestRequestIdRef s; fetchDataRef := fetchDataRef s; props := props s; memo := memo s;
     flushDeps := flushDeps s; queueId := queueId s; wsCleanup := wsCleanup s; interval := interval s; now := now s;
     timers := timers s; nextTimer := nextTimer s; aborted := aborted s; nextController := nextController s;
     inflight := inflight s; sockets := v; runs := runs s; calls := calls s |}.
Definition set_runs (v : list Run) (s : State) : State :=
  {| data := data s; loading := loading s; error := error s; wsData := wsData s; wsState := wsState s;
     wsMessagesQueue := wsMessagesQueue s; isFirst := isFirst s; wsRef := wsRef s;
     abortControllerRef := abortControllerRef s; timeoutRef := timeoutRef s; isMounted := isMounted s;
     latestRequestIdRef := latestRequestIdRef s; fetchDataRef := fetchDataRef s; props := props s; memo := memo s;
     flushDeps := flushDeps s; queueId := queueId s; wsCleanup := wsCleanup s; interval := interval s; now := now s;
     timers := timers s; nextTimer := nextTimer s; aborted := aborted s; nextController := nextController s;
     inflight := inflight s; sockets := sockets s; runs := v; calls := calls s |}.
Definition set_calls (v : list Call) (s : State) : State :=
  {| data := data s; loading := loading s; error := error s; wsData := wsData s; wsState := wsState s;
     wsMessagesQueue := wsMessagesQueue s; isFirst := isFirst s; wsRef := wsRef s;
     abortControllerRef := abortControllerRef s; timeoutRef := timeoutRef s; isMounted := isMounted s;
     latestRequestIdRef := latestRequestIdRef s; fetchDataRef := fetchDataRef s; props := props s; memo := memo s;
     flushDeps := flushDeps s; queueId := queueId s; wsCleanup := wsCleanup s; interval := interval s; now := now s;
     timers := timers s; nextTimer := nextTimer s; aborted := aborted s; nextController := nextController s;
     inflight := inflight s; sockets := sockets s; runs := runs s; calls := v |}.

(** ** Timers, abort controllers *)

(** [setTimeout(cb, delay)]: the timer gets the next identifier; a negative
    delay counts as zero. *)
Definition setTimeout (cb : Callback) (delay : Z) (s : State) : State :=
  let t := mkTimer (nextTimer s) delay (now s + Z.max 0 delay) cb in
  set_calls (calls s ++ [SetTimeout cb delay])
    (set_nextTimer (S (nextTimer s)) (set_timers (timers s ++ [t]) s)).

(** [clearTimeout(id)]: nothing happens when the timer fired already. *)
Definition clearTimeout (id : nat) (s : State) : State :=
  set_timers (filter (λ t, t_id t ≠ id) (timers s)) s.

Definition isAborted (k : nat) (s : State) : bool := bool_decide (k ∈ aborted s).

(** [abortControllerRef.current?.abort()] *)
Definition abortCurrent (s : State) : State :=
  match abortControllerRef s with
  | Some k => if isAborted k s then s else set_aborted (k :: aborted s) s
  | None => s
  end.

(** ** Request controller *)

(** [Math.min(100 * 2 ** attempts, 5000)] *)
Definition retryDelay (attempts : Z) : Z := Z.min (100 * 2 ^ attempts) 5000.

(** The delay of the timer that [fetchData] sets: [!isFirst ? debounce : 0],
    with the [isFirst] and the [debounce] of the closure. *)
Definition fetchDelay (c : Closure) : Z :=
  if negb (cl_isFirst c) then debounce (cl_props c) else 0.

(** [fetchData(attempts)], lines 83 to 142, up to the timer it sets. *)
Definition fetchData (c : Closure) (attempts : Z) (s : State) : State :=
  let s := match timeoutRef s with
           | Some t => clearTimeout t s
           | None => s
           end in
  let requestId := now s in                 (* Date.now() *)
  let currentRequestId := requestId in
  let t := nextTimer s in
  let s := setTimeout (CbFetch c attempts currentRequestId) (fetchDelay c) s in
  let s := set_timeoutRef (Some t) s in
  let s := set_latestRequestIdRef requestId s in
  set_isFirst false s.

(** [isMounted.current && currentRequestId === latestRequestIdRef.current] *)
Definition isCurrent (currentRequestId : Z) (s : State) : bool :=
  isMounted s && (currentRequestId =? latestRequestIdRef s).

(** The timer callback, lines 91 to 117, up to the [await]: the call is
    handed to the transport.  When the owner is gone the callback returns,
    and the [finally] block does nothing either. *)
Definition startRequest (c : Closure) (attempts currentRequestId : Z) (s : State) : State :=
  if negb (isMounted s) then s
  else
    let s := set_loading true s in
    let s := set_error None s in
    let s := abortCurrent s in
    let k := nextController s in            (* new AbortController() *)
    let s := set_nextController (S k) s in
    let s := set_abortControllerRef (Some k) s in
    let r := mkRequest k c attempts currentRequestId in
    set_calls (calls s ++ [Axios r]) (set_inflight (inflight s ++ [r]) s).

(** The rest of the callback, lines 117 to 136, once the transport settled
    the call: the [try] after the [await], the [catch] and the [finally]. *)
Definition settle (r : Request) (o : Outcome) (s : State) : State :=
  let c := r_closure r in
  let s :=
    match o with
    | Success d =>
        if isCurrent (r_requestId r) s then set_data (Some d) s else s
    | Cancelled => s                        (* if (axios.isCancel(err)) return; *)
    | Failure e =>
        if r_attempts r <? retry (cl_props c)
        then setTimeout (CbRetry c (r_attempts r)) (retryDelay (r_attempts r)) s
        else if isCurrent (r_requestId r) s
             then match errorMessage e with
                  | Some v => set_error (Some v) s
                  | None => s               (* a [TypeError] leaves the [catch] block *)
                  end
             else s
    end in
  (* finally *)
  if isCurrent (r_requestId r) s then set_loading false s else s.

(** [refetch: () => fetchDataRef.current()], with [attempts = 0]. *)
Definition refetch (s : State) : State := fetchData (fetchDataRef s) 0 s.

(** [cancel: () => abortControllerRef.current?.abort()] *)
Definition cancel (s : State) : State := abortCurrent s.

(** ** Connection controller *)

Definition set_readyState (v : ReadyState) (k : Socket) : Socket :=
  {| ws_url := ws_url k; readyState := v; ws_run := ws_run k; ws_sent := ws_sent k;
     ws_closeFired := ws_closeFired k |}.

Definition set_ws_sent (v : list string) (k : Socket) : Socket :=
  {| ws_url := ws_url k; readyState := readyState k; ws_run := ws_run k; ws_sent := v;
     ws_closeFired := ws_closeFired k |}.

Definition set_ws_closeFired (v : bool) (k : Socket) : Socket :=
  {| ws_url := ws_url k; readyState := readyState k; ws_run := ws_run k;
     ws_sent := ws_sent k; ws_closeFired := v |}.

Definition set_reconnectAttempts (v : Z) (r : Run) : Run :=
  {| run_wsUrl := run_wsUrl r; MAX_RECONNECT_ATTEMPTS := MAX_RECONNECT_ATTEMPTS r;
     reconnectAttempts := v |}.

(** The socket behind [wsRef.current] when its [readyState] is [OPEN]. *)
Definition openHandle (s : State) : option nat :=
  match wsRef s with
  | Some i =>
      match sockets s !! i with
      | Some k => if bool_decide (readyState k = OPEN) then Some i else None
      | None => None
      end
  | None => None
  end.

(** [socket.send(text)] *)
Definition wsSend (i : nat) (text : string) (s : State) : State :=
  set_sockets (alter (λ k, set_ws_sent (ws_sent k ++ [text]) k) i (sockets s)) s.

(** [socket.close()]: a socket that is connecting or open starts closing. *)
Definition wsClose (i : nat) (s : State) : State :=
  set_sockets
    (alter (λ k, match readyState k with
                 | CONNECTING | OPEN => set_readyState CLOSING k
                 | CLOSING | CLOSED => k
                 end) i (sockets s)) s.

(** [connectWebSocket] of run [run], lines 164 to 199: nothing when a handle
    is there; otherwise a new socket, with the handlers of this run. *)
Definition connectWebSocket (run : nat) (s : State) : State :=
  match wsRef s with
  | Some _ => s
  | None =>
      match runs s !! run with
      | Some r =>
          let i := length (sockets s) in
          set_wsRef (Some i)
            (set_sockets (sockets s ++ [mkSocket (run_wsUrl r) CONNECTING run [] false]) s)
      | None => s
      end
  end.

(** [onopen], lines 170 to 174 *)
Definition onopen (run : nat) (s : State) : State :=
  set_wsState Ws_open (set_runs (alter (set_reconnectAttempts 0) run (runs s)) s).

(** [onerror], lines 185 to 188 *)
Definition onerror (s : State) : State := set_wsState Ws_error s.

(** [onclose], lines 190 to 198 *)
Definition onclose (run : nat) (s : State) : State :=
  let s := set_wsRef None s in
  let s := set_wsState Ws_closed s in
  match runs s !! run with
  | Some r =>
      if isMounted s && (reconnectAttempts r <? MAX_RECONNECT_ATTEMPTS r)
      then
        let n := reconnectAttempts r + 1 in       (* reconnectAttempts++ *)
        let s := set_runs (alter (set_reconnectAttempts n) run (runs s)) s in
        setTimeout (CbConnect run) (1000 * Z.min n 30) s
      else s
  | None => s
  end.

(** [closeWebSocket], lines 214 to 220 *)
Definition closeWebSocket (s : State) : State :=
  match wsRef s with
  | Some i => set_wsState Ws_closed (set_wsRef None (wsClose i s))
  | None => s
  end.

(** [setWsMessagesQueue(q)]: a new array in the state cell. *)
Definition setWsMessagesQueue (q : list Json) (s : State) : State :=
  set_queueId (S (queueId s)) (set_wsMessagesQueue q s).

(** The global [JSON] object: [JSON.stringify] and [JSON.parse]; a text
    that does not parse gives [None] (the [SyntaxError] that [JSON.parse]
    throws). *)
Class JSON := {
  JSON_stringify : Json → string;
  JSON_parse : string → option Json
}.

Section Hook.

Context {json : JSON}.

(** [onmessage], lines 176 to 183 *)
Definition onmessage (event_data : string) (s : State) : State :=
  if isMounted s then
    match JSON_parse event_data with
    | Some v => set_wsData (Some v) s
    | None => set_error (Some (JStr "Failed to parse WebSocket message")) s
    end
  else s.

(** [sendMessage], lines 205 to 212 *)
Definition sendMessage (m : Json) (s : State) : State :=
  match openHandle s with
  | Some i => wsSend i (JSON_stringify m) s
  | None => setWsMessagesQueue (wsMessagesQueue s ++ [m]) s
  end.

(** The body of the queue effect, lines 75 to 80.  [ws] and [queue] are the
    [wsState] and [wsMessagesQueue] of the render the effect belongs to; the
    refs are read when the effect runs. *)
Definition flushQueue (ws : WsState) (queue : list Json) (s : State) : State :=
  match openHandle s with
  | Some i =>
      if bool_decide (ws = Ws_open) && negb (length queue =? 0)%nat
      then setWsMessagesQueue []
             (foldl (λ s m, wsSend i (JSON_stringify m) s) s queue)
      else s
  | None => s
  end.

(** ** Rendering and effects *)

(** The effect of lines 149 to 153. *)
Definition autoFetchEffect (p : Options) (s : State) : State :=
  if autoFetch p && negb (truthy (wsUrl p)) then fetchData (fetchDataRef s) 0 s else s.

(** The socket effect, lines 158 to 203: without a [wsUrl] it returns at
    once and registers no cleanup; otherwise a new run with its own
    [reconnectAttempts] connects, and [closeWebSocket] is the cleanup. *)
Definition socketEffect (p : Options) (s : State) : State :=
  if truthy (wsUrl p) then
    let run := length (runs s) in
    let r := mkRun (default "" (wsUrl p)) (retry p * 2) 0 in
    set_wsCleanup true (connectWebSocket run (set_runs (runs s ++ [r]) s))
  else set_wsCleanup false s.

(** The auto refresh effect, lines 225 to 233. *)
Definition refreshEffect (p : Options) (s : State) : State :=
  if (autoRefresh p =? 0) || truthy (wsUrl p) then set_interval false s
  else set_interval true s.

(** The state before the first render: the initial values of the
    [useState] and [useRef] calls; [t0] is the clock. *)
Definition initial (p : Options) (t0 : Z) : State :=
  let cb := mkClosure p true in
  {| data := None; loading := false; error := None; wsData := None;
     wsState := Ws_connecting; wsMessagesQueue := []; isFirst := true;
     wsRef := None; abortControllerRef := None; timeoutRef := None;
     isMounted := true; latestRequestIdRef := 0; fetchDataRef := cb;
     props := p; memo := cb; flushDeps := (Ws_connecting, 0%nat); queueId := 0%nat;
     wsCleanup := false; interval := false;
     now := t0; timers := []; nextTimer := 1%nat; aborted := [];
     nextController := 0%nat; inflight := []; sockets := []; runs := []; calls := [] |}.

(** The first render and its effects, in source order. *)
Definition mount (p : Options) (t0 : Z) : State :=
  let s := initial p t0 in
  let s := set_isMounted true s in                         (* lines 62, 63 *)
  let s := flushQueue (wsState s) (wsMessagesQueue s) s in (* lines 74 to 81 *)
  let s := set_fetchDataRef (memo s) s in                  (* lines 145 to 147 *)
  let s := autoFetchEffect p s in
  let s := socketEffect p s in
  refreshEffect p s.

(** The queue effect of a render that saw [ws] and [queue], the array of
    identity [qid]: it runs when one of the two changed since the render
    before. *)
Definition queueEffect (ws : WsState) (queue : list Json) (qid : nat) (s : State) : State :=
  if bool_decide ((ws, qid) = flushDeps s) then s
  else set_flushDeps (ws, qid) (flushQueue ws queue s).

(** A later render with props [p].  [useCallback] keeps the memoised
    callback unless a dependency changed; the new callback closes over the
    [isFirst] of this render.  Then the cleanups of the effects whose
    dependencies changed run, then those effects, in source order.  The queue
    effect sees the [wsState] and the queue of the render. *)
Definition render (p : Options) (s : State) : State :=
  let old := props s in
  let ws := wsState s in
  let queue := wsMessagesQueue s in
  let qid := queueId s in
  let sameFetch := bool_decide (fetchDeps p = fetchDeps old) in
  let sameAuto := bool_decide (autoFetchDeps p = autoFetchDeps old) in
  let sameWs := bool_decide (wsDeps p = wsDeps old) in
  let sameRefresh := bool_decide (refreshDeps p = refreshDeps old) in
  let cb := if sameFetch then memo s else mkClosure p (isFirst s) in
  let s := set_props p (set_memo cb s) in
  (* cleanups *)
  let s := if sameWs then s else if wsCleanup s then closeWebSocket s else s in
  let s := if sameRefresh then s else set_interval false s in
  (* effects *)
  let s := queueEffect ws queue qid s in
  let s := if sameFetch then s else set_fetchDataRef cb s in
  let s := if sameAuto then s else autoFetchEffect p s in
  let s := if sameWs then s else socketEffect p s in
  if sameRefresh then s else refreshEffect p s.

(** The owner goes away: the cleanup of lines 64 to 70, then the cleanups of
    the socket effect and of the auto refresh effect. *)
Definition unmount (s : State) : State :=
  let s := set_isMounted false s in
  let s := abortCurrent s in
  let s := match timeoutRef s with
           | Some t => clearTimeout t s
           | None => s
           end in
  let s := closeWebSocket s in
  let s := match wsRef s with               (* if(wsRef?.current) ... close() *)
           | Some i => wsClose i s
           | None => s
           end in
  let s := if wsCleanup s then closeWebSocket s else s in
  set_interval false s.

(** ** Events *)

Inductive Event :=
| Render (p : Options)           (* React renders the hook again *)
| Unmount
| Refetch                        (* the owner calls [refetch()] *)
| Cancel                         (* the owner calls [cancel()] *)
| SendMessage (m : Json)
| CloseWebSocket
| IntervalTick                   (* the auto refresh interval ticks *)
| Elapse (dt : Z)                (* the clock advances *)
| Fire (t : nat)                 (* a pending timer that is due fires *)
| Settle (k : nat) (o : Outcome) (* the transport settles the call of controller [k] *)
| WsOpen (i : nat)              (* the events of socket [i] *)
| WsMessage (i : nat) (event_data : string)
| WsError (i : nat)
| WsClose (i : nat)
| WsClosing (i : nat).           (* the server starts the closing handshake *)

Definition findTimer (id : nat) (s : State) : option Timer :=
  find (λ t, Nat.eqb (t_id t) id) (timers s).

Definition findRequest (k : nat) (s : State) : option Request :=
  find (λ r, Nat.eqb (r_controller r) k) (inflight s).

Definition dropRequest (k : nat) (s : State) : State :=
  set_inflight (filter (λ r, r_controller r ≠ k) (inflight s)) s.

(** A call whose signal was aborted is rejected as cancelled, and only
    such a call is. *)
Definition settles (k : nat) (o : Outcome) (s : State) : bool :=
  match o with
  | Cancelled => isAborted k s
  | Success _ | Failure _ => negb (isAborted k s)
  end.

Definition runCallback (cb : Callback) (s : State) : State :=
  match cb with
  | CbFetch c attempts currentRequestId => startRequest c attempts currentRequestId s
  | CbRetry c attempts => fetchData c (attempts + 1) s
  | CbConnect run => connectWebSocket run s
  end.

Definition setSocketState (i : nat) (v : ReadyState) (s : State) : State :=
  set_sockets (alter (set_readyState v) i (sockets s)) s.

Definition setSocketClosed (i : nat) (s : State) : State :=
  set_sockets
    (alter (λ k, set_ws_closeFired true (set_readyState CLOSED k)) i (sockets s)) s.

(** One event.  [None]: the event cannot happen in this state (the timer
    is not pending or not due, the call is not in flight, the socket is not
    in a state that raises the event, the hook is not rendered any more).

    Socket events are raised as the WebSocket interface raises them: open
    on a connecting socket, with [readyState] set to [OPEN]; message on an
    open socket; error only for a connection that failed, with [readyState]
    set to [CLOSED] already and the close event still to come; close once
    per socket, with [readyState] set to [CLOSED].  When the server starts
    the closing handshake of an open socket, [readyState] becomes [CLOSING]
    and no handler runs: the close event comes later. *)
Definition step (s : State) (e : Event) : option State :=
  match e with
  | Render p => if isMounted s then Some (render p s) else None
  | Unmount => if isMounted s then Some (unmount s) else None
  | Refetch => Some (refetch s)
  | Cancel => Some (cancel s)
  | SendMessage m => Some (sendMessage m s)
  | CloseWebSocket => Some (closeWebSocket s)
  | IntervalTick => if interval s then Some (refetch s) else None
  | Elapse dt => if 0 <=? dt then Some (set_now (now s + dt) s) else None
  | Fire id =>
      match findTimer id s with
      | Some t =>
          if t_due t <=? now s then Some (runCallback (t_cb t) (clearTimeout id s))
          else None
      | None => None
      end
  | Settle k o =>
      match findRequest k s with
      | Some r => if settles k o s then Some (settle r o (dropRequest k s)) else None
      | None => None
      end
  | WsOpen i =>
      match sockets s !! i with
      | Some k =>
          if bool_decide (readyState k = CONNECTING)
          then Some (onopen (ws_run k) (setSocketState i OPEN s))
          else None
      | None => None
      end
  | WsMessage i event_data =>
      match sockets s !! i with
      | Some k =>
          if bool_decide (readyState k = OPEN) then Some (onmessage event_data s)
          else None
      | None => None
      end
  | WsError i =>
      match sockets s !! i with
      | Some k =>
          if bool_decide (readyState k = CLOSED) then None
          else Some (onerror (setSocketState i CLOSED s))
      | None => None
      end
  | WsClose i =>
      match sockets s !! i with
      | Some k =>
          if ws_closeFired k then None
          else Some (onclose (ws_run k) (setSocketClosed i s))
      | None => None
      end
  | WsClosing i =>
      match sockets s !! i with
      | Some k =>
          if bool_decide (readyState k = OPEN) then Some (setSocketState i CLOSING s)
          else None
      | None => None
      end
  end.

(** A sequence of events, oldest first. *)
Fixpoint run (s : State) (es : list Event) : option State :=
  match es with
  | [] => Some s
  | e :: es =>
      match step s e with
      | Some s' => run s' es
      | None => None
      end
  end.

End Hook.

(** ** Runs from the first render *)

Section Reachable.

Context {json : JSON}.

(** The states the hook can be in: those a sequence of events leads to from
    the first render. *)
Definition reachable (s : State) : Prop :=
  ∃ p t0 es, run (mount p t0) es = Some s.

(** The text that socket [i] was sent so far. *)
Definition sentOn (i : nat) (s : State) : list string :=
  match sockets s !! i with
  | Some k => ws_sent k
  | None => []
  end.

End Reachable.

(** The props [p] with another [headers] object. *)
Definition withHeaders (h : Ref) (p : Options) : Options :=
  {| url := url p; method := method p; body := body p; headers := Some h;
     queryParams := queryParams p; autoFetch := autoFetch p; retry := retry p;
     debounce := debounce p; baseUrl := baseUrl p; credentials := credentials p;
     autoRefresh := autoRefresh p; wsUrl := wsUrl p; timeout := timeout p |}.

(** ** [JSON.stringify] and [JSON.parse]

    The two functions on the values of [Json], to run examples with; the
    theorems hold for every pair of functions.  A text is a [string] of
    bytes, UTF-8 for what is not ASCII; numbers are exact. *)

Module Json_text.

Definition quote : ascii := "034"%char.
Definition backslash : ascii := "092"%char.

Definition chars (t : string) : list ascii := String.list_ascii_of_string t.
Definition text (l : list ascii) : string := String.string_of_list_ascii l.

Definition code (c : ascii) : N := N_of_ascii c.

Definition hexDigit (n : N) : ascii :=
  ascii_of_N (if (n <? 10)%N then 48 + n else 87 + n).

(** [QuoteJSONString]: the quote, the backslash and the control characters
    are escaped. *)
Definition escape (c : ascii) : list ascii :=
  let n := code c in
  if (n =? 34)%N then [backslash; quote]
  else if (n =? 92)%N then [backslash; backslash]
  else if (n =? 8)%N then backslash :: chars "b"
  else if (n =? 12)%N then backslash :: chars "f"
  else if (n =? 10)%N then backslash :: chars "n"
  else if (n =? 13)%N then backslash :: chars "r"
  else if (n =? 9)%N then backslash :: chars "t"
  else if (n <? 32)%N
       then backslash :: chars "u00" ++ [hexDigit (n / 16); hexDigit (n mod 16)]
  else [c].

Definition quoted (t : string) : list ascii :=
  quote :: concat (map escape (chars t)) ++ [quote].

Definition digitsOf (n : N) : list ascii :=
  chars (NilZero.string_of_uint (N.to_uint n)).

Fixpoint dropZeros (rev_digits : list ascii) : nat * list ascii :=
  match rev_digits with
  | c :: r =>
      if (code c =? 48)%N
      then let '(z, r') := dropZeros r in (S z, r')
      else (0%nat, rev_digits)
  | [] => (0%nat, [])
  end.

(** [Number::toString] of [m * 10 ^ e]. *)
Definition numberText (m e : Z) : list ascii :=
  if m =? 0 then chars "0"
  else
    let '(z, rd) := dropZeros (rev (digitsOf (Z.to_N (Z.abs m)))) in
    let ds := rev rd in
    let k := Z.of_nat (length ds) in
    let n := k + (e + Z.of_nat z) in
    let sign := if m <? 0 then chars "-" else [] in
    let body :=
      if (k <=? n) && (n <=? 21)
      then ds ++ repeat "0"%char (Z.to_nat (n - k))
      else if (0 <? n) && (n <=? 21)
      then take (Z.to_nat n) ds ++ chars "." ++ drop (Z.to_nat n) ds
      else if (-6 <? n) && (n <=? 0)
      then chars "0." ++ repeat "0"%char (Z.to_nat (- n)) ++ ds
      else
        take 1 ds
        ++ (if k =? 1 then [] else chars "." ++ drop 1 ds)
        ++ chars "e" ++ (if n - 1 <? 0 then chars "-" else chars "+")
        ++ digitsOf (Z.to_N (Z.abs (n - 1))) in
    sign ++ body.

Definition joinWith (sep : list ascii) (parts : list (list ascii)) : list ascii :=
  match parts with
  | [] => []
  | p :: ps => p ++ concat (map (λ q, sep ++ q) ps)
  end.

Fixpoint stringifyChars (j : Json) : list ascii :=
  match j with
  | JNull => chars "null"
  | JBool true => chars "true"
  | JBool false => chars "false"
  | JNum n => numberText n 0
  | JDec m e => numberText m e
  | JStr t => quoted t
  | JArr l => chars "[" ++ joinWith (chars ",") (map stringifyChars l) ++ chars "]"
  | JObj l =>
      chars "{"
      ++ joinWith (chars ",")
           (map (λ kv, quoted (fst kv) ++ chars ":" ++ stringifyChars (snd kv)) l)
      ++ chars "}"
  end.

(** [JSON.stringify(value)] *)
Definition stringify (j : Json) : string := text (stringifyChars j).

(** *** Parsing *)

Definition isWs (c : ascii) : bool :=
  let n := code c in (n =? 32)%N || (n =? 9)%N || (n =? 10)%N || (n =? 13)%N.

Fixpoint skipWs (l : list ascii) : list ascii :=
  match l with
  | c :: r => if isWs c then skipWs r else l
  | [] => []
  end.

Fixpoint stripPrefix (p l : list ascii) : option (list ascii) :=
  match p, l with
  | [], _ => Some l
  | a :: p', b :: l' => if Ascii.eqb a b then stripPrefix p' l' else None
  | _ :: _, [] => None
  end.

Definition isDigit (c : ascii) : bool := (48 <=? code c)%N && (code c <=? 57)%N.

Fixpoint spanDigits (l : list ascii) : list ascii * list ascii :=
  match l with
  | c :: r =>
      if isDigit c then let '(ds, r') := spanDigits r in (c :: ds, r') else ([], l)
  | [] => ([], [])
  end.

Definition digitsValue (ds : list ascii) : Z :=
  foldl (λ acc c, 10 * acc + Z.of_N (code c - 48)) 0 ds.

(** The number [m * 10 ^ e] as a value: an integer when it is one. *)
Fixpoint normalise (fuel : nat) (m e : Z) : Json :=
  if 0 <=? e then JNum (m * 10 ^ e)
  else
    match fuel with
    | S fuel => if m mod 10 =? 0 then normalise fuel (m / 10) (e + 1) else JDec m e
    | O => JDec m e
    end.

(** A number token: an optional minus, zero or digits that do not start
    with zero, an optional fraction, an optional exponent. *)
Definition parseNumber (l : list ascii) : option (Json * list ascii) :=
  let '(neg, l) := match l with
                   | c :: r => if (code c =? 45)%N then (true, r) else (false, l)
                   | [] => (false, l)
                   end in
  let '(int, l) := spanDigits l in
  match int with
  | [] => None
  | d :: int' =>
      if (code d =? 48)%N && negb (length int' =? 0)%nat then None
      else
        let frac :=
          match l with
          | c :: r =>
              if (code c =? 46)%N
              then let '(fs, r') := spanDigits r in
                   match fs with [] => None | _ => Some (fs, r') end
              else Some ([], l)
          | [] => Some ([], l)
          end in
        match frac with
        | None => None
        | Some (fs, l) =>
            let exp :=
              match l with
              | c :: r =>
                  if (code c =? 101)%N || (code c =? 69)%N
                  then
                    let '(eneg, r) :=
                      match r with
                      | s :: r' =>
                          if (code s =? 45)%N then (true, r')
                          else if (code s =? 43)%N then (false, r')
                          else (false, r)
                      | [] => (false, r)
                      end in
                    let '(es, r') := spanDigits r in
                    match es with
                    | [] => None
                    | _ => Some ((if eneg then - digitsValue es else digitsValue es), r')
                    end
                  else Some (0, l)
              | [] => Some (0, l)
              end in
            match exp with
            | None => None
            | Some (ev, l) =>
                let m := digitsValue (int ++ fs) in
                let m := if neg then - m else m in
                let e := ev - Z.of_nat (length fs) in
                Some (if m =? 0 then JNum 0 else normalise (length (int ++ fs)) m e, l)
            end
        end
  end.

Definition hexValue (c : ascii) : option N :=
  let n := code c in
  if (48 <=? n)%N && (n <=? 57)%N then Some (n - 48)%N
  else if (97 <=? n)%N && (n <=? 102)%N then Some (n - 87)%N
  else if (65 <=? n)%N && (n <=? 70)%N then Some (n - 55)%N
  else None.

Definition hex4 (a b c d : ascii) : option N :=
  match hexValue a, hexValue b, hexValue c, hexValue d with
  | Some x, Some y, Some z, Some w => Some (((x * 16 + y) * 16 + z) * 16 + w)%N
  | _, _, _, _ => None
  end.

(** The bytes of a code point. *)
Definition utf8 (cp : N) : list ascii :=
  if (cp <? 128)%N then [ascii_of_N cp]
  else if (cp <? 2048)%N
  then [ascii_of_N (192 + cp / 64); ascii_of_N (128 + cp mod 64)]
  else if (cp <? 65536)%N
  then [ascii_of_N (224 + cp / 4096); ascii_of_N (128 + (cp / 64) mod 64);
        ascii_of_N (128 + cp mod 64)]
  else [ascii_of_N (240 + cp / 262144); ascii_of_N (128 + (cp / 4096) mod 64);
        ascii_of_N (128 + (cp / 64) mod 64); ascii_of_N (128 + cp mod 64)].

Definition isHigh (u : N) : bool := (55296 <=? u)%N && (u <=? 56319)%N.
Definition isLow (u : N) : bool := (56320 <=? u)%N && (u <=? 57343)%N.

(** The characters of a string literal, after the opening quote. *)
Fixpoint parseChars (l : list ascii) (acc : list ascii)
    : option (string * list ascii) :=
  match l with
  | [] => None
  | c :: r =>
      if (code c =? 34)%N then Some (text (rev acc), r)
      else if (code c <? 32)%N then None
      else if (code c =? 92)%N then
        match r with
        | [] => None
        | x :: r1 =>
            let simple (y : ascii) := parseChars r1 (y :: acc) in
            let n := code x in
            if (n =? 34)%N then simple quote
            else if (n =? 92)%N then simple backslash
            else if (n =? 47)%N then simple "/"%char
            else if (n =? 98)%N then simple "008"%char
            else if (n =? 102)%N then simple "012"%char
            else if (n =? 110)%N then simple "010"%char
            else if (n =? 114)%N then simple "013"%char
            else if (n =? 116)%N then simple "009"%char
            else if (n =? 117)%N then
              match r1 with
              | h1 :: h2 :: h3 :: h4 :: r2 =>
                  match hex4 h1 h2 h3 h4 with
                  | None => None
                  | Some u =>
                      let single := parseChars r2 (rev (utf8 u) ++ acc) in
                      if isHigh u then
                        match r2 with
                        | b :: v :: g1 :: g2 :: g3 :: g4 :: r3 =>
                            if (code b =? 92)%N && (code v =? 117)%N then
                              match hex4 g1 g2 g3 g4 with
                              | Some w =>
                                  if isLow w
                                  then parseChars r3
                                         (rev (utf8 (65536 + (u - 55296) * 1024
                                                     + (w - 56320))) ++ acc)
                                  else single
                              | None => single
                              end
                            else single
                        | _ => single
                        end
                      else single
                  end
              | _ => None
              end
            else None
        end
      else parseChars r (c :: acc)
  end.

(** A property name that is an array index, and its value. *)
Definition arrayIndex (k : string) : option Z :=
  let l := chars k in
  match spanDigits l with
  | (d :: ds, []) =>
      if (code d =? 48)%N && negb (length ds =? 0)%nat then None
      else let v := digitsValue (d :: ds) in
           if v <=? 4294967294 then Some v else None
  | _ => None
  end.

(** [CreateDataProperty] on an object written as its properties in the
    order [JSON.stringify] enumerates them: array indices first, ascending,
    then the other names in the order they were added; a name that is
    there keeps its place and gets the new value. *)
Fixpoint setProperty (k : string) (v : Json) (o : list (string * Json))
    : list (string * Json) :=
  match o with
  | [] => [(k, v)]
  | (k', v') :: o' =>
      if String.eqb k' k then (k', v) :: o'
      else
        match arrayIndex k, arrayIndex k' with
        | Some a, Some b =>
            if a <? b then (k, v) :: (k', v') :: o'
            else (k', v') :: setProperty k v o'
        | Some _, None => (k, v) :: (k', v') :: o'
        | None, _ => (k', v') :: setProperty k v o'
        end
  end.

Fixpoint parseElements (value : list ascii → option (Json * list ascii))
    (n : nat) (l : list ascii) (acc : list Json) : option (list Json * list ascii) :=
  match n with
  | O => None
  | S n =>
      match value l with
      | Some (v, r) =>
          match skipWs r with
          | c :: r' =>
              if (code c =? 44)%N then parseElements value n r' (v :: acc)
              else if (code c =? 93)%N then Some (rev (v :: acc), r')
              else None
          | [] => None
          end
      | None => None
      end
  end.

Fixpoint parseMembers (value : list ascii → option (Json * list ascii))
    (n : nat) (l : list ascii) (acc : list (string * Json))
    : option (list (string * Json) * list ascii) :=
  match n with
  | O => None
  | S n =>
      match skipWs l with
      | q :: r =>
          if (code q =? 34)%N then
            match parseChars r [] with
            | Some (k, r1) =>
                match skipWs r1 with
                | c :: r2 =>
                    if (code c =? 58)%N then
                      match value r2 with
                      | Some (v, r3) =>
                          match skipWs r3 with
                          | d :: r4 =>
                              if (code d =? 44)%N
                              then parseMembers value n r4 (setProperty k v acc)
                              else if (code d =? 125)%N
                              then Some (setProperty k v acc, r4)
                              else None
                          | [] => None
                          end
                      | None => None
                      end
                    else None
                | [] => None
                end
            | None => None
            end
          else None
      | [] => None
      end
  end.

(** A value, with the white space before it. *)
Fixpoint parseValue (fuel : nat) (l : list ascii) : option (Json * list ascii) :=
  match fuel with
  | O => None
  | S fuel =>
      let l := skipWs l in
      match l with
      | [] => None
      | c :: r =>
          let n := code c in
          if (n =? 34)%N then
            match parseChars r [] with
            | Some (t, r') => Some (JStr t, r')
            | None => None
            end
          else if (n =? 91)%N then
            match skipWs r with
            | d :: r' =>
                if (code d =? 93)%N then Some (JArr [], r')
                else match parseElements (parseValue fuel) (length r) r [] with
                     | Some (vs, r'') => Some (JArr vs, r'')
                     | None => None
                     end
            | [] => None
            end
          else if (n =? 123)%N then
            match skipWs r with
            | d :: r' =>
                if (code d =? 125)%N then Some (JObj [], r')
                else match parseMembers (parseValue fuel) (length r) r [] with
                     | Some (ms, r'') => Some (JObj ms, r'')
                     | None => None
                     end
            | [] => None
            end
          else
            match stripPrefix (chars "null") l with
            | Some r' => Some (JNull, r')
            | None =>
                match stripPrefix (chars "true") l with
                | Some r' => Some (JBool true, r')
                | None =>
                    match stripPrefix (chars "false") l with
                    | Some r' => Some (JBool false, r')
                    | None => parseNumber l
                    end
                end
            end
      end
  end.

(** [JSON.parse(text)]; [None] is the [SyntaxError]. *)
Definition parse (t : string) : option Json :=
  let l := chars t in
  match parseValue (S (length l)) l with
  | Some (v, r) => match skipWs r with [] => Some v | _ :: _ => None end
  | None => None
  end.

End Json_text.

(** The global [JSON] object of the examples. *)
Definition text_JSON : JSON :=
  {| JSON_stringify := Json_text.stringify; JSON_parse := Json_text.parse |}.

(** [useDataFetcher({ url: "/items" })]: HTTP mode, every default. *)
Definition httpProps : Options := defaults "/items".

(** The same call with a [headers] object written inline: a new object,
    hence a new reference, at every render. *)
Definition httpPropsWith (headersRef : Ref) (retries : Z) : Options :=
  {| url := "/items"; method := GET; body := None; headers := Some headersRef;
     queryParams := None; autoFetch := true; retry := retries; debounce := 300;
     baseUrl := None; credentials := false; autoRefresh := 0; wsUrl := None;
     timeout := 15000 |}.

(** [useDataFetcher({ url: "/items", wsUrl: "ws://feed", retry })] *)
Definition wsProps (retries : Z) : Options :=
  {| url := "/items"; method := GET; body := None; headers := None;
     queryParams := None; autoFetch := true; retry := retries; debounce := 300;
     baseUrl := None; credentials := false; autoRefresh := 0;
     wsUrl := Some "ws://feed"; timeout := 15000 |}.

(** A clock value for the examples, in milliseconds. *)
Definition t_start : Z := 1700000000000.

(** An error without a response: [message] is ["Network Error"]. *)
Definition networkError : Err := Thrown None (Some (JStr "Network Error")).

(** ** One connection at a time *)

Definition isConnect (cb : Callback) : Prop :=
  match cb with
  | CbConnect _ => True
  | _ => False
  end.

#[global] Instance isConnect_dec (cb : Callback) : Decision (isConnect cb).
Proof. destruct cb; simpl; apply _. Defined.

(** The reconnects that are scheduled. *)
Definition pendingConnects (s : State) : nat :=
  length (filter (λ t, isConnect (t_cb t)) (timers s)).

(** A socket whose close event is still to come. *)
Definition live (k : Socket) : Prop := ws_closeFired k = false.

#[global] Instance live_dec (k : Socket) : Decision (live k).
Proof. unfold live. apply _. Defined.

Definition liveSockets (s : State) : nat := length (filter live (sockets s)).

(** An event of a hook whose socket props ([wsUrl], [retry]) stay as they
    were at the first render with props [p]: the socket effect runs once. *)
Definition keepsSocket (p : Options) (e : Event) : Prop :=
  match e with
  | Render p' => wsDeps p' = wsDeps p
  | _ => True
  end.

(** What the connection controller and the queue effect work on. *)
Definition connectionView (s : State) :=
  (sockets s, wsRef s, wsState s, wsMessagesQueue s, queueId s, flushDeps s).

(** The shape of the state while the socket effect has run once: at most
    one socket that has not closed or one reconnect scheduled; a socket that
    is connecting or open is the one behind the handle; the connection state
    is open when the handle is open; and while the state is open, the
    socket behind the handle is open, or closing because the server started
    the closing handshake. *)
Record oneConnection (s : State) : Prop := {
  oc_count : (liveSockets s + pendingConnects s ≤ 1)%nat;
  oc_handle : ∀ i k, sockets s !! i = Some k →
                readyState k = CONNECTING ∨ readyState k = OPEN → wsRef s = Some i;
  oc_live : ∀ i k, sockets s !! i = Some k → readyState k ≠ CLOSED → live k;
  oc_ref : ∀ i, wsRef s = Some i → ∃ k, sockets s !! i = Some k ∧ live k;
  oc_open_state : ∀ i, openHandle s = Some i → wsState s = Ws_open;
  oc_state_open : wsState s = Ws_open →
                  ∃ i k, wsRef s = Some i ∧ sockets s !! i = Some k
                         ∧ (readyState k = OPEN ∨ readyState k = CLOSING)
}.

(** [quiet s s']: going from [s] to [s'] changed nothing the connection
    controller works on, and scheduled no reconnect. *)
Definition quiet (s s' : State) : Prop :=
  connectionView s' = connectionView s
  ∧ (pendingConnects s' ≤ pendingConnects s)%nat.

(** ** Kinds of runs, and views of the state *)

(** The props and the callbacks: only a render touches them. *)
Definition rendered (s : State) : Options * Closure * Closure :=
  (props s, memo s, fetchDataRef s).

(** An event of a hook whose request props stay as they were at the first
    render with props [p]: any event but a render that changes a dependency
    of [fetchData]. *)
Definition keepsRequest (p : Options) (e : Event) : Prop :=
  match e with
  | Render p' => fetchDeps p' = fetchDeps p
  | _ => True
  end.

(** An event of a hook that is never given a [wsUrl]. *)
Definition keepsHttpMode (e : Event) : Prop :=
  match e with
  | Render p' => truthy (wsUrl p') = false
  | _ => True
  end.

(** No trace of a socket: no run of the socket effect, no socket, no handle,
    the connection state as initialised. *)
Definition noSocket (s : State) : Prop :=
  runs s = [] ∧ sockets s = [] ∧ wsRef s = None ∧ wsState s = Ws_connecting
  ∧ wsCleanup s = false ∧ truthy (wsUrl (props s)) = false.

(** What [noSocket] looks at. *)
Definition socketSide (s : State) :=
  (runs s, sockets s, wsRef s, wsState s, wsCleanup s, props s).

(** ** What the owner sees, and the calls made *)

(** The request state the hook publishes. *)
Definition published (s : State) :=
  (data s, loading s, error s, wsData s).

(** The calls handed to the transport so far, oldest first. *)
Definition transportCalls (s : State) : list Request :=
  omap (λ c, match c with Axios r => Some r | SetTimeout _ _ => None end) (calls s).

(** [unchanged s s']: the owner is as alive as before, nothing was
    published and no call was made. *)
Definition unchanged (s s' : State) : Prop :=
  isMounted s' = isMounted s
  ∧ published s' = published s
  ∧ transportCalls s' = transportCalls s.

(** The props [p] with another [url], and with another [wsUrl]. *)
Definition withUrl (u : string) (p : Options) : Options :=
  {| url := u; method := method p; body := body p; headers := headers p;
     queryParams := queryParams p; autoFetch := autoFetch p; retry := retry p;
     debounce := debounce p; baseUrl := baseUrl p; credentials := credentials p;
     autoRefresh := autoRefresh p; wsUrl := wsUrl p; timeout := timeout p |}.

Definition withWsUrl (u : string) (p : Options) : Options :=
  {| url := url p; method := method p; body := body p; headers := headers p;
     queryParams := queryParams p; autoFetch := autoFetch p; retry := retry p;
     debounce := debounce p; baseUrl := baseUrl p; credentials := credentials p;
     autoRefresh := autoRefresh p; wsUrl := Some u; timeout := timeout p |}.

(** ** Views for the invariants *)

(** The cells that only the request controller, the message handler and
    the clock write. *)
Definition requestSide (s : State) :=
  (data s, loading s, error s, wsData s, isMounted s,
   abortControllerRef s, aborted s, nextController s, inflight s, now s).

(** The calls in flight whose signal was not aborted. *)
Definition liveCalls (s : State) : list Request :=
  filter (λ r, r_controller r ∉ aborted s) (inflight s).

Definition isFetch (cb : Callback) : Prop :=
  match cb with
  | CbFetch _ _ _ => True
  | _ => False
  end.

#[global] Instance isFetch_dec (cb : Callback) : Decision (isFetch cb).
Proof. destruct cb; simpl; apply _. Defined.

(** The fetches that wait for their timer. *)
Definition pendingFetches (s : State) : list Timer :=
  filter (λ t, isFetch (t_cb t)) (timers s).

(** An event of a hook that is given a [wsUrl] at every render and whose
    owner never calls [refetch()]. *)
Definition keepsSocketMode (e : Event) : Prop :=
  match e with
  | Render p' => truthy (wsUrl p') = true
  | Refetch => False
  | _ => True
  end.

(** Auto refresh is on for these props: [autoRefresh] is not zero and no
    [wsUrl] is given. *)
Definition refreshes (p : Options) : bool :=
  negb (autoRefresh p =? 0) && negb (truthy (wsUrl p)).

(** ** One owner at a time

    The timers and the abort controllers are numbered in the order they
    are made; a ref holds the number of the latest.  [owned id P l next ref]:
    the items of [l] have distinct numbers below [next], and an item that
    satisfies [P] is the one [ref] holds. *)
Definition owned {A : Type} (id : A → nat) (P : A → Prop)
    (l : list A) (next : nat) (ref : option nat) : Prop :=
  NoDup (id <$> l)
  ∧ (∀ x, x ∈ l → (id x < next)%nat)
  ∧ (∀ x, x ∈ l → P x → ref = Some (id x)).

(** What the timers are made of. *)
Definition timerSide (s : State) := (timers s, nextTimer s, timeoutRef s).

(** A timer of a fetch is the one [timeoutRef] holds. *)
Definition timerInv (s : State) : Prop :=
  owned t_id (λ t, isFetch (t_cb t)) (timers s) (nextTimer s) (timeoutRef s).

(** What the calls in flight and their controllers are made of. *)
Definition callSide (s : State) :=
  (inflight s, aborted s, abortControllerRef s, nextController s).

(** A call in flight that was not aborted is the one of the controller
    that [abortControllerRef] holds. *)
Definition callInv (s : State) : Prop :=
  owned r_controller (λ r, r_controller r ∉ aborted s)
    (inflight s) (nextController s) (abortControllerRef s).

(** ** Socket mode *)

(** What a fetch leaves a trace in. *)
Definition fetchSide (s : State) :=
  (inflight s, timers s, calls s, data s, loading s).

(** No trace of a fetch: no call in flight, no timer and no logged call but
    those of reconnects, nothing published. *)
Definition noFetch (s : State) : Prop :=
  inflight s = []
  ∧ (∀ t, t ∈ timers s → isConnect (t_cb t))
  ∧ (∀ c, c ∈ calls s → ∃ n d, c = SetTimeout (CbConnect n) d)
  ∧ data s = None
  ∧ loading s = false.

(** ** Loading *)

(** A fetch that waits for its timer carries the identifier issued last. *)
Definition latestPending (s : State) : Prop :=
  ∀ t c a id, t ∈ timers s → t_cb t = CbFetch c a id → id = latestRequestIdRef s.

(** The attempt issued last is still to complete: a fetch waits for its
    timer, or a call in flight carries the latest identifier. *)
Definition awaited (s : State) : Prop :=
  pendingFetches s ≠ []
  ∨ ∃ r, r ∈ inflight s ∧ r_requestId r = latestRequestIdRef s.

Definition loadSide (s : State) :=
  (timers s, inflight s, latestRequestIdRef s, loading s, isMounted s).

Definition loadInv (s : State) : Prop :=
  latestPending s ∧ (isMounted s = true → loading s = true → awaited s).

(** The two invariants of the timers go together. *)
Definition fetchInv (s : State) : Prop := timerInv s ∧ loadInv s.

(** ** The request configuration, lines 97 to 115 *)

(** An object with string values, written as its property assignments in
    order: a later assignment of a key overrides an earlier one, so that
    [{ ...a, ...b }] is [a ++ b]. *)
Definition Obj := list (string * string).

(** [o[k]] *)
Fixpoint objGet (k : string) (o : Obj) : option string :=
  match o with
  | [] => None
  | (k', v) :: o' =>
      match objGet k o' with
      | Some w => Some w
      | None => if String.eqb k' k then Some v else None
      end
  end.

(** What [body] can be: a [FormData] object or any other value. *)
Inductive BodyValue :=
| FormData (fields : Obj)
| Plain (j : Json).

(** The values behind the references that the props hold. *)
Record Heap := mkHeap {
  bodyAt : Ref → BodyValue;
  headersAt : Ref → Obj
}.

Record AxiosRequestConfig := mkConfig {
  baseURL : option string;
  cfg_method : HttpMethod;
  cfg_url : string;
  cfg_headers : Obj;
  params : option Ref;
  signal : nat;                  (* the controller the signal belongs to *)
  withCredentials : bool;
  cfg_timeout : Z;
  cfg_data : option Ref
}.

(** [body instanceof FormData] *)
Definition isFormData (h : Heap) (b : option Ref) : bool :=
  match b with
  | Some r => match bodyAt h r with FormData _ => true | Plain _ => false end
  | None => false
  end.

(** The [body] of [method !== "GET" && body]. *)
Definition bodyTruthy (h : Heap) (b : option Ref) : bool :=
  match b with
  | Some r => match bodyAt h r with FormData _ => true | Plain j => jsTruthy j end
  | None => false
  end.

(** [{ ...headers }]: nothing when [headers] is [undefined]. *)
Definition spreadHeaders (h : Heap) (hs : option Ref) : Obj :=
  match hs with
  | Some r => headersAt h r
  | None => []
  end.

(** The configuration handed to the transport for the props [p], with the
    signal of controller [k]. *)
Definition buildConfig (h : Heap) (p : Options) (k : nat) : AxiosRequestConfig :=
  let config :=
    {| baseURL := baseUrl p;
       cfg_method := method p;
       cfg_url := url p;
       cfg_headers :=
         if isFormData h (body p) then [] ++ spreadHeaders h (headers p)
         else [("Content-Type", "application/json")] ++ spreadHeaders h (headers p);
       params := queryParams p;
       signal := k;
       withCredentials := credentials p;
       cfg_timeout := timeout p;
       cfg_data := None |} in
  if negb (bool_decide (method p = GET)) && bodyTruthy h (body p)
  then {| baseURL := baseURL config; cfg_method := cfg_method config;
          cfg_url := cfg_url config; cfg_headers := cfg_headers config;
          params := params config; signal := signal config;
          withCredentials := withCredentials config;
          cfg_timeout := cfg_timeout config;
          cfg_data := body p |}                     (* config.data = body *)
  else config.

(** The configuration of a call of the log. *)
Definition configOf (h : Heap) (r : Request) : AxiosRequestConfig :=
  buildConfig h (cl_props (r_closure r)) (r_controller r).

(** ** [createDataFetcher], lines 249 to 253 *)

(** An optional property of an options object: not there, there with the
    value [undefined], or there with a value. *)
Inductive Field (A : Type) :=
| Absent
| Undefined
| Given (a : A).

Arguments Absent {A}.
Arguments Undefined {A}.
Arguments Given {A} a.

(** [UseHttpOptions] as the caller writes it; [url] is required. *)
Record UseHttpOptions := mkUseHttpOptions {
  o_url : string;
  o_method : Field HttpMethod;
  o_body : Field Ref;
  o_headers : Field Ref;
  o_queryParams : Field Ref;
  o_autoFetch : Field bool;
  o_retry : Field Z;
  o_debounce : Field Z;
  o_baseUrl : Field string;
  o_credentials : Field bool;
  o_autoRefresh : Field Z;
  o_wsUrl : Field string;
  o_timeout : Field Z
}.

(** A destructuring default, [x = d]: it applies when the property is
    missing or [undefined]. *)
Definition orDefault {A : Type} (d : A) (f : Field A) : A :=
  match f with
  | Given a => a
  | Absent | Undefined => d
  end.

Definition toOption {A : Type} (f : Field A) : option A :=
  match f with
  | Given a => Some a
  | Absent | Undefined => None
  end.

(** The parameter list of [useDataFetcher], lines 35 to 49. *)
Definition destructure (o : UseHttpOptions) : Options :=
  {| url := o_url o;
     method := orDefault GET (o_method o);
     body := toOption (o_body o);
     headers := toOption (o_headers o);
     queryParams := toOption (o_queryParams o);
     autoFetch := orDefault true (o_autoFetch o);
     retry := orDefault 0 (o_retry o);
     debounce := orDefault 300 (o_debounce o);
     baseUrl := toOption (o_baseUrl o);
     credentials := orDefault false (o_credentials o);
     autoRefresh := orDefault 0 (o_autoRefresh o);
     wsUrl := toOption (o_wsUrl o);
     timeout := orDefault 15000 (o_timeout o) |}.

(** One property of [{ ...a, ...b }]: the one of [b] when [b] has it, be
    its value [undefined]. *)
Definition spreadField {A : Type} (a b : Field A) : Field A :=
  match b with
  | Absent => a
  | Undefined | Given _ => b
  end.

(** [{ ...defaultOptions, ...options }] *)
Definition spreadOptions (a b : UseHttpOptions) : UseHttpOptions :=
  {| o_url := o_url b;
     o_method := spreadField (o_method a) (o_method b);
     o_body := spreadField (o_body a) (o_body b);
     o_headers := spreadField (o_headers a) (o_headers b);
     o_queryParams := spreadField (o_queryParams a) (o_queryParams b);
     o_autoFetch := spreadField (o_autoFetch a) (o_autoFetch b);
     o_retry := spreadField (o_retry a) (o_retry b);
     o_debounce := spreadField (o_debounce a) (o_debounce b);
     o_baseUrl := spreadField (o_baseUrl a) (o_baseUrl b);
     o_credentials := spreadField (o_credentials a) (o_credentials b);
     o_autoRefresh := spreadField (o_autoRefresh a) (o_autoRefresh b);
     o_wsUrl := spreadField (o_wsUrl a) (o_wsUrl b);
     o_timeout := spreadField (o_timeout a) (o_timeout b) |}.

(** The props that [createDataFetcher(defaultOptions)(options)] hands to
    [useDataFetcher]; [options ?? {}] adds nothing when [options] is
    [undefined]. *)
Definition createDataFetcher (defaultOptions : UseHttpOptions)
    (options : option UseHttpOptions) : Options :=
  destructure
    match options with
    | Some o => spreadOptions defaultOptions o
    | None => defaultOptions
    end.

(** Whether a property is there, and with a value. *)
Inductive Shape := IsAbsent | IsUndefined | IsGiven.

Definition shape {A : Type} (f : Field A) : Shape :=
  match f with
  | Absent => IsAbsent
  | Undefined => IsUndefined
  | Given _ => IsGiven
  end.

(** The optional properties of an options object. *)
Definition shapes (o : UseHttpOptions) : list Shape :=
  [shape (o_method o); shape (o_body o); shape (o_headers o);
   shape (o_queryParams o); shape (o_autoFetch o); shape (o_retry o);
   shape (o_debounce o); shape (o_baseUrl o); shape (o_credentials o);
   shape (o_autoRefresh o); shape (o_wsUrl o); shape (o_timeout o)].

(** ** The queue and the wire *)

Section Wire.

Context {json : JSON}.




End Wire.

(** ** The budget of the one run *)

(** The socket effect ran once, for the address [u] with the budget
    [budget]: one run, and every socket belongs to it. *)
Definition singleRun (u : string) (budget : Z) (s : State) : Prop :=
  (∃ c, runs s = [mkRun u budget c])
  ∧ Forall (λ k, ws_run k = 0%nat) (sockets s).

(** The budgets of the runs of the socket effect, oldest first. *)
Definition budgets (s : State) : list Z := MAX_RECONNECT_ATTEMPTS <$> runs s.

(** ** States of the example runs *)

Section ExampleStates.

#[local] Existing Instance text_JSON.

(** HTTP mode, after the first fetch was handed to the transport. *)
Definition inFlightState : State :=
  Eval vm_compute in
    default (initial httpProps t_start) (run (mount httpProps t_start) [Fire 1%nat]).

(** HTTP mode, a minute after the first fetch succeeded and the hook was
    rendered again with the same props. *)
Definition idleEvents : list Event :=
  [Fire 1%nat; Settle 0%nat (Success JNull); Render httpProps; Elapse 60000].

Definition idleState : State :=
  Eval vm_compute in
    default (initial httpProps t_start) (run (mount httpProps t_start) idleEvents).

(** HTTP mode, used and then unmounted. *)
Definition httpEvents : list Event :=
  [Fire 1%nat; Settle 0%nat (Success JNull); CloseWebSocket; SendMessage (JStr "ping");
   Render (withHeaders 1%nat httpProps); Refetch; Unmount].

Definition httpEndState : State :=
  Eval vm_compute in
    default (initial httpProps t_start) (run (mount httpProps t_start) httpEvents).



(** Socket mode, the socket open. *)
Definition openState : State :=
  Eval vm_compute in
    default (initial (wsProps 1) t_start)
      (run (mount (wsProps 1) t_start) [WsOpen 0%nat]).

End ExampleStates.

(** ** More example runs *)

Section MoreExampleStates.

#[local] Existing Instance text_JSON.

(** HTTP mode, the owner gone while the first call is in flight. *)
Definition unmountedState : State :=
  Eval vm_compute in default inFlightState (step inFlightState Unmount).

(** What may still happen then: the call is rejected as cancelled, a stale
    reference to [refetch] is called, and the timer it set fires. *)
Definition goneEvents : list Event :=
  [Settle 0%nat Cancelled; Refetch; Elapse 10; Fire 2%nat].

Definition goneState : State :=
  Eval vm_compute in default unmountedState (run unmountedState goneEvents).




(** [useDataFetcher({ url: "/items", autoRefresh: 5000 })] *)
Definition refreshProps : Options :=
  {| url := "/items"; method := GET; body := None; headers := None;
     queryParams := None; autoFetch := true; retry := 0; debounce := 300;
     baseUrl := None; credentials := false; autoRefresh := 5000;
     wsUrl := None; timeout := 15000 |}.

Definition refreshEvents : list Event :=
  [Fire 1%nat; Settle 0%nat (Success JNull); Elapse 5000].

Definition refreshState : State :=
  Eval vm_compute in
    default (initial refreshProps t_start)
      (run (mount refreshProps t_start) refreshEvents).

(** HTTP mode, [refetch()] called twice before any timer fired. *)
Definition debouncedEvents : list Event := [Refetch; Refetch].

Definition debouncedState : State :=
  Eval vm_compute in
    default (initial httpProps t_start)
      (run (mount httpProps t_start) debouncedEvents).

(** HTTP mode, a second call made while the first is in flight. *)
Definition supersededEvents : list Event := [Fire 1%nat; Refetch; Fire 2%nat].

Definition supersededState : State :=
  Eval vm_compute in
    default (initial httpProps t_start)
      (run (mount httpProps t_start) supersededEvents).

(** Socket mode: a message arrives, the connection is lost and made again,
    and the owner goes away. *)
Definition socketEvents : list Event :=
  [WsOpen 0%nat; Render (wsProps 1); WsMessage 0%nat "true"; WsClose 0%nat;
   Elapse 1000; Fire 1%nat; WsOpen 1%nat; SendMessage (JStr "a"); Unmount].

Definition socketEndState : State :=
  Eval vm_compute in
    default (initial (wsProps 1) t_start)
      (run (mount (wsProps 1) t_start) socketEvents).





End MoreExampleStates.

(** * Properties *)

Section Properties.

Context {json : JSON}.

(** ** Runs *)

Lemma run_cons (s : State) (e : Event) (es : list Event) :
  run s (e :: es) = step s e ≫= λ s', run s' es.
Proof. done. Qed.

Lemma run_app (s : State) (es1 es2 : list Event) :
  run s (es1 ++ es2) = run s es1 ≫= λ s', run s' es2.
Proof.
  revert s. induction es1 as [|e es1 IH]; intros s; simpl; [done|].
  destruct (step s e); simpl; [apply IH | done].
Qed.

Lemma reachable_mount (p : Options) (t0 : Z) : reachable (mount p t0).
Proof. by exists p, t0, []. Qed.

Lemma reachable_step (s s' : State) (e : Event) :
  reachable s → step s e = Some s' → reachable s'.
Proof.
  intros (p & t0 & es & Hrun) Hstep. exists p, t0, (es ++ [e]).
  rewrite run_app, Hrun. simpl. by rewrite Hstep.
Qed.

(** A property of the first render that every event preserves holds in
    every reachable state. *)
Lemma reachable_ind (P : State → Prop) :
  (∀ p t0, P (mount p t0)) →
  (∀ s e s', reachable s → P s → step s e = Some s' → P s') →
  ∀ s, reachable s → P s.
Proof.
  intros Hinit Hstep s (p & t0 & es & Hrun).
  revert s Hrun. induction es as [|e es IH] using rev_ind; intros s Hrun.
  - simpl in Hrun. injection Hrun as <-. apply Hinit.
  - rewrite run_app in Hrun.
    destruct (run (mount p t0) es) as [s1|] eqn:H1; simpl in Hrun; [|done].
    destruct (step s1 e) as [s2|] eqn:H2; simpl in Hrun; [|done].
    injection Hrun as <-. eapply Hstep; [| by apply IH | exact H2].
    by exists p, t0, es.
Qed.

(** ** closeWebSocket *)

(** C8. [closeWebSocket()] is idempotent: a second call changes nothing.
    Without a handle it does nothing at all; with the handle of socket [i]
    it closes that socket (it is neither connecting nor open afterwards),
    clears the handle and sets the connection state to closed, and leaves
    every other socket alone. *)
Theorem closeWebSocket_idempotent (s : State) :
  closeWebSocket (closeWebSocket s) = closeWebSocket s
  ∧ (wsRef s = None → closeWebSocket s = s)
  ∧ (∀ i k, wsRef s = Some i → sockets s !! i = Some k →
       wsRef (closeWebSocket s) = None
       ∧ wsState (closeWebSocket s) = Ws_closed
       ∧ (∃ k', sockets (closeWebSocket s) !! i = Some k'
                ∧ readyState k' ≠ CONNECTING ∧ readyState k' ≠ OPEN
                ∧ ws_sent k' = ws_sent k)
       ∧ (∀ j, j ≠ i → sockets (closeWebSocket s) !! j = sockets s !! j)).
Proof.
  split; [|split].
  - unfold closeWebSocket. destruct (wsRef s) as [i|] eqn:Href; simpl; [done|].
    by rewrite Href.
  - intros Href. unfold closeWebSocket. by rewrite Href.
  - intros i k Href Hk. unfold closeWebSocket, wsClose. rewrite Href. simpl.
    repeat split.
    + exists (match readyState k with
              | CONNECTING | OPEN => set_readyState CLOSING k
              | _ => k
              end).
      rewrite list_lookup_alter_eq, Hk. simpl.
      repeat split; destruct (readyState k) eqn:Hr; simpl; try rewrite Hr; done.
    + intros j Hj. by rewrite list_lookup_alter_ne.
Qed.

(** ** Inbound messages *)

(** C6, amended. An inbound message whose payload does not parse, handled
    while the owner is alive: the error message is published, the
    connection state and every other field stay as they were, and the event
    is handled (the failure stays inside the handler).  With the owner gone
    the handler does not read the payload: nothing is published. *)
Theorem onmessage_parse_failure (s : State) (event_data : string) :
  JSON_parse event_data = None →
  (isMounted s = true →
     onmessage event_data s
     = set_error (Some (JStr "Failed to parse WebSocket message")) s
     ∧ error (onmessage event_data s) = Some (JStr "Failed to parse WebSocket message")
     ∧ wsState (onmessage event_data s) = wsState s)
  ∧ (isMounted s = false → onmessage event_data s = s)
  ∧ (∀ i k, sockets s !! i = Some k → readyState k = OPEN →
       step s (WsMessage i event_data) = Some (onmessage event_data s)).
Proof.
  intros Hp. split; [|split].
  - intros Hm. unfold onmessage. by rewrite Hm, Hp.
  - intros Hm. unfold onmessage. by rewrite Hm.
  - intros i k Hk Hr. cbn [step]. by rewrite Hk, bool_decide_eq_true_2.
Qed.

(** ** Reconnecting *)

(** [onopen] sets the counter of its run to zero. *)
Lemma onopen_resets (s : State) (n : nat) (r : Run) :
  runs s !! n = Some r →
  runs (onopen n s) !! n = Some (set_reconnectAttempts 0 r)
  ∧ wsState (onopen n s) = Ws_open.
Proof. intros Hr. unfold onopen. simpl. by rewrite list_lookup_alter_eq, Hr. Qed.

(** A close with the owner alive and the counter below the budget: the
    counter goes up by one and exactly one timer is set, for
    [connectWebSocket], after [1000 * min(counter, 30)]. *)
Lemma onclose_below_budget (s : State) (n : nat) (r : Run) :
  runs s !! n = Some r →
  isMounted s = true →
  reconnectAttempts r < MAX_RECONNECT_ATTEMPTS r →
  let c := reconnectAttempts r + 1 in
  let d := 1000 * Z.min c 30 in
  runs (onclose n s) !! n = Some (set_reconnectAttempts c r)
  ∧ calls (onclose n s) = calls s ++ [SetTimeout (CbConnect n) d]
  ∧ timers (onclose n s)
    = timers s ++ [mkTimer (nextTimer s) d (now s + Z.max 0 d) (CbConnect n)]
  ∧ wsRef (onclose n s) = None
  ∧ wsState (onclose n s) = Ws_closed.
Proof.
  intros Hr Hm Hlt c d. unfold onclose. simpl. rewrite Hr, Hm. simpl.
  assert ((reconnectAttempts r <? MAX_RECONNECT_ATTEMPTS r) = true) as Hb
    by (by apply Z.ltb_lt).
  rewrite Hb. unfold setTimeout. simpl. by rewrite list_lookup_alter_eq, Hr.
Qed.

(** A close with the counter at the budget, or with the owner gone: no
    timer, no reconnect; the handle is cleared and the state is closed. *)
Lemma onclose_budget_spent (s : State) (n : nat) (r : Run) :
  runs s !! n = Some r →
  isMounted s = false ∨ MAX_RECONNECT_ATTEMPTS r ≤ reconnectAttempts r →
  runs (onclose n s) = runs s
  ∧ calls (onclose n s) = calls s
  ∧ timers (onclose n s) = timers s
  ∧ wsRef (onclose n s) = None
  ∧ wsState (onclose n s) = Ws_closed.
Proof.
  intros Hr Hor. unfold onclose. simpl. rewrite Hr.
  assert ((isMounted s && (reconnectAttempts r <? MAX_RECONNECT_ATTEMPTS r)) = false)
    as ->; [|done].
  destruct Hor as [-> | Hle]; [done|].
  apply andb_false_iff. right. by apply Z.ltb_ge.
Qed.

(** ** Cancelling *)

Lemma cancel_published (s : State) :
  data (cancel s) = data s ∧ loading (cancel s) = loading s ∧ error (cancel s) = error s.
Proof.
  unfold cancel, abortCurrent.
  destruct (abortControllerRef s); [destruct (isAborted _ _)|]; done.
Qed.

(** C5, amended. [cancel()] aborts the token of the call in flight and
    changes no published field itself.  When the completion of the cancelled
    attempt is processed, [data] and [error] still hold what they held
    before the cancellation; [loading] is set to false when the owner is
    alive and the attempt still carries the latest identifier, and keeps its
    value otherwise. *)
Theorem cancel_then_completion (s : State) (k : nat) (r : Request) :
  abortControllerRef s = Some k →
  findRequest k s = Some r →
  data (cancel s) = data s ∧ loading (cancel s) = loading s ∧ error (cancel s) = error s
  ∧ isAborted k (cancel s) = true
  ∧ ∃ s', step (cancel s) (Settle k Cancelled) = Some s'
          ∧ data s' = data s
          ∧ error s' = error s
          ∧ loading s' = (if isCurrent (r_requestId r) s then false else loading s).
Proof.
  intros Hk Hr.
  destruct (cancel_published s) as (Hd & Hl & He).
  assert (isAborted k (cancel s) = true) as Hab.
  { unfold cancel, abortCurrent. rewrite Hk.
    destruct (isAborted k s) eqn:Ha; [done|].
    unfold isAborted. simpl. apply bool_decide_eq_true_2. constructor. }
  assert (findRequest k (cancel s) = Some r) as Hr'.
  { unfold cancel, abortCurrent. rewrite Hk. by destruct (isAborted k s). }
  assert (isCurrent (r_requestId r) (dropRequest k (cancel s))
          = isCurrent (r_requestId r) s) as Hc.
  { unfold cancel, abortCurrent. rewrite Hk. by destruct (isAborted k s). }
  repeat split; try done.
  simpl. rewrite Hr'. simpl. rewrite Hab. eexists. split; [done|].
  unfold settle. rewrite Hc.
  destruct (isCurrent (r_requestId r) s); simpl; by rewrite ?Hd, ?Hl, ?He.
Qed.

(** ** Running a scenario

    [run_events] runs [run] one event at a time on a state whose clock and
    props may be symbolic: the handler is evaluated, and the comparisons of
    clock values that remain are settled by [lia]. *)

(** Projections of updated states. *)
Ltac state_simpl :=
  cbn [data loading error wsData wsState wsMessagesQueue isFirst wsRef
       abortControllerRef timeoutRef isMounted latestRequestIdRef fetchDataRef props
       memo flushDeps queueId wsCleanup interval now timers nextTimer aborted
       nextController inflight sockets runs calls set_data set_loading set_error
       set_wsData set_wsState set_wsMessagesQueue set_isFirst set_wsRef
       set_abortControllerRef set_timeoutRef set_isMounted set_latestRequestIdRef
       set_fetchDataRef set_props set_memo set_flushDeps set_queueId set_wsCleanup
       set_interval set_now set_timers set_nextTimer set_aborted set_nextController
       set_inflight set_sockets set_runs set_calls].

Ltac state_simpl_in H :=
  cbn [data loading error wsData wsState wsMessagesQueue isFirst wsRef
       abortControllerRef timeoutRef isMounted latestRequestIdRef fetchDataRef props
       memo flushDeps queueId wsCleanup interval now timers nextTimer aborted
       nextController inflight sockets runs calls set_data set_loading set_error
       set_wsData set_wsState set_wsMessagesQueue set_isFirst set_wsRef
       set_abortControllerRef set_timeoutRef set_isMounted set_latestRequestIdRef
       set_fetchDataRef set_props set_memo set_flushDeps set_queueId set_wsCleanup
       set_interval set_now set_timers set_nextTimer set_aborted set_nextController
       set_inflight set_sockets set_runs set_calls] in H.

Ltac clock_cmp :=
  repeat match goal with
    | |- context [(?a <=? ?b)] =>
        first [ rewrite (proj2 (Z.leb_le a b)) by lia
              | rewrite (proj2 (Z.leb_gt a b)) by lia ]
    | |- context [(?a <? ?b)] =>
        first [ rewrite (proj2 (Z.ltb_lt a b)) by lia
              | rewrite (proj2 (Z.ltb_ge a b)) by lia ]
    | |- context [(?a =? ?b)] =>
        first [ rewrite (proj2 (Z.eqb_eq a b)) by lia
              | rewrite (proj2 (Z.eqb_neq a b)) by lia ]
    end.

Ltac hook_eval :=
  lazy -[run Z.add Z.sub Z.mul Z.leb Z.ltb Z.eqb Z.min Z.max Z.pow].

Ltac run_event := rewrite run_cons; hook_eval; clock_cmp; hook_eval.

Ltac run_events := repeat run_event.

(** The first render in socket mode: no fetch, one run of the socket effect,
    one connecting socket. *)
Ltac mount_socket_mode Hws :=
  unfold mount, autoFetchEffect, socketEffect, refreshEffect;
  cbn [wsUrl autoRefresh autoFetch retry];
  rewrite Hws, andb_false_r, orb_true_r; hook_eval.

(** The first render in HTTP mode with auto fetch: one fetch, no socket;
    the two goals are the hook without and with auto refresh. *)
Ltac mount_http_mode Hws :=
  unfold mount, autoFetchEffect, socketEffect, refreshEffect;
  cbn [wsUrl autoRefresh autoFetch retry];
  rewrite Hws, orb_false_r;
  match goal with |- context [(?a =? 0)] => destruct (a =? 0) end;
  hook_eval.


(** ** Retrying *)

Lemma retryDelay_values : retryDelay 0 = 100 ∧ retryDelay 1 = 200.
Proof. done. Qed.

(** A failed call below the retry budget sets one timer, for
    [fetchData(attempts + 1)], after [retryDelay]; nothing is published but
    the end of loading. *)
Lemma settle_failure_retries (r : Request) (e : Err) (s : State) :
  r_attempts r < retry (cl_props (r_closure r)) →
  calls (settle r (Failure e) s)
  = calls s ++ [SetTimeout (CbRetry (r_closure r) (r_attempts r)) (retryDelay (r_attempts r))]
  ∧ data (settle r (Failure e) s) = data s
  ∧ error (settle r (Failure e) s) = error s.
Proof.
  intros Hlt. unfold settle.
  rewrite (proj2 (Z.ltb_lt _ _) Hlt).
  by destruct (isCurrent _ _).
Qed.

(** A failed call with the budget spent sets no timer; the error is
    published when the owner is alive and the identifier is the latest,
    unless reading it throws. *)
Lemma settle_failure_final (r : Request) (e : Err) (s : State) :
  retry (cl_props (r_closure r)) ≤ r_attempts r →
  calls (settle r (Failure e) s) = calls s
  ∧ timers (settle r (Failure e) s) = timers s
  ∧ data (settle r (Failure e) s) = data s
  ∧ error (settle r (Failure e) s)
    = (if isCurrent (r_requestId r) s
       then match errorMessage e with Some v => Some v | None => error s end
       else error s).
Proof.
  intros Hge. unfold settle.
  rewrite (proj2 (Z.ltb_ge _ _) Hge).
  destruct (isCurrent (r_requestId r) s) eqn:Hc; simpl.
  - destruct (errorMessage e) as [v|].
    + assert (isCurrent (r_requestId r) (set_error (Some v) s) = true) as -> by done.
      done.
    + by rewrite Hc.
  - by rewrite Hc.
Qed.

(** The retry timer calls [fetchData(attempts + 1)] of the same closure,
    and [fetchData] sets the timer of the call with the delay of that
    closure: [debounce], or zero when the closure still sees [isFirst]. *)
Lemma retry_goes_through_fetchData (c : Closure) (a : Z) (s : State) :
  runCallback (CbRetry c a) s = fetchData c (a + 1) s
  ∧ calls (fetchData c (a + 1) s)
    = calls s ++ [SetTimeout (CbFetch c (a + 1) (now s)) (fetchDelay c)]
  ∧ latestRequestIdRef (fetchData c (a + 1) s) = now s.
Proof. simpl. unfold fetchData. destruct (timeoutRef s); simpl; done. Qed.

(** A render whose props changed in the dependencies of [fetchData] only:
    a new callback is memoised, with the [isFirst] of this render, and
    [fetchDataRef] is updated. *)
Lemma render_new_request (p : Options) (s : State) :
  fetchDeps p ≠ fetchDeps (props s) →
  autoFetchDeps p = autoFetchDeps (props s) →
  wsDeps p = wsDeps (props s) →
  refreshDeps p = refreshDeps (props s) →
  render p s
  = set_fetchDataRef (mkClosure p (isFirst s))
      (queueEffect (wsState s) (wsMessagesQueue s) (queueId s)
         (set_props p (set_memo (mkClosure p (isFirst s)) s))).
Proof.
  intros Hf Ha Hw Hr. unfold render.
  by rewrite (bool_decide_eq_false_2 _ Hf), (bool_decide_eq_true_2 _ Ha),
    (bool_decide_eq_true_2 _ Hw), (bool_decide_eq_true_2 _ Hr).
Qed.

(** A render whose props kept every dependency: the memoised callback
    stays, whatever [isFirst] is by now; only the queue effect may run. *)
Lemma render_same_deps (p : Options) (s : State) :
  fetchDeps p = fetchDeps (props s) →
  autoFetchDeps p = autoFetchDeps (props s) →
  wsDeps p = wsDeps (props s) →
  refreshDeps p = refreshDeps (props s) →
  render p s
  = queueEffect (wsState s) (wsMessagesQueue s) (queueId s)
      (set_props p (set_memo (memo s) s)).
Proof.
  intros Hf Ha Hw Hr. unfold render.
  by rewrite (bool_decide_eq_true_2 _ Hf), (bool_decide_eq_true_2 _ Ha),
    (bool_decide_eq_true_2 _ Hw), (bool_decide_eq_true_2 _ Hr).
Qed.

Lemma step_Render (p : Options) (s : State) :
  isMounted s = true → step s (Render p) = Some (render p s).
Proof. intros Hm. simpl. by rewrite Hm. Qed.

Ltac run_render_new_request :=
  rewrite run_cons, step_Render by reflexivity;
  rewrite render_new_request
    by (unfold fetchDeps, autoFetchDeps, wsDeps, refreshDeps; simpl;
        first [reflexivity | intros [=]; by simplify_eq]);
  hook_eval.


(** C2, amended. With [retry = 2] and a transport that fails every call,
    three calls are made in all.  After the first and the second failure
    one timer is set, after [retryDelay = min(100 * 2 ^ attempt, 5000)], that
    is 100 and 200; when it fires, [fetchData(attempt + 1)] runs and sets the
    timer of the next call as every [fetchData] does, with the delay of its
    closure ([debounce], zero for a closure made while [isFirst] held); the
    third failure publishes the error and sets no timer.  The two runs: the
    fetch of the first render, and a fetch asked for by [refetch()] through
    a callback memoised after the first render (the [headers] object
    changed), where every retry waits for [debounce] on top of
    [retryDelay]. *)
Theorem retry_twice_then_error :
  retryDelay 0 = 100 ∧ retryDelay 1 = 200
  ∧ (∀ r e s, r_attempts r < retry (cl_props (r_closure r)) →
       calls (settle r (Failure e) s)
       = calls s ++ [SetTimeout (CbRetry (r_closure r) (r_attempts r))
                       (retryDelay (r_attempts r))])
  ∧ (∀ c a s,
       runCallback (CbRetry c a) s = fetchData c (a + 1) s
       ∧ calls (fetchData c (a + 1) s)
         = calls s ++ [SetTimeout (CbFetch c (a + 1) (now s)) (fetchDelay c)])
  ∧ (∀ p t0 e0 e1 e2,
       truthy (wsUrl p) = false → autoFetch p = true → retry p = 2 →
       let c := mkClosure p true in
       ∃ s,
         run (mount p t0)
           [Fire 1%nat; Settle 0%nat (Failure e0);
            Elapse 100; Fire 2%nat; Fire 3%nat; Settle 1%nat (Failure e1);
            Elapse 200; Fire 4%nat; Fire 5%nat; Settle 2%nat (Failure e2)]
         = Some s
         ∧ calls s
           = [SetTimeout (CbFetch c 0 t0) 0;
              Axios (mkRequest 0 c 0 t0);
              SetTimeout (CbRetry c 0) 100;
              SetTimeout (CbFetch c 1 (t0 + 100)) 0;
              Axios (mkRequest 1 c 1 (t0 + 100));
              SetTimeout (CbRetry c 1) 200;
              SetTimeout (CbFetch c 2 (t0 + 100 + 200)) 0;
              Axios (mkRequest 2 c 2 (t0 + 100 + 200))]
         ∧ error s = errorMessage e2
         ∧ loading s = false
         ∧ timers s = []
         ∧ inflight s = [])
  ∧ (∀ p h t0 e0 e1 e2,
       truthy (wsUrl p) = false → autoFetch p = true → retry p = 2 →
       headers p ≠ Some h →
       let c := mkClosure p true in
       let c' := mkClosure (withHeaders h p) false in
       let w := Z.max 0 (debounce p) in
       ∃ s,
         run (mount p t0)
           [Render (withHeaders h p); Refetch;
            Elapse w; Fire 2%nat; Settle 0%nat (Failure e0);
            Elapse 100; Fire 3%nat;
            Elapse w; Fire 4%nat; Settle 1%nat (Failure e1);
            Elapse 200; Fire 5%nat;
            Elapse w; Fire 6%nat; Settle 2%nat (Failure e2)]
         = Some s
         ∧ calls s
           = [SetTimeout (CbFetch c 0 t0) 0;
              SetTimeout (CbFetch c' 0 t0) (debounce p);
              Axios (mkRequest 0 c' 0 t0);
              SetTimeout (CbRetry c' 0) 100;
              SetTimeout (CbFetch c' 1 (t0 + w + 100)) (debounce p);
              Axios (mkRequest 1 c' 1 (t0 + w + 100));
              SetTimeout (CbRetry c' 1) 200;
              SetTimeout (CbFetch c' 2 (t0 + w + 100 + w + 200)) (debounce p);
              Axios (mkRequest 2 c' 2 (t0 + w + 100 + w + 200))]
         ∧ error s = errorMessage e2
         ∧ loading s = false
         ∧ timers s = []
         ∧ inflight s = []).
Proof.
  split; [done|]. split; [done|]. split; [|split; [|split]].
  - intros r e s Hlt. by apply settle_failure_retries.
  - intros c a s. by destruct (retry_goes_through_fetchData c a s) as (? & ? & _).
  - intros p t0 e0 e1 e2 Hws Hauto Hretry c. subst c.
    destruct p; simpl in Hws, Hauto, Hretry; subst.
    destruct e2; mount_http_mode Hws; run_events;
      (eexists; split; [reflexivity|]; hook_eval; done).
  - intros p h t0 e0 e1 e2 Hws Hauto Hretry Hh c c' w. subst c c' w.
    destruct p; simpl in Hws, Hauto, Hretry, Hh; subst.
    destruct e2; mount_http_mode Hws; run_render_new_request; run_events;
      (eexists; split; [reflexivity|]; hook_eval; done).
Qed.

(** ** What the queue effect sends *)

Lemma set_sockets_id (s : State) : set_sockets (sockets s) s = s.
Proof. by destruct s. Qed.

Lemma set_ws_sent_id (k : Socket) : set_ws_sent (ws_sent k ++ []) k = k.
Proof. destruct k. unfold set_ws_sent. simpl. by rewrite app_nil_r. Qed.

(** Sending the messages of a queue one after the other on socket [i]
    appends their texts, in order, to what that socket was sent, and
    changes nothing else. *)
Lemma foldl_wsSend (i : nat) (queue : list Json) (s : State) :
  foldl (λ s m, wsSend i (JSON_stringify m) s) s queue
  = set_sockets
      (alter (λ k, set_ws_sent (ws_sent k ++ map JSON_stringify queue) k) i (sockets s)) s.
Proof.
  revert s. induction queue as [|m queue IH]; intros s; simpl.
  - rewrite list_alter_id; [by rewrite set_sockets_id|]. apply set_ws_sent_id.
  - rewrite IH. unfold wsSend.
    change (set_sockets ?a (set_sockets ?b s)) with (set_sockets a s).
    cbn [sockets set_sockets]. f_equal.
    rewrite list_alter_alter_eq. apply list_alter_ext; [|done].
    intros k _. unfold set_ws_sent. simpl. by rewrite <- app_assoc.
Qed.

(** ** The memoised callback *)

Ltac unfold_handlers :=
  repeat progress unfold refetch, cancel, fetchData, startRequest, settle, abortCurrent, setTimeout,
    clearTimeout, connectWebSocket, onopen, onerror, onclose, closeWebSocket,
    sendMessage, setWsMessagesQueue, onmessage, wsSend, wsClose, runCallback,
    setSocketState, setSocketClosed, dropRequest, unmount, autoFetchEffect,
    socketEffect, refreshEffect in *.

Ltac split_cases := repeat (simpl; case_match); simpl.


Lemma flushQueue_rendered (ws : WsState) (queue : list Json) (s : State) :
  rendered (flushQueue ws queue s) = rendered s.
Proof.
  unfold flushQueue. split_cases; try done.
  by rewrite foldl_wsSend.
Qed.

Lemma step_rendered (s s' : State) (e : Event) :
  step s e = Some s' →
  (∀ p, e ≠ Render p) →
  rendered s' = rendered s.
Proof.
  intros Hstep Hne. destruct e; cbn [step] in Hstep; try (by destruct (Hne p)).
  all: repeat case_match; simplify_eq; unfold_handlers; split_cases; done.
Qed.

Lemma effects_rendered (p : Options) (ws : WsState) (queue : list Json) (qid : nat)
    (s : State) :
  rendered (closeWebSocket s) = rendered s
  ∧ rendered (queueEffect ws queue qid s) = rendered s
  ∧ rendered (autoFetchEffect p s) = rendered s
  ∧ rendered (socketEffect p s) = rendered s
  ∧ rendered (refreshEffect p s) = rendered s.
Proof.
  repeat split.
  - unfold_handlers. split_cases; done.
  - unfold queueEffect. case_match; [done|].
    change (rendered (set_flushDeps ?d ?x)) with (rendered x).
    apply flushQueue_rendered.
  - unfold_handlers. split_cases; done.
  - unfold_handlers. split_cases; done.
  - unfold_handlers. split_cases; done.
Qed.

(** A render that keeps the dependencies of [useCallback] keeps the
    memoised callback and [fetchDataRef], whatever [isFirst] has become. *)
Lemma render_keeps_callback (p : Options) (s : State) :
  fetchDeps p = fetchDeps (props s) →
  rendered (render p s) = (p, memo s, fetchDataRef s).
Proof.
  intros Hf. unfold render. cbv zeta.
  rewrite (bool_decide_eq_true_2 _ Hf).
  repeat case_match;
    repeat first
      [ rewrite (proj1 (effects_rendered p Ws_open [] 0 _))
      | rewrite (proj1 (proj2 (effects_rendered p _ _ _ _)))
      | rewrite (proj1 (proj2 (proj2 (effects_rendered p Ws_open [] 0 _))))
      | rewrite (proj1 (proj2 (proj2 (proj2 (effects_rendered p Ws_open [] 0 _)))))
      | rewrite (proj2 (proj2 (proj2 (proj2 (effects_rendered p Ws_open [] 0 _)))))
      | progress change (rendered (set_interval ?b ?x)) with (rendered x) ];
    done.
Qed.

Lemma mount_rendered (p : Options) (t0 : Z) :
  rendered (mount p t0) = (p, mkClosure p true, mkClosure p true).
Proof.
  unfold mount, flushQueue. unfold_handlers. split_cases; done.
Qed.


Lemma run_keeps_callback (p : Options) (es : list Event) (s s' : State) :
  Forall (keepsRequest p) es →
  fetchDeps (props s) = fetchDeps p →
  run s es = Some s' →
  memo s' = memo s ∧ fetchDataRef s' = fetchDataRef s
  ∧ fetchDeps (props s') = fetchDeps p.
Proof.
  intros Hes. revert s. induction Hes as [|e es He Hes IH]; intros s Hp Hrun.
  - simpl in Hrun. injection Hrun as <-. done.
  - rewrite run_cons in Hrun.
    destruct (step s e) as [s1|] eqn:Hstep; simpl in Hrun; [|done].
    assert (memo s1 = memo s ∧ fetchDataRef s1 = fetchDataRef s
            ∧ fetchDeps (props s1) = fetchDeps p) as (H1 & H2 & H3).
    { destruct e;
        try (pose proof (step_rendered _ _ _ Hstep ltac:(done)) as Hr;
             unfold rendered in Hr; injection Hr as -> -> ->; done).
      cbn [step] in Hstep; cbn [keepsRequest] in He. destruct (isMounted s); [|done].
      injection Hstep as <-.
      pose proof (render_keeps_callback p0 s) as Hr.
      rewrite He, Hp in Hr. specialize (Hr eq_refl).
      unfold rendered in Hr. injection Hr as -> -> ->. done. }
    destruct (IH s1 H3 Hrun) as (? & ? & ?).
    split; [congruence|]. split; [congruence|done].
Qed.

(** C7, on the code: as long as the props keep the dependencies of
    [fetchData], the callback behind [refetch] is the one of the first
    render, which saw [isFirst = true]; whatever happened before (fetches,
    renders, completions), [refetch()] sets its timer with delay zero, never
    with [debounce], although the state cell [isFirst] is false after it. *)
Theorem refetch_never_debounced (p : Options) (t0 : Z) (es : list Event) (s : State) :
  Forall (keepsRequest p) es →
  run (mount p t0) es = Some s →
  fetchDataRef s = mkClosure p true
  ∧ isFirst (refetch s) = false
  ∧ calls (refetch s) = calls s ++ [SetTimeout (CbFetch (mkClosure p true) 0 (now s)) 0].
Proof.
  intros Hes Hrun.
  pose proof (mount_rendered p t0) as Hm. unfold rendered in Hm.
  injection Hm as Hp Hmemo Href0.
  destruct (run_keeps_callback p es (mount p t0) s Hes) as (_ & Href & _);
    [by rewrite Hp|done|].
  assert (fetchDataRef s = mkClosure p true) as Hc by congruence.
  split; [done|]. unfold refetch. rewrite Hc.
  unfold fetchData. destruct (timeoutRef s); done.
Qed.

(** ** HTTP mode: no socket *)



Lemma mount_noSocket (p : Options) (t0 : Z) :
  truthy (wsUrl p) = false → noSocket (mount p t0).
Proof.
  intros Hws. unfold noSocket, mount, flushQueue, socketEffect.
  rewrite Hws. unfold_handlers. split_cases; done.
Qed.


Lemma noSocket_socketSide (s s' : State) :
  socketSide s' = socketSide s → noSocket s → noSocket s'.
Proof.
  unfold socketSide, noSocket. intros [= -> -> -> -> -> ->]. done.
Qed.

(** The request controller leaves the socket side alone. *)
Lemma request_socketSide (s : State) :
  (∀ c a, socketSide (fetchData c a s) = socketSide s)
  ∧ (∀ c a r, socketSide (startRequest c a r s) = socketSide s)
  ∧ (∀ r o, socketSide (settle r o s) = socketSide s)
  ∧ socketSide (abortCurrent s) = socketSide s
  ∧ (∀ t, socketSide (clearTimeout t s) = socketSide s)
  ∧ (∀ k, socketSide (dropRequest k s) = socketSide s)
  ∧ (∀ d, socketSide (onmessage d s) = socketSide s)
  ∧ (∀ q, socketSide (setWsMessagesQueue q s) = socketSide s).
Proof.
  repeat split; intros; unfold_handlers; unfold isCurrent; split_cases; done.
Qed.

(** Without a handle and without a run of the socket effect, the
    connection controller has nothing to act on. *)
Lemma noSocket_idle (s : State) :
  noSocket s →
  closeWebSocket s = s
  ∧ openHandle s = None
  ∧ (∀ n, connectWebSocket n s = s)
  ∧ (∀ ws queue, flushQueue ws queue s = s)
  ∧ (∀ m, sendMessage m s = setWsMessagesQueue (wsMessagesQueue s ++ [m]) s).
Proof.
  intros (Hruns & Hsock & Href & _).
  assert (openHandle s = None) as Hh by (unfold openHandle; by rewrite Href).
  repeat split; intros.
  - unfold closeWebSocket. by rewrite Href.
  - done.
  - unfold connectWebSocket. by rewrite Href, Hruns.
  - unfold flushQueue. by rewrite Hh.
  - unfold sendMessage. by rewrite Hh.
Qed.

Lemma fetchData_noSocket (c : Closure) (a : Z) (s : State) :
  noSocket s → noSocket (fetchData c a s).
Proof. apply noSocket_socketSide, request_socketSide. Qed.

Lemma render_noSocket (p : Options) (s : State) :
  noSocket s → truthy (wsUrl p) = false → noSocket (render p s).
Proof.
  intros Hno Hp. pose proof Hno as (Hruns & Hsock & Href & Hws & Hcl & Hurl).
  unfold render. cbv zeta.
  set (cb := if bool_decide (fetchDeps p = fetchDeps (props s)) then memo s else _).
  change (wsCleanup (set_props p (set_memo cb s))) with (wsCleanup s). rewrite Hcl.
  clearbody cb.
  assert (∀ b, noSocket (set_interval b (set_props p (set_memo cb s)))) as H0
    by (intros b; unfold noSocket; done).
  assert (noSocket (set_props p (set_memo cb s))) as H0' by (unfold noSocket; done).
  assert (∀ s0, noSocket s0 →
            noSocket (queueEffect (wsState s) (wsMessagesQueue s) (queueId s) s0)) as Hq.
  { intros s0 H. unfold queueEffect. case_match; [done|].
    rewrite (proj1 (proj2 (proj2 (proj2 (noSocket_idle s0 H))))). exact H. }
  assert (∀ s0, noSocket s0 → noSocket (set_fetchDataRef cb s0)) as Hf
    by (intros s0 H; exact H).
  assert (∀ s0, noSocket s0 → noSocket (autoFetchEffect p s0)) as Ha.
  { intros s0 H. unfold autoFetchEffect. case_match; [|done].
    by apply fetchData_noSocket. }
  assert (∀ s0, noSocket s0 → noSocket (socketEffect p s0)) as Hs.
  { intros s0 H. unfold socketEffect. rewrite Hp.
    destruct H as (? & ? & ? & ? & ? & ?). unfold noSocket. done. }
  assert (∀ s0, noSocket s0 → noSocket (refreshEffect p s0)) as Hr.
  { intros s0 H. unfold refreshEffect. case_match; exact H. }
  repeat match goal with
         | |- context [bool_decide ?P] => destruct (bool_decide P)
         end; auto 12.
Qed.

Lemma step_noSocket (s s' : State) (e : Event) :
  noSocket s → keepsHttpMode e → step s e = Some s' → noSocket s'.
Proof.
  intros Hno He Hstep.
  pose proof Hno as (Hruns & Hsock & Href & Hws & Hcl & Hurl).
  destruct (noSocket_idle s Hno) as (Hclose & Hh & Hconn & Hflush & Hsend).
  destruct (request_socketSide s) as (R1 & R2 & R3 & R4 & R5 & R6 & R7 & R8).
  destruct e; cbn [step] in Hstep; cbn [keepsHttpMode] in He.
  - (* Render *)
    destruct (isMounted s); [|done]. injection Hstep as <-.
    apply render_noSocket; [exact Hno|exact He].
  - (* Unmount *)
    destruct (isMounted s); [|done]. injection Hstep as <-.
    unfold unmount. cbv zeta.
    set (s1 := match timeoutRef _ with Some t => _ | None => _ end).
    assert (noSocket s1) as H1.
    { subst s1. case_match.
      - eapply noSocket_socketSide; [apply request_socketSide|].
        eapply noSocket_socketSide; [apply request_socketSide|]. exact Hno.
      - eapply noSocket_socketSide; [apply request_socketSide|]. exact Hno. }
    rewrite (proj1 (noSocket_idle s1 H1)).
    rewrite (proj1 (proj2 (proj2 H1))).
    rewrite (proj1 (proj2 (proj2 (proj2 (proj2 H1))))). exact H1.
  - injection Hstep as <-. unfold refetch. apply fetchData_noSocket, Hno.
  - injection Hstep as <-. unfold cancel.
    eapply noSocket_socketSide; [apply R4|exact Hno].
  - injection Hstep as <-. rewrite Hsend.
    eapply noSocket_socketSide; [apply R8|exact Hno].
  - injection Hstep as <-. rewrite Hclose. exact Hno.
  - destruct (interval s); [|done]. injection Hstep as <-.
    unfold refetch. apply fetchData_noSocket, Hno.
  - destruct (0 <=? dt); [|done]. injection Hstep as <-. exact Hno.
  - (* Fire *)
    destruct (findTimer t s) as [tm|]; [|done].
    destruct (t_due tm <=? now s); [|done]. injection Hstep as <-.
    assert (noSocket (clearTimeout t s)) as H1
      by (eapply noSocket_socketSide; [apply R5|exact Hno]).
    destruct (t_cb tm); cbn [runCallback].
    + eapply noSocket_socketSide; [apply request_socketSide|exact H1].
    + apply fetchData_noSocket, H1.
    + rewrite (proj1 (proj2 (proj2 (noSocket_idle _ H1)))). exact H1.
  - (* Settle *)
    destruct (findRequest k s) as [r|]; [|done].
    destruct (settles k o s); [|done]. injection Hstep as <-.
    eapply noSocket_socketSide; [apply request_socketSide|].
    eapply noSocket_socketSide; [apply R6|exact Hno].
  - by rewrite Hsock in Hstep.
  - by rewrite Hsock in Hstep.
  - by rewrite Hsock in Hstep.
  - by rewrite Hsock in Hstep.
  - by rewrite Hsock in Hstep.
Qed.

(** C9. A hook that is never given a [wsUrl]: the connection state starts
    as connecting and no event ever changes it.  The socket effect returns
    at once (there is no socket and no handle), and [closeWebSocket()]
    changes nothing. *)
Theorem http_mode_stays_connecting (p : Options) (t0 : Z) (es : list Event) (s : State) :
  truthy (wsUrl p) = false →
  Forall keepsHttpMode es →
  run (mount p t0) es = Some s →
  wsState (mount p t0) = Ws_connecting
  ∧ wsState s = Ws_connecting
  ∧ sockets s = []
  ∧ wsRef s = None
  ∧ closeWebSocket s = s.
Proof.
  intros Hws Hes Hrun.
  assert (noSocket s) as (_ & ? & Href & ? & _).
  { pose proof (mount_noSocket p t0 Hws) as Hinit.
    revert Hrun Hinit. generalize (mount p t0).
    induction Hes as [|e es He Hes IH]; intros s0 Hrun Hinit.
    - simpl in Hrun. by simplify_eq.
    - rewrite run_cons in Hrun.
      destruct (step s0 e) as [s1|] eqn:Hstep; simpl in Hrun; [|done].
      eapply IH; [done|]. by eapply step_noSocket. }
  destruct (mount_noSocket p t0 Hws) as (_ & _ & _ & ? & _).
  repeat split; try done.
  unfold closeWebSocket. by rewrite Href.
Qed.

(** ** The pending outbound queue *)

Lemma sendMessage_queues (m : Json) (s : State) :
  openHandle s = None →
  sendMessage m s = setWsMessagesQueue (wsMessagesQueue s ++ [m]) s.
Proof. intros Hh. unfold sendMessage. by rewrite Hh. Qed.



Lemma openHandle_Some (s : State) (i : nat) :
  openHandle s = Some i →
  wsRef s = Some i ∧ ∃ k, sockets s !! i = Some k ∧ readyState k = OPEN.
Proof.
  unfold openHandle. destruct (wsRef s) as [j|]; [|done].
  destruct (sockets s !! j) as [k|] eqn:Hk; [|done].
  case_bool_decide; [|done]. intros [= <-]. eauto.
Qed.








(** ** One connection at a time: the invariant *)

Section Counting.

Context {A : Type} (P : A → Prop) `{!∀ x, Decision (P x)}.

Lemma filter_alter_keep (f : A → A) (i : nat) (l : list A) :
  (∀ x, P (f x) ↔ P x) →
  length (filter P (alter f i l)) = length (filter P l).
Proof.
  intros Hf. revert i. induction l as [|x l IH]; intros i; [done|].
  destruct i as [|i]; cbn [alter list_alter].
  - rewrite !filter_cons. destruct (Hf x).
    repeat case_decide; try done; tauto.
  - rewrite !filter_cons. case_decide; cbn [length]; by rewrite IH.
Qed.

Lemma filter_alter_drop (f : A → A) (i : nat) (l : list A) (x : A) :
  l !! i = Some x → P x → ¬ P (f x) →
  S (length (filter P (alter f i l))) = length (filter P l).
Proof.
  revert i. induction l as [|y l IH]; intros i Hi Hx Hfx; [done|].
  destruct i as [|i]; cbn [alter list_alter].
  - injection Hi as ->.
    rewrite (filter_cons_False P (f x)) by done.
    by rewrite (filter_cons_True P x) by done.
  - rewrite !filter_cons. case_decide; cbn [length]; by rewrite (IH i).
Qed.

Lemma filter_lookup_pos (i : nat) (l : list A) (x : A) :
  l !! i = Some x → P x → (1 ≤ length (filter P l))%nat.
Proof.
  revert i. induction l as [|y l IH]; intros i Hi Hx; [done|].
  rewrite filter_cons. destruct i as [|i].
  - injection Hi as ->. rewrite decide_True by done. cbn [length]. lia.
  - case_decide; cbn [length]; [lia|]. by eapply IH.
Qed.

Lemma filter_two (i j : nat) (l : list A) (x y : A) :
  l !! i = Some x → l !! j = Some y → i ≠ j → P x → P y →
  (2 ≤ length (filter P l))%nat.
Proof.
  revert i j. induction l as [|z l IH]; intros i j Hi Hj Hne Hx Hy; [done|].
  rewrite filter_cons. destruct i as [|i], j as [|j]; [done| | |].
  - injection Hi as ->. rewrite decide_True by done. cbn [length].
    pose proof (filter_lookup_pos j l y Hj Hy). lia.
  - injection Hj as ->. rewrite decide_True by done. cbn [length].
    pose proof (filter_lookup_pos i l x Hi Hx). lia.
  - assert (2 ≤ length (filter P l))%nat by (eapply (IH i j); eauto).
    case_decide; cbn [length]; lia.
Qed.

Lemma filter_filter_length (Q : A → Prop) `{!∀ x, Decision (Q x)} (l : list A) :
  (length (filter P (filter Q l)) ≤ length (filter P l))%nat.
Proof.
  induction l as [|x l IH]; [done|].
  rewrite (filter_cons Q). case_decide.
  - rewrite !filter_cons. case_decide; cbn [length]; lia.
  - rewrite (filter_cons P). case_decide; cbn [length]; lia.
Qed.

End Counting.

Lemma quiet_refl (s : State) : quiet s s.
Proof. by split. Qed.

Lemma quiet_trans (s1 s2 s3 : State) : quiet s1 s2 → quiet s2 s3 → quiet s1 s3.
Proof. intros [H1 H2] [H3 H4]. split; [congruence|lia]. Qed.

Lemma openHandle_view (s s' : State) :
  connectionView s' = connectionView s → openHandle s' = openHandle s.
Proof. unfold connectionView, openHandle. intros [= -> -> _ _ _ _]. done. Qed.

Lemma oneConnection_quiet (s s' : State) :
  quiet s s' → oneConnection s → oneConnection s'.
Proof.
  intros [Hv Hp] [H1 H2 H3 H4 H5 H6].
  pose proof (openHandle_view s s' Hv) as Hh.
  unfold connectionView in Hv. injection Hv as Hs Hr Hw Hq Hi Hf.
  split; unfold liveSockets in *; rewrite ?Hs, ?Hr, ?Hw, ?Hq, ?Hi, ?Hf, ?Hh;
    try assumption.
  lia.
Qed.

Lemma setTimeout_quiet (cb : Callback) (d : Z) (s : State) :
  ¬ isConnect cb → quiet s (setTimeout cb d s).
Proof.
  intros Hcb. split; [done|]. unfold pendingConnects, setTimeout.
  cbn [timers set_calls set_nextTimer set_timers].
  rewrite filter_app, length_app, filter_cons_False, filter_nil by done.
  cbn [length]. lia.
Qed.

Lemma clearTimeout_quiet (t : nat) (s : State) : quiet s (clearTimeout t s).
Proof.
  split; [done|]. unfold pendingConnects, clearTimeout. cbn [timers set_timers].
  apply filter_filter_length.
Qed.

Lemma fetchData_quiet (c : Closure) (a : Z) (s : State) : quiet s (fetchData c a s).
Proof.
  unfold fetchData. cbv zeta.
  set (s1 := match timeoutRef s with Some t => clearTimeout t s | None => s end).
  assert (quiet s s1) as H1
    by (subst s1; destruct (timeoutRef s); [apply clearTimeout_quiet|apply quiet_refl]).
  eapply quiet_trans; [exact H1|].
  eapply quiet_trans; [apply (setTimeout_quiet (CbFetch c a (now s1)) (fetchDelay c)); tauto|].
  by split.
Qed.

Lemma abortCurrent_quiet (s : State) : quiet s (abortCurrent s).
Proof.
  unfold abortCurrent. destruct (abortControllerRef s); [|apply quiet_refl].
  destruct (isAborted _ _); [apply quiet_refl|by split].
Qed.

Lemma startRequest_quiet (c : Closure) (a r : Z) (s : State) :
  quiet s (startRequest c a r s).
Proof.
  unfold startRequest. destruct (negb (isMounted s)); [apply quiet_refl|].
  cbv zeta.
  eapply quiet_trans; [|split; reflexivity].
  eapply quiet_trans; [|apply abortCurrent_quiet]. by split.
Qed.

Lemma settle_quiet (r : Request) (o : Outcome) (s : State) : quiet s (settle r o s).
Proof.
  unfold settle. cbv zeta.
  set (s1 := match o with Success _ => _ | Failure _ => _ | Cancelled => _ end).
  assert (quiet s s1) as H1.
  { subst s1. destruct o.
    - destruct (isCurrent _ _); [by split|apply quiet_refl].
    - destruct (_ <? _); [apply setTimeout_quiet; tauto|].
      destruct (isCurrent _ _); [|apply quiet_refl].
      destruct (errorMessage e); [by split|apply quiet_refl].
    - apply quiet_refl. }
  destruct (isCurrent _ s1); [|exact H1].
  eapply quiet_trans; [exact H1|by split].
Qed.

Lemma onmessage_quiet (d : string) (s : State) : quiet s (onmessage d s).
Proof.
  unfold onmessage. destruct (isMounted s); [|apply quiet_refl].
  destruct (JSON_parse d); by split.
Qed.

Lemma autoFetchEffect_quiet (p : Options) (s : State) : quiet s (autoFetchEffect p s).
Proof.
  unfold autoFetchEffect. destruct (_ && _); [apply fetchData_quiet|apply quiet_refl].
Qed.

Lemma refreshEffect_quiet (p : Options) (s : State) : quiet s (refreshEffect p s).
Proof. unfold refreshEffect. destruct (_ || _); by split. Qed.

Lemma lookup_alter_cases {A : Type} (f : A → A) (i j : nat) (l : list A) (y : A) :
  alter f i l !! j = Some y →
  (j = i ∧ ∃ x, l !! i = Some x ∧ y = f x) ∨ (j ≠ i ∧ l !! j = Some y).
Proof.
  intros Hy. destruct (decide (i = j)) as [<-|Hne].
  - left. split; [done|]. rewrite list_lookup_alter_eq in Hy.
    destruct (l !! i) as [x|]; [|done]. injection Hy as <-. eauto.
  - right. rewrite list_lookup_alter_ne in Hy by done. done.
Qed.

Lemma openHandle_lookup (s : State) (i : nat) (k : Socket) :
  wsRef s = Some i → sockets s !! i = Some k →
  openHandle s = if bool_decide (readyState k = OPEN) then Some i else None.
Proof. intros Hr Hk. unfold openHandle. by rewrite Hr, Hk. Qed.

Lemma openHandle_no_ref (s : State) : wsRef s = None → openHandle s = None.
Proof. intros Hr. unfold openHandle. by rewrite Hr. Qed.

(** Two sockets that have not closed contradict the invariant. *)
Lemma oneConnection_unique (s : State) (i j : nat) (a b : Socket) :
  oneConnection s →
  sockets s !! i = Some a → sockets s !! j = Some b →
  live a → live b → i = j.
Proof.
  intros Hoc Ha Hb La Lb. destruct (decide (i = j)) as [|Hne]; [done|].
  pose proof (filter_two live i j (sockets s) a b Ha Hb Hne La Lb).
  pose proof (oc_count s Hoc). unfold liveSockets in *. lia.
Qed.

(** A change of one socket that keeps its [readyState] and leaves its close
    event pending or raised as it was ([send] does that). *)
Lemma alter_oneConnection (f : Socket → Socket) (i : nat) (s : State) :
  (∀ k, readyState (f k) = readyState k ∧ ws_closeFired (f k) = ws_closeFired k) →
  oneConnection s →
  oneConnection (set_sockets (alter f i (sockets s)) s).
Proof.
  intros Hf [H1 H2 H3 H4 H5 H6].
  assert (∀ j y, alter f i (sockets s) !! j = Some y →
            ∃ x, sockets s !! j = Some x ∧ readyState y = readyState x
                 ∧ (live y ↔ live x)) as Hl.
  { intros j y Hy. destruct (lookup_alter_cases f i j _ y Hy) as [(-> & x & Hx & ->)|[_ Hx]].
    - exists x. destruct (Hf x) as [-> Hc]. unfold live. rewrite Hc. done.
    - exists y. done. }
  assert (∀ j x, sockets s !! j = Some x →
            ∃ y, alter f i (sockets s) !! j = Some y ∧ readyState y = readyState x
                 ∧ (live y ↔ live x)) as Hr.
  { intros j x Hx. destruct (decide (i = j)) as [<-|Hne].
    - exists (f x). rewrite list_lookup_alter_eq, Hx.
      destruct (Hf x) as [-> Hc]. unfold live. rewrite Hc. done.
    - exists x. by rewrite list_lookup_alter_ne. }
  assert (openHandle (set_sockets (alter f i (sockets s)) s) = openHandle s) as Hh.
  { unfold openHandle. cbn [wsRef sockets set_sockets].
    destruct (wsRef s) as [j|]; [|done].
    destruct (sockets s !! j) as [x|] eqn:Hx.
    - destruct (Hr j x Hx) as (y & -> & -> & _). done.
    - destruct (alter f i (sockets s) !! j) as [y|] eqn:Hy; [|done].
      destruct (Hl j y Hy) as (x & Hx' & _). congruence. }
  split; rewrite ?Hh; cbn [sockets wsRef wsState wsMessagesQueue queueId flushDeps
                           set_sockets]; try assumption.
  - unfold liveSockets, pendingConnects in *. cbn [sockets timers set_sockets].
    rewrite filter_alter_keep; [done|].
    intros k. unfold live. by destruct (Hf k) as [_ ->].
  - intros j y Hy Hrs. destruct (Hl j y Hy) as (x & Hx & Hrx & _).
    rewrite Hrx in Hrs. eauto.
  - intros j y Hy Hrs. destruct (Hl j y Hy) as (x & Hx & Hrx & Hlx).
    rewrite Hrx in Hrs. apply Hlx. eauto.
  - intros j Hj. destruct (H4 j Hj) as (x & Hx & Lx).
    destruct (Hr j x Hx) as (y & Hy & _ & Hly). exists y. split; [done|]. by apply Hly.
  - intros Hws. destruct (H6 Hws) as (j & x & Hj & Hx & Hrs).
    destruct (Hr j x Hx) as (y & Hy & Hry & _). exists j, y. by rewrite Hry.
Qed.

Lemma setWsMessagesQueue_oneConnection (q : list Json) (s : State) :
  oneConnection s → oneConnection (setWsMessagesQueue q s).
Proof. intros [H1 H2 H3 H4 H5 H6]. split; assumption. Qed.

Lemma sendMessage_oneConnection (m : Json) (s : State) :
  oneConnection s → oneConnection (sendMessage m s).
Proof.
  intros Hoc. unfold sendMessage. destruct (openHandle s).
  - unfold wsSend. by apply alter_oneConnection.
  - by apply setWsMessagesQueue_oneConnection.
Qed.

Lemma set_flushDeps_oneConnection (d : WsState * nat) (s : State) :
  oneConnection s → oneConnection (set_flushDeps d s).
Proof. intros [H1 H2 H3 H4 H5 H6]. split; assumption. Qed.

Lemma flushQueue_oneConnection (ws : WsState) (queue : list Json) (s : State) :
  oneConnection s → oneConnection (flushQueue ws queue s).
Proof.
  intros Hoc. unfold flushQueue. destruct (openHandle s) as [i|]; [|done].
  destruct (_ && _); [|done]. rewrite foldl_wsSend.
  apply setWsMessagesQueue_oneConnection. by apply alter_oneConnection.
Qed.

(** The queue effect of a render keeps the invariant. *)
Lemma queueEffect_oneConnection (ws : WsState) (queue : list Json) (qid : nat)
    (s : State) :
  oneConnection s → oneConnection (queueEffect ws queue qid s).
Proof.
  intros Hoc. unfold queueEffect. case_bool_decide as Hd; [done|].
  by apply set_flushDeps_oneConnection, flushQueue_oneConnection.
Qed.


Lemma setSocketState_lookup (i j : nat) (v : ReadyState) (s : State) (y : Socket) :
  sockets (setSocketState i v s) !! j = Some y →
  (j = i ∧ readyState y = v ∧ ∃ x, sockets s !! i = Some x ∧ (live y ↔ live x))
  ∨ (j ≠ i ∧ sockets s !! j = Some y).
Proof.
  unfold setSocketState. cbn [sockets set_sockets]. intros Hy.
  destruct (lookup_alter_cases _ i j _ y Hy) as [(-> & x & Hx & ->)|H]; [|by right].
  left. split; [done|]. split; [done|]. exists x. done.
Qed.

Lemma setSocketState_live (i : nat) (v : ReadyState) (s : State) :
  liveSockets (setSocketState i v s) = liveSockets s.
Proof.
  unfold liveSockets, setSocketState. cbn [sockets set_sockets].
  by apply filter_alter_keep.
Qed.

(** The open event. *)
Lemma WsOpen_oneConnection (i : nat) (k : Socket) (s : State) :
  oneConnection s →
  sockets s !! i = Some k → readyState k = CONNECTING →
  oneConnection (onopen (ws_run k) (setSocketState i OPEN s)).
Proof.
  intros Hoc Hk Hr. pose proof Hoc as [H1 H2 H3 H4 H5 H6].
  assert (wsRef s = Some i) as Href by (eapply H2; eauto).
  assert (live k) as Lk by (eapply H3; [done|]; congruence).
  assert (openHandle (onopen (ws_run k) (setSocketState i OPEN s)) = Some i) as Hh.
  { unfold openHandle, onopen, setSocketState.
    cbn [wsRef sockets set_wsState set_runs set_sockets].
    by rewrite Href, list_lookup_alter_eq, Hk. }
  split; rewrite ?Hh; try assumption; try done.
  - rewrite <- (setSocketState_live i OPEN s) in H1. exact H1.
  - intros j y Hy Hrs. change (wsRef s = Some j).
    apply setSocketState_lookup in Hy as [(-> & _)|[_ Hy]]; [done|]. eauto.
  - intros j y Hy Hrs.
    apply setSocketState_lookup in Hy as [(-> & _ & x & Hx & Hl)|[_ Hy]]; [|eauto].
    apply Hl. congruence.
  - intros j Hj. change (wsRef s = Some j) in Hj.
    assert (j = i) as -> by congruence.
    exists (set_readyState OPEN k). split; [|done].
    unfold onopen, setSocketState. cbn [sockets set_wsState set_runs set_sockets].
    by rewrite list_lookup_alter_eq, Hk.
  - intros _. exists i, (set_readyState OPEN k). split; [exact Href|].
    split; [|by left].
    unfold onopen, setSocketState. cbn [sockets set_wsState set_runs set_sockets].
    by rewrite list_lookup_alter_eq, Hk.
Qed.

(** The error event: the socket is closed by then, its close event is
    still to come. *)
Lemma WsError_oneConnection (i : nat) (k : Socket) (s : State) :
  oneConnection s →
  sockets s !! i = Some k → readyState k ≠ CLOSED →
  oneConnection (onerror (setSocketState i CLOSED s)).
Proof.
  intros Hoc Hk Hr. pose proof Hoc as [H1 H2 H3 H4 H5 H6].
  assert (live k) as Lk by eauto.
  split; try assumption; try done.
  - rewrite <- (setSocketState_live i CLOSED s) in H1. exact H1.
  - intros j y Hy Hrs. change (wsRef s = Some j).
    apply setSocketState_lookup in Hy as [(-> & Hc & _)|[_ Hy]]; [|eauto].
    rewrite Hc in Hrs. by destruct Hrs.
  - intros j y Hy Hrs.
    apply setSocketState_lookup in Hy as [(-> & Hc & _)|[_ Hy]]; [done|eauto].
  - intros j Hj. change (wsRef s = Some j) in Hj.
    destruct (H4 j Hj) as (x & Hx & Lx).
    assert (j = i) as -> by (eapply oneConnection_unique; eauto).
    exists (set_readyState CLOSED k). split; [|done].
    unfold onerror, setSocketState. cbn [sockets set_wsState set_sockets].
    by rewrite list_lookup_alter_eq, Hk.
  - intros j Hj. exfalso.
    apply openHandle_Some in Hj as (Hj & y & Hy & Hopen).
    change (wsRef s = Some j) in Hj.
    destruct (H4 j Hj) as (x & Hx & Lx).
    assert (j = i) as -> by (eapply oneConnection_unique; eauto).
    apply setSocketState_lookup in Hy as [(_ & Hc & _)|[Hne _]]; [congruence|done].
Qed.

Lemma setSocketClosed_lookup (i j : nat) (s : State) (y : Socket) :
  sockets (setSocketClosed i s) !! j = Some y →
  (j = i ∧ readyState y = CLOSED) ∨ (j ≠ i ∧ sockets s !! j = Some y).
Proof.
  unfold setSocketClosed. cbn [sockets set_sockets]. intros Hy.
  destruct (lookup_alter_cases _ i j _ y Hy) as [(-> & x & Hx & ->)|H]; [|by right].
  by left.
Qed.

Lemma setSocketClosed_live (i : nat) (k : Socket) (s : State) :
  sockets s !! i = Some k → live k →
  S (liveSockets (setSocketClosed i s)) = liveSockets s.
Proof.
  intros Hk Lk. unfold liveSockets, setSocketClosed. cbn [sockets set_sockets].
  by eapply filter_alter_drop.
Qed.

(** The close event: the handle is cleared, and a reconnect may be
    scheduled. *)
Lemma WsClose_oneConnection (i : nat) (k : Socket) (s : State) :
  oneConnection s →
  sockets s !! i = Some k → ws_closeFired k = false →
  oneConnection (onclose (ws_run k) (setSocketClosed i s)).
Proof.
  intros Hoc Hk Lk. pose proof Hoc as [H1 H2 H3 H4 H5 H6].
  pose proof (setSocketClosed_live i k s Hk Lk) as Hlive.
  set (s' := onclose (ws_run k) (setSocketClosed i s)).
  assert (sockets s' = sockets (setSocketClosed i s)
          ∧ wsRef s' = None ∧ wsState s' = Ws_closed
          ∧ wsMessagesQueue s' = wsMessagesQueue s ∧ queueId s' = queueId s
          ∧ flushDeps s' = flushDeps s
          ∧ (pendingConnects s' ≤ S (pendingConnects s))%nat)
    as (Hs & Hr & Hw & Hq & Hi & Hf & Hp).
  { subst s'. unfold onclose, setSocketClosed. cbv zeta. state_simpl.
    destruct (runs s !! ws_run k) as [r|];
      [|repeat split; unfold pendingConnects; state_simpl; lia].
    destruct (_ && _); [|repeat split; unfold pendingConnects; state_simpl; lia].
    repeat split. unfold pendingConnects, setTimeout. state_simpl.
    rewrite filter_app, length_app, filter_cons_True, filter_nil by exact I.
    cbn [length]. lia. }
  assert (openHandle s' = None) as Hh by (by apply openHandle_no_ref).
  split; rewrite ?Hh, ?Hr, ?Hw, ?Hq, ?Hi, ?Hf; try assumption; try done.
  - unfold liveSockets in *. rewrite Hs. lia.
  - intros j y Hy Hrs. exfalso. rewrite Hs in Hy.
    apply setSocketClosed_lookup in Hy as [[_ Hc]|[Hne Hy]].
    + rewrite Hc in Hrs. by destruct Hrs.
    + assert (live y) as Ly by (eapply H3; [done|]; destruct Hrs; congruence).
      apply Hne. eapply oneConnection_unique; eauto.
  - intros j y Hy Hrs. rewrite Hs in Hy.
    apply setSocketClosed_lookup in Hy as [[_ Hc]|[Hne Hy]]; [done|eauto].
Qed.

(** [closeWebSocket]: the socket starts closing, the handle is cleared. *)
Lemma closeWebSocket_oneConnection (s : State) :
  oneConnection s → oneConnection (closeWebSocket s).
Proof.
  intros Hoc. pose proof Hoc as [H1 H2 H3 H4 H5 H6].
  unfold closeWebSocket. destruct (wsRef s) as [i|] eqn:Href; [|done].
  set (f := λ k, match readyState k with
                 | CONNECTING | OPEN => set_readyState CLOSING k
                 | CLOSING | CLOSED => k
                 end).
  assert (∀ k, (live (f k) ↔ live k)
               ∧ readyState (f k) ≠ CONNECTING ∧ readyState (f k) ≠ OPEN
               ∧ (readyState (f k) ≠ CLOSED → readyState k ≠ CLOSED)) as Hf.
  { intros k. subst f. cbv beta. destruct (readyState k) eqn:Hk; cbn; rewrite ?Hk; done. }
  split; try assumption; try done.
  - unfold liveSockets, pendingConnects in *.
    cbn [sockets timers set_wsState set_wsRef wsClose set_sockets].
    rewrite filter_alter_keep; [done|]. intros k. apply Hf.
  - intros j y Hy Hrs. exfalso.
    cbn [sockets set_wsState set_wsRef wsClose set_sockets] in Hy.
    destruct (lookup_alter_cases _ i j _ y Hy) as [(-> & x & Hx & ->)|[Hne Hy']].
    + destruct (Hf x) as (_ & ? & ? & _). by destruct Hrs.
    + apply Hne. pose proof (H2 j y Hy' Hrs). congruence.
  - intros j y Hy Hrs.
    cbn [sockets set_wsState set_wsRef wsClose set_sockets] in Hy.
    destruct (lookup_alter_cases _ i j _ y Hy) as [(-> & x & Hx & ->)|[Hne Hy']].
    + destruct (Hf x) as (Hl & _ & _ & Hc). apply Hl. eauto.
    + eauto.
Qed.

Lemma find_filter_count (t : nat) (l : list Timer) (tm : Timer) :
  find (λ x, Nat.eqb (t_id x) t) l = Some tm →
  isConnect (t_cb tm) →
  (S (length (filter (λ x, isConnect (t_cb x)) (filter (λ x, t_id x ≠ t) l)))
   ≤ length (filter (λ x, isConnect (t_cb x)) l))%nat.
Proof.
  intros Hfind Hc. induction l as [|x l IH]; [done|].
  cbn [find] in Hfind. destruct (Nat.eqb (t_id x) t) eqn:Heq.
  - injection Hfind as ->. apply Nat.eqb_eq in Heq.
    rewrite (filter_cons_False (λ x, t_id x ≠ t)) by (intros H; by apply H).
    rewrite (filter_cons_True (λ x, isConnect (t_cb x))) by done.
    cbn [length].
    pose proof (filter_filter_length (λ x, isConnect (t_cb x)) (λ x, t_id x ≠ t) l).
    lia.
  - apply Nat.eqb_neq in Heq.
    rewrite (filter_cons_True (λ x, t_id x ≠ t)) by done.
    rewrite !(filter_cons (λ x, isConnect (t_cb x))).
    specialize (IH Hfind). case_decide; cbn [length]; lia.
Qed.

(** A reconnect timer fires: [connectWebSocket] runs. *)
Lemma connect_oneConnection (t n : nat) (tm : Timer) (s : State) :
  oneConnection s →
  findTimer t s = Some tm → t_cb tm = CbConnect n →
  oneConnection (connectWebSocket n (clearTimeout t s)).
Proof.
  intros Hoc Hfind Hcb. pose proof Hoc as [H1 H2 H3 H4 H5 H6].
  assert (S (pendingConnects (clearTimeout t s)) ≤ pendingConnects s)%nat as Hp.
  { unfold pendingConnects, clearTimeout. cbn [timers set_timers].
    apply (find_filter_count t (timers s) tm Hfind). by rewrite Hcb. }
  assert (oneConnection (clearTimeout t s)) as Hoc0
    by (eapply oneConnection_quiet; [apply clearTimeout_quiet|done]).
  unfold connectWebSocket. change (wsRef (clearTimeout t s)) with (wsRef s).
  destruct (wsRef s) as [i|] eqn:Href; [done|].
  change (runs (clearTimeout t s)) with (runs s).
  destruct (runs s !! n) as [r|]; [|done].
  change (sockets (clearTimeout t s)) with (sockets s).
  assert (liveSockets s = 0)%nat as Hl0 by lia.
  set (new := mkSocket (run_wsUrl r) CONNECTING n [] false).
  assert (∀ j y, (sockets s ++ [new]) !! j = Some y →
            sockets s !! j = Some y ∨ (j = length (sockets s) ∧ y = new)) as Hl.
  { intros j y Hy. apply lookup_app_Some in Hy as [Hy|[Hge Hy]]; [by left|right].
    apply list_lookup_singleton_Some in Hy as [Hj ->]. split; [lia|done]. }
  assert (∀ j y, sockets s !! j = Some y → ¬ live y) as Hdead.
  { intros j y Hy Ly. pose proof (filter_lookup_pos live j _ y Hy Ly).
    unfold liveSockets in Hl0. lia. }
  split.
  - unfold liveSockets, pendingConnects, clearTimeout in *. state_simpl.
    state_simpl_in Hp.
    rewrite filter_app, length_app, filter_cons_True, filter_nil by done.
    cbn [length]. lia.
  - cbn [sockets wsRef set_wsRef set_sockets]. intros j y Hy Hrs.
    destruct (Hl j y Hy) as [Hy'|[-> _]]; [|done].
    exfalso. apply (Hdead j y Hy'). eapply H3; [done|]. destruct Hrs; congruence.
  - cbn [sockets set_wsRef set_sockets]. intros j y Hy Hrs.
    destruct (Hl j y Hy) as [Hy'|[_ ->]]; [eauto|done].
  - cbn [sockets wsRef set_wsRef set_sockets]. intros j [= <-].
    exists new. split; [|done]. by apply list_lookup_middle.
  - intros j Hj. exfalso. apply openHandle_Some in Hj as (Hj & y & Hy & Hopen).
    cbn [sockets wsRef set_wsRef set_sockets] in Hj, Hy. injection Hj as <-.
    rewrite list_lookup_middle in Hy by done. injection Hy as <-. done.
  - cbn [wsState set_wsRef set_sockets clearTimeout set_timers]. intros Hws.
    destruct (H6 Hws) as (j & x & Hj & _). done.
Qed.

(** The server starts the closing handshake: the socket behind the handle
    is closing, the state stays as it is. *)
Lemma WsClosing_oneConnection (i : nat) (k : Socket) (s : State) :
  oneConnection s →
  sockets s !! i = Some k → readyState k = OPEN →
  oneConnection (setSocketState i CLOSING s).
Proof.
  intros Hoc Hk Hr. pose proof Hoc as [H1 H2 H3 H4 H5 H6].
  assert (wsRef s = Some i) as Href by (eapply H2; eauto).
  assert (live k) as Lk by (eapply H3; [done|]; congruence).
  assert (sockets (setSocketState i CLOSING s) !! i = Some (set_readyState CLOSING k))
    as Hi.
  { unfold setSocketState. cbn [sockets set_sockets].
    by rewrite list_lookup_alter_eq, Hk. }
  split.
  - rewrite setSocketState_live. exact H1.
  - intros j y Hy Hrs. change (wsRef s = Some j).
    apply setSocketState_lookup in Hy as [(-> & Hc & _)|[_ Hy]]; [|eauto].
    rewrite Hc in Hrs. by destruct Hrs.
  - intros j y Hy Hrs.
    apply setSocketState_lookup in Hy as [(-> & _ & x & Hx & Hl)|[_ Hy]]; [|eauto].
    apply Hl. congruence.
  - intros j Hj. change (wsRef s = Some j) in Hj.
    assert (j = i) as -> by congruence.
    exists (set_readyState CLOSING k). split; [exact Hi|done].
  - intros j Hj. exfalso.
    apply openHandle_Some in Hj as (Hj & y & Hy & Hopen).
    change (wsRef s = Some j) in Hj.
    assert (j = i) as -> by congruence.
    rewrite Hi in Hy. injection Hy as <-. done.
  - intros _. exists i, (set_readyState CLOSING k). split; [exact Href|].
    split; [exact Hi|by right].
Qed.

Lemma effects_props (p : Options) (ws : WsState) (queue : list Json) (qid : nat)
    (s : State) :
  props (closeWebSocket s) = props s
  ∧ props (queueEffect ws queue qid s) = props s
  ∧ props (autoFetchEffect p s) = props s
  ∧ props (socketEffect p s) = props s
  ∧ props (refreshEffect p s) = props s.
Proof.
  destruct (effects_rendered p ws queue qid s) as (H1 & H2 & H3 & H4 & H5).
  unfold rendered in *. repeat split; congruence.
Qed.

(** After a render the props are those of the render. *)
Lemma render_props (p : Options) (s : State) : props (render p s) = p.
Proof.
  unfold render. cbv zeta.
  repeat match goal with
         | |- context [bool_decide ?P] => destruct (bool_decide P)
         | |- context [wsCleanup ?x] => destruct (wsCleanup x)
         end;
    repeat first
      [ rewrite (proj1 (effects_props p Ws_open [] 0 _))
      | rewrite (proj1 (proj2 (effects_props p _ _ _ _)))
      | rewrite (proj1 (proj2 (proj2 (effects_props p Ws_open [] 0 _))))
      | rewrite (proj1 (proj2 (proj2 (proj2 (effects_props p Ws_open [] 0 _)))))
      | rewrite (proj2 (proj2 (proj2 (proj2 (effects_props p Ws_open [] 0 _)))))
      | progress state_simpl ];
    reflexivity.
Qed.

Lemma mount_props (p : Options) (t0 : Z) : props (mount p t0) = p.
Proof. pose proof (mount_rendered p t0) as H. unfold rendered in H. congruence. Qed.

(** The first render leaves one connecting socket behind the handle, or none. *)
Lemma mount_oneConnection (p : Options) (t0 : Z) : oneConnection (mount p t0).
Proof.
  destruct p. unfold mount, autoFetchEffect, socketEffect, refreshEffect.
  cbn [wsUrl autoRefresh autoFetch retry].
  destruct (truthy wsUrl0); destruct autoFetch0; destruct (autoRefresh0 =? 0);
    hook_eval; (split; hook_eval; try done; try lia;
                try (by intros [|[|?]] ? [=]); try (by intros ? [=])).
  all: try (intros [|[|?]] ? [= <-]; done).
  all: try (intros [|?] [=]; eauto).
Qed.

(** A render that keeps the dependencies of the socket effect. *)
Lemma render_oneConnection (p : Options) (s : State) :
  wsDeps p = wsDeps (props s) →
  oneConnection s → oneConnection (render p s).
Proof.
  intros Hw Hoc. unfold render. cbv zeta.
  rewrite (bool_decide_eq_true_2 _ Hw).
  set (cb := if bool_decide (fetchDeps p = fetchDeps (props s)) then memo s else _).
  clearbody cb.
  assert (oneConnection (set_props p (set_memo cb s))) as H0
    by (eapply oneConnection_quiet; [|exact Hoc]; by split).
  assert (∀ s0, oneConnection s0 → oneConnection (set_interval false s0)) as Hi
    by (intros s0 H; eapply oneConnection_quiet; [|exact H]; by split).
  assert (∀ s0, oneConnection s0 → oneConnection (set_fetchDataRef cb s0)) as Hf
    by (intros s0 H; eapply oneConnection_quiet; [|exact H]; by split).
  assert (∀ s0, oneConnection s0 → oneConnection (autoFetchEffect p s0)) as Ha
    by (intros s0 H; eapply oneConnection_quiet; [apply autoFetchEffect_quiet|exact H]).
  assert (∀ s0, oneConnection s0 → oneConnection (refreshEffect p s0)) as Hr
    by (intros s0 H; eapply oneConnection_quiet; [apply refreshEffect_quiet|exact H]).
  repeat match goal with
         | |- context [bool_decide ?P] => destruct (bool_decide P)
         end;
    repeat first [apply Hr | apply Ha | apply Hf];
    apply queueEffect_oneConnection; repeat first [apply Hi | exact H0].
Qed.

Lemma closeWebSocket_no_ref (s : State) : wsRef (closeWebSocket s) = None.
Proof. unfold closeWebSocket. by destruct (wsRef s) eqn:H. Qed.

Lemma unmount_oneConnection (s : State) : oneConnection s → oneConnection (unmount s).
Proof.
  intros Hoc. unfold unmount. cbv zeta.
  set (s1 := match timeoutRef _ with Some t => _ | None => _ end).
  assert (oneConnection s1) as H1.
  { eapply oneConnection_quiet; [|exact Hoc]. subst s1.
    assert (quiet s (abortCurrent (set_isMounted false s))) as Ha.
    { eapply quiet_trans; [|apply abortCurrent_quiet]. by split. }
    destruct (timeoutRef _); [|exact Ha].
    eapply quiet_trans; [exact Ha|apply clearTimeout_quiet]. }
  rewrite closeWebSocket_no_ref.
  apply closeWebSocket_oneConnection in H1.
  set (s2 := if wsCleanup _ then _ else _).
  assert (oneConnection s2) as H2
    by (subst s2; destruct (wsCleanup _);
        [by apply closeWebSocket_oneConnection|exact H1]).
  eapply oneConnection_quiet; [|exact H2]. by split.
Qed.

(** Every event keeps the invariant, as long as a render does not change
    the dependencies of the socket effect. *)
Lemma step_oneConnection (s s' : State) (e : Event) :
  oneConnection s →
  (∀ p, e = Render p → wsDeps p = wsDeps (props s)) →
  step s e = Some s' →
  oneConnection s'.
Proof.
  intros Hoc He Hstep. destruct e; cbn [step] in Hstep.
  - destruct (isMounted s); [|done]. injection Hstep as <-.
    apply render_oneConnection; [by apply He|exact Hoc].
  - destruct (isMounted s); [|done]. injection Hstep as <-.
    apply unmount_oneConnection, Hoc.
  - injection Hstep as <-. unfold refetch.
    eapply oneConnection_quiet; [apply fetchData_quiet|exact Hoc].
  - injection Hstep as <-. unfold cancel.
    eapply oneConnection_quiet; [apply abortCurrent_quiet|exact Hoc].
  - injection Hstep as <-. apply sendMessage_oneConnection, Hoc.
  - injection Hstep as <-. apply closeWebSocket_oneConnection, Hoc.
  - destruct (interval s); [|done]. injection Hstep as <-. unfold refetch.
    eapply oneConnection_quiet; [apply fetchData_quiet|exact Hoc].
  - destruct (0 <=? dt); [|done]. injection Hstep as <-.
    eapply oneConnection_quiet; [|exact Hoc]. split; reflexivity.
  - destruct (findTimer t s) as [tm|] eqn:Hfind; [|done].
    destruct (t_due tm <=? now s); [|done]. injection Hstep as <-.
    destruct (t_cb tm) eqn:Hcb; cbn [runCallback].
    + eapply oneConnection_quiet; [|exact Hoc].
      eapply quiet_trans; [apply clearTimeout_quiet|apply startRequest_quiet].
    + eapply oneConnection_quiet; [|exact Hoc].
      eapply quiet_trans; [apply clearTimeout_quiet|apply fetchData_quiet].
    + eapply connect_oneConnection; [exact Hoc|exact Hfind|exact Hcb].
  - destruct (findRequest k s) as [r|]; [|done].
    destruct (settles k o s); [|done]. injection Hstep as <-.
    eapply oneConnection_quiet; [|exact Hoc].
    eapply quiet_trans; [|apply settle_quiet]. split; reflexivity.
  - destruct (sockets s !! i) as [k|] eqn:Hk; [|done].
    case_bool_decide as Hr; [|done]. injection Hstep as <-.
    apply WsOpen_oneConnection; [exact Hoc|exact Hk|exact Hr].
  - destruct (sockets s !! i) as [k|] eqn:Hk; [|done].
    case_bool_decide; [|done]. injection Hstep as <-.
    eapply oneConnection_quiet; [apply onmessage_quiet|exact Hoc].
  - destruct (sockets s !! i) as [k|] eqn:Hk; [|done].
    case_bool_decide as Hr; [done|]. injection Hstep as <-.
    eapply WsError_oneConnection; [exact Hoc|exact Hk|exact Hr].
  - destruct (sockets s !! i) as [k|] eqn:Hk; [|done].
    destruct (ws_closeFired k) eqn:Hc; [done|]. injection Hstep as <-.
    apply WsClose_oneConnection; [exact Hoc|exact Hk|exact Hc].
  - destruct (sockets s !! i) as [k|] eqn:Hk; [|done].
    case_bool_decide as Hr; [|done]. injection Hstep as <-.
    eapply WsClosing_oneConnection; [exact Hoc|exact Hk|exact Hr].
Qed.

Lemma step_props (s s' : State) (e : Event) :
  step s e = Some s' →
  props s' = match e with Render p => p | _ => props s end.
Proof.
  intros Hstep. destruct e;
    try (pose proof (step_rendered _ _ _ Hstep ltac:(done)) as Hr;
         unfold rendered in Hr; congruence).
  cbn [step] in Hstep. destruct (isMounted s); [|done]. injection Hstep as <-.
  apply render_props.
Qed.

(** The invariant holds in every state of a hook whose socket props do
    not change. *)
Lemma run_oneConnection (p : Options) (es : list Event) (s s' : State) :
  Forall (keepsSocket p) es →
  wsDeps (props s) = wsDeps p →
  oneConnection s →
  run s es = Some s' →
  oneConnection s' ∧ wsDeps (props s') = wsDeps p.
Proof.
  intros Hes. revert s. induction Hes as [|e es He Hes IH]; intros s Hp Hoc Hrun.
  - cbn [run] in Hrun. injection Hrun as <-. done.
  - rewrite run_cons in Hrun.
    destruct (step s e) as [s1|] eqn:Hstep; [|done]. cbn in Hrun.
    apply (IH s1); [| |done].
    + rewrite (step_props _ _ _ Hstep). destruct e; try done.
    + eapply step_oneConnection; [done| |done].
      intros p0 ->. cbn [keepsSocket] in He. congruence.
Qed.

Lemma flushQueue_view (ws : WsState) (queue : list Json) (s s' : State) :
  connectionView s' = connectionView s →
  connectionView (flushQueue ws queue s') = connectionView (flushQueue ws queue s).
Proof.
  intros Hv. pose proof (openHandle_view s s' Hv) as Hh.
  unfold flushQueue. rewrite Hh. destruct (openHandle s) as [i|]; [|exact Hv].
  destruct (_ && _); [|exact Hv]. rewrite !foldl_wsSend.
  unfold connectionView, setWsMessagesQueue in *. state_simpl.
  injection Hv as H1 H2 H3 H4 H5 H6. by rewrite H1, H2, H3, H5, H6.
Qed.

Lemma queueEffect_view (ws : WsState) (queue : list Json) (qid : nat) (s s' : State) :
  connectionView s' = connectionView s →
  connectionView (queueEffect ws queue qid s')
  = connectionView (queueEffect ws queue qid s).
Proof.
  intros Hv. unfold queueEffect.
  assert (flushDeps s' = flushDeps s) as -> by (unfold connectionView in Hv; congruence).
  case_bool_decide; [exact Hv|].
  pose proof (flushQueue_view ws queue s s' Hv) as Hf.
  unfold connectionView in *. state_simpl. congruence.
Qed.

(** A render that keeps the dependencies of the socket effect acts on the
    connection through its queue effect only. *)
Lemma render_connectionView (p : Options) (s : State) :
  wsDeps p = wsDeps (props s) →
  connectionView (render p s)
  = connectionView (queueEffect (wsState s) (wsMessagesQueue s) (queueId s) s).
Proof.
  intros Hw. unfold render. cbv zeta. rewrite (bool_decide_eq_true_2 _ Hw).
  set (cb := if bool_decide (fetchDeps p = fetchDeps (props s)) then memo s else _).
  clearbody cb.
  assert (∀ s0, connectionView (autoFetchEffect p s0) = connectionView s0) as Ha
    by (intros s0; apply autoFetchEffect_quiet).
  assert (∀ s0, connectionView (refreshEffect p s0) = connectionView s0) as Hr
    by (intros s0; apply refreshEffect_quiet).
  repeat match goal with
         | |- context [bool_decide ?P] => destruct (bool_decide P)
         end;
    rewrite ?Hr, ?Ha;
    change (connectionView (set_fetchDataRef cb ?x)) with (connectionView x);
    by apply queueEffect_view.
Qed.

(** ** When the queue is flushed *)


(** A render with the state open and a queue that is not empty sends
    nothing when no open socket is behind the handle, or when the queue
    effect has seen this state and this queue already. *)
Lemma render_keeps_queue (s : State) (p : Options) :
  wsDeps p = wsDeps (props s) →
  openHandle s = None ∨ flushDeps s = (wsState s, queueId s) →
  wsMessagesQueue (render p s) = wsMessagesQueue s
  ∧ sockets (render p s) = sockets s.
Proof.
  intros Hw Hor.
  pose proof (render_connectionView p s Hw) as Hv.
  assert (connectionView
            (queueEffect (wsState s) (wsMessagesQueue s) (queueId s) s)
          = (sockets s, wsRef s, wsState s, wsMessagesQueue s, queueId s,
             (wsState s, queueId s))) as Heff.
  { unfold queueEffect. case_bool_decide as Hd.
    - unfold connectionView. by rewrite <- Hd.
    - destruct Hor as [Hh|Hf]; [|congruence].
      unfold flushQueue. by rewrite Hh. }
  rewrite Heff in Hv. unfold connectionView in Hv. by injection Hv.
Qed.

(** ** Nothing leaves the queue unsent *)


















(** ** Closing keeps the queue *)







(** ** The budget of the one run *)

Lemma singleRun_ext (u : string) (b : Z) (s s' : State) :
  runs s' = runs s → sockets s' = sockets s →
  singleRun u b s → singleRun u b s'.
Proof. unfold singleRun. by intros -> ->. Qed.

Lemma singleRun_quiet (u : string) (b : Z) (s s' : State) :
  runs s' = runs s → quiet s s' → singleRun u b s → singleRun u b s'.
Proof.
  intros Hr [Hv _]. apply singleRun_ext; [done|].
  unfold connectionView in Hv. congruence.
Qed.

Lemma request_runs (s : State) :
  (∀ c a, runs (fetchData c a s) = runs s)
  ∧ (∀ c a r, runs (startRequest c a r s) = runs s)
  ∧ (∀ r o, runs (settle r o s) = runs s)
  ∧ runs (abortCurrent s) = runs s
  ∧ (∀ t, runs (clearTimeout t s) = runs s)
  ∧ (∀ d, runs (onmessage d s) = runs s)
  ∧ (∀ p, runs (autoFetchEffect p s) = runs s)
  ∧ (∀ p, runs (refreshEffect p s) = runs s).
Proof.
  repeat split; intros; unfold_handlers; unfold isCurrent; split_cases; done.
Qed.

Lemma alter_singleRun (f : Socket → Socket) (i : nat) (u : string) (b : Z)
    (s : State) :
  (∀ k, ws_run (f k) = ws_run k) →
  singleRun u b s → singleRun u b (set_sockets (alter f i (sockets s)) s).
Proof.
  intros Hf [Hr Hs]. split; [done|]. state_simpl.
  apply Forall_alter; [done|]. intros k _. by rewrite Hf.
Qed.

Lemma counter_singleRun (c : Z) (n : nat) (u : string) (b : Z) (s : State) :
  singleRun u b s →
  singleRun u b (set_runs (alter (set_reconnectAttempts c) n (runs s)) s).
Proof.
  intros [[c0 Hr] Hs]. split; [|done]. state_simpl. rewrite Hr.
  destruct n; [by exists c|by exists c0].
Qed.

Lemma onopen_singleRun (n : nat) (u : string) (b : Z) (s : State) :
  singleRun u b s → singleRun u b (onopen n s).
Proof.
  intros H. unfold onopen.
  eapply singleRun_ext; [| |apply (counter_singleRun 0 n), H]; done.
Qed.

Lemma onclose_singleRun (n : nat) (u : string) (b : Z) (s : State) :
  singleRun u b s → singleRun u b (onclose n s).
Proof.
  intros H. unfold onclose. cbv zeta. state_simpl.
  destruct (runs s !! n) as [r|]; [|by eapply singleRun_ext; [| |exact H]].
  destruct (_ && _); [|by eapply singleRun_ext; [| |exact H]].
  eapply singleRun_ext;
    [| |apply (counter_singleRun (reconnectAttempts r + 1) n), H]; done.
Qed.

Lemma wsClose_singleRun (i : nat) (u : string) (b : Z) (s : State) :
  singleRun u b s → singleRun u b (wsClose i s).
Proof.
  unfold wsClose. apply alter_singleRun. intros k. by destruct (readyState k).
Qed.

Lemma closeWebSocket_singleRun (u : string) (b : Z) (s : State) :
  singleRun u b s → singleRun u b (closeWebSocket s).
Proof.
  intros H. unfold closeWebSocket. destruct (wsRef s) as [i|]; [|exact H].
  eapply singleRun_ext; [| |apply (wsClose_singleRun i), H]; done.
Qed.

(** A reconnect opens its socket for the one run. *)
Lemma connectWebSocket_singleRun (n : nat) (u : string) (b : Z) (s : State) :
  singleRun u b s → singleRun u b (connectWebSocket n s).
Proof.
  intros H. unfold connectWebSocket. destruct (wsRef s); [exact H|].
  destruct (runs s !! n) as [r|] eqn:Hn; [|exact H].
  destruct H as [[c Hr] Hs]. rewrite Hr in Hn.
  destruct n as [|n]; [|done]. split; [by exists c|]. state_simpl.
  apply Forall_app. split; [exact Hs|]. by constructor.
Qed.

Lemma flushQueue_singleRun (ws : WsState) (q : list Json) (u : string) (b : Z)
    (s : State) :
  singleRun u b s → singleRun u b (flushQueue ws q s).
Proof.
  intros H. unfold flushQueue. destruct (openHandle s) as [i|]; [|exact H].
  destruct (_ && _); [|exact H]. rewrite foldl_wsSend.
  eapply singleRun_ext; [| |eapply (alter_singleRun _ i), H]; done.
Qed.

Lemma queueEffect_singleRun (ws : WsState) (q : list Json) (qid : nat)
    (u : string) (b : Z) (s : State) :
  singleRun u b s → singleRun u b (queueEffect ws q qid s).
Proof.
  intros H. unfold queueEffect. case_bool_decide; [exact H|].
  eapply singleRun_ext; [| |apply (flushQueue_singleRun ws q), H]; done.
Qed.

Lemma render_singleRun (p : Options) (u : string) (b : Z) (s : State) :
  wsDeps p = wsDeps (props s) →
  singleRun u b s → singleRun u b (render p s).
Proof.
  intros Hw H. unfold render. cbv zeta.
  rewrite (bool_decide_eq_true_2 _ Hw).
  set (cb := if bool_decide (fetchDeps p = fetchDeps (props s)) then memo s else _).
  clearbody cb.
  assert (singleRun u b (set_props p (set_memo cb s))) as H0 by exact H.
  assert (∀ s0, singleRun u b s0 → singleRun u b (set_interval false s0)) as Hi
    by (intros s0 Hs; exact Hs).
  assert (∀ s0, singleRun u b s0 → singleRun u b (set_fetchDataRef cb s0)) as Hf
    by (intros s0 Hs; exact Hs).
  assert (∀ s0, singleRun u b s0 → singleRun u b (autoFetchEffect p s0)) as Ha
    by (intros s0 Hs; eapply singleRun_quiet;
        [apply request_runs|apply autoFetchEffect_quiet|exact Hs]).
  assert (∀ s0, singleRun u b s0 → singleRun u b (refreshEffect p s0)) as Hr
    by (intros s0 Hs; eapply singleRun_quiet;
        [apply request_runs|apply refreshEffect_quiet|exact Hs]).
  repeat match goal with
         | |- context [bool_decide ?P] => destruct (bool_decide P)
         end;
    repeat first [apply Hr | apply Ha | apply Hf];
    try apply queueEffect_singleRun; exact H.
Qed.

Lemma unmount_singleRun (u : string) (b : Z) (s : State) :
  singleRun u b s → singleRun u b (unmount s).
Proof.
  intros H. unfold unmount. cbv zeta.
  set (s1 := match timeoutRef _ with Some t => _ | None => _ end).
  assert (singleRun u b s1) as H1.
  { subst s1.
    assert (singleRun u b (abortCurrent (set_isMounted false s))) as Ha
      by (eapply singleRun_quiet;
          [apply request_runs|apply abortCurrent_quiet|exact H]).
    destruct (timeoutRef _); [|exact Ha].
    eapply singleRun_quiet; [apply request_runs|apply clearTimeout_quiet|exact Ha]. }
  rewrite closeWebSocket_no_ref.
  apply closeWebSocket_singleRun in H1.
  set (s2 := if wsCleanup _ then _ else _).
  assert (singleRun u b s2) as H2
    by (subst s2; destruct (wsCleanup _);
        [by apply closeWebSocket_singleRun|exact H1]).
  exact H2.
Qed.

Lemma sendMessage_singleRun (m : Json) (u : string) (b : Z) (s : State) :
  singleRun u b s → singleRun u b (sendMessage m s).
Proof.
  intros H. unfold sendMessage. destruct (openHandle s) as [i|]; [|exact H].
  unfold wsSend. by apply alter_singleRun.
Qed.

Lemma step_singleRun (u : string) (b : Z) (s s' : State) (e : Event) :
  singleRun u b s →
  (∀ p, e = Render p → wsDeps p = wsDeps (props s)) →
  step s e = Some s' →
  singleRun u b s'.
Proof.
  intros H He Hstep.
  destruct (request_runs s) as (R1 & R2 & R3 & R4 & R5 & R6 & _).
  destruct e; cbn [step] in Hstep.
  - destruct (isMounted s); [|done]. injection Hstep as <-.
    apply render_singleRun; [by apply He|exact H].
  - destruct (isMounted s); [|done]. injection Hstep as <-.
    apply unmount_singleRun, H.
  - injection Hstep as <-. unfold refetch.
    eapply singleRun_quiet; [apply R1|apply fetchData_quiet|exact H].
  - injection Hstep as <-. unfold cancel.
    eapply singleRun_quiet; [apply R4|apply abortCurrent_quiet|exact H].
  - injection Hstep as <-. apply sendMessage_singleRun, H.
  - injection Hstep as <-. apply closeWebSocket_singleRun, H.
  - destruct (interval s); [|done]. injection Hstep as <-. unfold refetch.
    eapply singleRun_quiet; [apply R1|apply fetchData_quiet|exact H].
  - destruct (0 <=? dt); [|done]. injection Hstep as <-. exact H.
  - destruct (findTimer t s) as [tm|]; [|done].
    destruct (t_due tm <=? now s); [|done]. injection Hstep as <-.
    assert (singleRun u b (clearTimeout t s)) as H1
      by (eapply singleRun_quiet; [apply R5|apply clearTimeout_quiet|exact H]).
    destruct (t_cb tm); cbn [runCallback].
    + eapply singleRun_quiet;
        [apply request_runs|apply startRequest_quiet|exact H1].
    + eapply singleRun_quiet;
        [apply request_runs|apply fetchData_quiet|exact H1].
    + apply connectWebSocket_singleRun, H1.
  - destruct (findRequest k s) as [r|]; [|done].
    destruct (settles k o s); [|done]. injection Hstep as <-.
    eapply singleRun_quiet; [apply request_runs|apply settle_quiet|exact H].
  - destruct (sockets s !! i) as [k|]; [|done].
    case_bool_decide; [|done]. injection Hstep as <-.
    apply onopen_singleRun. unfold setSocketState. by apply alter_singleRun.
  - destruct (sockets s !! i) as [k|]; [|done].
    case_bool_decide; [|done]. injection Hstep as <-.
    eapply singleRun_quiet; [apply R6|apply onmessage_quiet|exact H].
  - destruct (sockets s !! i) as [k|]; [|done].
    case_bool_decide; [done|]. injection Hstep as <-.
    unfold onerror.
    eapply singleRun_ext;
      [| |apply (alter_singleRun (set_readyState CLOSED) i), H]; done.
  - destruct (sockets s !! i) as [k|]; [|done].
    destruct (ws_closeFired k); [done|]. injection Hstep as <-.
    apply onclose_singleRun. unfold setSocketClosed. by apply alter_singleRun.
  - destruct (sockets s !! i) as [k|]; [|done].
    case_bool_decide; [|done]. injection Hstep as <-.
    unfold setSocketState. by apply alter_singleRun.
Qed.

Lemma run_singleRun (p : Options) (u : string) (b : Z) (es : list Event)
    (s s' : State) :
  Forall (keepsSocket p) es →
  wsDeps (props s) = wsDeps p →
  singleRun u b s →
  run s es = Some s' →
  singleRun u b s'.
Proof.
  intros Hes. revert s. induction Hes as [|e es He Hes IH]; intros s Hp H Hrun.
  - cbn [run] in Hrun. by injection Hrun as <-.
  - rewrite run_cons in Hrun.
    destruct (step s e) as [s1|] eqn:Hstep; [|done]. cbn in Hrun.
    apply (IH s1); [| |done].
    + rewrite (step_props _ _ _ Hstep). destruct e; try done.
    + eapply step_singleRun; [done| |done].
      intros p0 ->. cbn [keepsSocket] in He. congruence.
Qed.

(** The socket effect starts a run with the budget [retry * 2] and the
    counter at zero. *)
Lemma socketEffect_runs (p : Options) (s : State) :
  truthy (wsUrl p) = true →
  runs (socketEffect p s)
  = runs s ++ [mkRun (default "" (wsUrl p)) (retry p * 2) 0].
Proof.
  intros Hws. unfold socketEffect. rewrite Hws. cbv zeta. state_simpl.
  unfold connectWebSocket. destruct (wsRef _); [done|].
  by destruct (_ !! _).
Qed.

Lemma mount_singleRun (p : Options) (t0 : Z) :
  truthy (wsUrl p) = true →
  singleRun (default "" (wsUrl p)) (retry p * 2) (mount p t0).
Proof.
  intros Hws. destruct p; simpl in Hws. mount_socket_mode Hws.
  split; [by eexists|]. by repeat constructor.
Qed.

(** In a hook whose [wsUrl] and [retry] stay as they are, the counter and
    the budget every close event works with are those of the one run, and
    the budget is [retry * 2]. *)
Lemma close_event_budget (p : Options) (t0 : Z) (es : list Event) (s : State) :
  truthy (wsUrl p) = true →
  Forall (keepsSocket p) es →
  run (mount p t0) es = Some s →
  ∃ c,
    runs s = [mkRun (default "" (wsUrl p)) (retry p * 2) c]
    ∧ (∀ i s', step s (WsOpen i) = Some s' →
         runs s' = [mkRun (default "" (wsUrl p)) (retry p * 2) 0])
    ∧ (∀ i s', step s (WsClose i) = Some s' →
         isMounted s = true → c < retry p * 2 →
         let d := 1000 * Z.min (c + 1) 30 in
         runs s' = [mkRun (default "" (wsUrl p)) (retry p * 2) (c + 1)]
         ∧ calls s' = calls s ++ [SetTimeout (CbConnect 0) d]
         ∧ timers s'
           = timers s ++ [mkTimer (nextTimer s) d (now s + Z.max 0 d) (CbConnect 0)])
    ∧ (∀ i s', step s (WsClose i) = Some s' →
         isMounted s = false ∨ retry p * 2 ≤ c →
         runs s' = runs s ∧ calls s' = calls s ∧ timers s' = timers s).
Proof.
  intros Hws Hes Hrun.
  pose proof (run_singleRun p _ _ es (mount p t0) s Hes
                (f_equal wsDeps (mount_props p t0))
                (mount_singleRun p t0 Hws) Hrun) as Hsr.
  pose proof Hsr as [[c Hr] Hs].
  exists c. split; [exact Hr|]. split; [|split].
  - intros i s' Hstep. cbn [step] in Hstep.
    destruct (sockets s !! i) as [k|] eqn:Hk; [|done].
    case_bool_decide; [|done]. injection Hstep as <-.
    rewrite Forall_lookup in Hs. rewrite (Hs i k Hk).
    unfold onopen, setSocketState. state_simpl. by rewrite Hr.
  - intros i s' Hstep Hm Hlt d. cbn [step] in Hstep.
    destruct (sockets s !! i) as [k|] eqn:Hk; [|done].
    destruct (ws_closeFired k); [done|]. injection Hstep as <-.
    rewrite Forall_lookup in Hs. rewrite (Hs i k Hk).
    destruct (onclose_below_budget (setSocketClosed i s) 0
                (mkRun (default "" (wsUrl p)) (retry p * 2) c))
      as (H1 & H2 & H3 & _);
      [by (unfold setSocketClosed; state_simpl; rewrite Hr)|exact Hm|exact Hlt|].
    split; [|split; [exact H2|exact H3]].
    assert (singleRun (default "" (wsUrl p)) (retry p * 2) (setSocketClosed i s))
      as Hsr' by (unfold setSocketClosed; by apply alter_singleRun).
    destruct (onclose_singleRun 0 _ _ _ Hsr') as [[c' Hr'] _].
    rewrite Hr' in H1. cbn in H1. injection H1 as ->. exact Hr'.
  - intros i s' Hstep Hor. cbn [step] in Hstep.
    destruct (sockets s !! i) as [k|] eqn:Hk; [|done].
    destruct (ws_closeFired k); [done|]. injection Hstep as <-.
    rewrite Forall_lookup in Hs. rewrite (Hs i k Hk).
    destruct (onclose_budget_spent (setSocketClosed i s) 0
                (mkRun (default "" (wsUrl p)) (retry p * 2) c))
      as (H1 & H2 & H3 & _);
      [by (unfold setSocketClosed; state_simpl; rewrite Hr)|exact Hor|].
    done.
Qed.

(** *** The budget of a run never changes *)

Lemma counter_budgets (c : Z) (n : nat) (s : State) :
  budgets (set_runs (alter (set_reconnectAttempts c) n (runs s)) s) = budgets s.
Proof.
  unfold budgets. state_simpl. generalize (runs s). intros l. revert n.
  induction l as [|r l IH]; intros [|n]; cbn; [done..|].
  f_equal. apply IH.
Qed.

Lemma socket_runs (s : State) :
  runs (closeWebSocket s) = runs s
  ∧ (∀ n, runs (connectWebSocket n s) = runs s)
  ∧ (∀ m, runs (sendMessage m s) = runs s)
  ∧ (∀ ws q, runs (flushQueue ws q s) = runs s)
  ∧ (∀ ws q qid, runs (queueEffect ws q qid s) = runs s).
Proof.
  assert (∀ ws q, runs (flushQueue ws q s) = runs s) as Hf.
  { intros ws q. unfold flushQueue. destruct (openHandle s); [|done].
    destruct (_ && _); [|done]. by rewrite foldl_wsSend. }
  repeat split; intros; try apply Hf;
    [unfold_handlers; split_cases; done..|].
  unfold queueEffect. case_bool_decide; [done|]. apply Hf.
Qed.

Lemma unmount_runs (s : State) : runs (unmount s) = runs s.
Proof.
  unfold unmount. cbv zeta.
  set (s1 := match timeoutRef _ with Some t => _ | None => _ end).
  assert (runs s1 = runs s) as H1.
  { subst s1. destruct (request_runs (set_isMounted false s))
      as (_ & _ & _ & Ha & _).
    destruct (timeoutRef _); [|exact Ha].
    destruct (request_runs (abortCurrent (set_isMounted false s)))
      as (_ & _ & _ & _ & Hc & _).
    by rewrite Hc. }
  rewrite closeWebSocket_no_ref. state_simpl.
  destruct (wsCleanup _);
    rewrite ?(proj1 (socket_runs _)); exact H1.
Qed.

(** A render starts a run when [wsUrl] or [retry] changed and there is a
    [wsUrl]; it leaves the runs there are as they are. *)
Lemma render_runs (p : Options) (s : State) :
  runs (render p s) = runs s
  ∨ (wsDeps p ≠ wsDeps (props s) ∧ truthy (wsUrl p) = true
     ∧ runs (render p s)
       = runs s ++ [mkRun (default "" (wsUrl p)) (retry p * 2) 0]).
Proof.
  unfold render. cbv zeta.
  set (cb := if bool_decide (fetchDeps p = fetchDeps (props s)) then memo s else _).
  clearbody cb.
  assert (∀ x, runs (closeWebSocket x) = runs x) as Hc
    by (intros x; apply socket_runs).
  assert (∀ x, runs (queueEffect (wsState s) (wsMessagesQueue s) (queueId s) x)
               = runs x) as Hq by (intros x; apply socket_runs).
  assert (∀ x, runs (autoFetchEffect p x) = runs x) as Ha
    by (intros x; apply request_runs).
  assert (∀ x, runs (refreshEffect p x) = runs x) as Hr
    by (intros x; apply request_runs).
  assert (∀ x, runs (set_interval false x) = runs x) as Hi by done.
  assert (∀ x, runs (set_fetchDataRef cb x) = runs x) as Hf by done.
  assert (runs (set_props p (set_memo cb s)) = runs s) as H0 by done.
  destruct (bool_decide (wsDeps p = wsDeps (props s))) eqn:Hw.
  - left.
    repeat match goal with
           | |- context [bool_decide ?P] => destruct (bool_decide P)
           end;
      rewrite ?Hr, ?Ha, ?Hf, ?Hq, ?Hi; exact H0.
  - apply bool_decide_eq_false in Hw.
    destruct (truthy (wsUrl p)) eqn:Hu.
    + right. split; [exact Hw|]. split; [done|].
      repeat match goal with
             | |- context [bool_decide ?P] => destruct (bool_decide P)
             | |- context [if wsCleanup ?x then _ else _] => destruct (wsCleanup x)
             end;
        rewrite ?Hr, (socketEffect_runs p _ Hu), ?Ha, ?Hf, ?Hq, ?Hi, ?Hc;
        by rewrite H0.
    + left.
      assert (∀ x, runs (socketEffect p x) = runs x) as Hs
        by (intros x; unfold socketEffect; by rewrite Hu).
      repeat match goal with
             | |- context [bool_decide ?P] => destruct (bool_decide P)
             | |- context [if wsCleanup ?x then _ else _] => destruct (wsCleanup x)
             end;
        rewrite ?Hr, ?Hs, ?Ha, ?Hf, ?Hq, ?Hi, ?Hc; exact H0.
Qed.

(** No event changes the budget of a run; a run is added by a render that
    changes [wsUrl] or [retry], with the budget [retry * 2] of its props. *)
Lemma step_budgets (s s' : State) (e : Event) :
  step s e = Some s' →
  budgets s' = budgets s
  ∨ ∃ p, e = Render p ∧ wsDeps p ≠ wsDeps (props s) ∧ truthy (wsUrl p) = true
         ∧ runs s' = runs s ++ [mkRun (default "" (wsUrl p)) (retry p * 2) 0].
Proof.
  intros Hstep.
  destruct (request_runs s) as (R1 & R2 & R3 & R4 & R5 & R6 & _).
  destruct (socket_runs s) as (S1 & S2 & S3 & _).
  destruct e; cbn [step] in Hstep.
  - destruct (isMounted s); [|done]. injection Hstep as <-.
    destruct (render_runs p s) as [H|H]; [left; unfold budgets; by rewrite H|].
    right. by exists p.
  - destruct (isMounted s); [|done]. injection Hstep as <-. left.
    unfold budgets. by rewrite unmount_runs.
  - injection Hstep as <-. left. unfold budgets, refetch. by rewrite R1.
  - injection Hstep as <-. left. unfold budgets, cancel. by rewrite R4.
  - injection Hstep as <-. left. unfold budgets. by rewrite S3.
  - injection Hstep as <-. left. unfold budgets. by rewrite S1.
  - destruct (interval s); [|done]. injection Hstep as <-. left.
    unfold budgets, refetch. by rewrite R1.
  - destruct (0 <=? dt); [|done]. by injection Hstep as <-; left.
  - destruct (findTimer t s) as [tm|]; [|done].
    destruct (t_due tm <=? now s); [|done]. injection Hstep as <-. left.
    unfold budgets. destruct (t_cb tm); cbn [runCallback].
    + by rewrite (proj1 (proj2 (request_runs _))), R5.
    + by rewrite (proj1 (request_runs _)), R5.
    + by rewrite (proj1 (proj2 (socket_runs _))), R5.
  - destruct (findRequest k s) as [r|]; [|done].
    destruct (settles k o s); [|done]. injection Hstep as <-. left.
    unfold budgets. by rewrite (proj1 (proj2 (proj2 (request_runs _)))).
  - destruct (sockets s !! i) as [k|]; [|done].
    case_bool_decide; [|done]. injection Hstep as <-. left.
    unfold onopen. apply (counter_budgets 0 (ws_run k) (setSocketState i OPEN s)).
  - destruct (sockets s !! i) as [k|]; [|done].
    case_bool_decide; [|done]. injection Hstep as <-. left.
    unfold budgets. by rewrite R6.
  - destruct (sockets s !! i) as [k|]; [|done].
    case_bool_decide; [done|]. by injection Hstep as <-; left.
  - destruct (sockets s !! i) as [k|]; [|done].
    destruct (ws_closeFired k); [done|]. injection Hstep as <-. left.
    unfold onclose. cbv zeta. state_simpl.
    change (runs (setSocketClosed i s)) with (runs s).
    destruct (runs s !! ws_run k) as [r|]; [|done].
    destruct (_ && _); [|done].
    apply (counter_budgets (reconnectAttempts r + 1) (ws_run k) s).
  - destruct (sockets s !! i) as [k|]; [|done].
    case_bool_decide; [|done]. by injection Hstep as <-; left.
Qed.

(** C3. After an open reset the counter of the run to zero, every close
    with the owner alive and the counter below the budget of the run raises
    the counter by one and sets exactly one timer for a reconnect, after
    [1000 * min(counter, 30)], which never exceeds 30000; a close with the
    counter at the budget sets none.  The budget of a run is [retry * 2] of
    the props the socket effect ran with, and no event changes it; in a
    hook whose [wsUrl] and [retry] stay as they are there is one run, and
    after any events an open event puts its counter at zero and a close
    event works with its counter and the budget [retry * 2].  With
    [retry = 3]: six reconnects, after
    1000, 2000, 3000, 4000, 5000 and 6000, and the seventh close in a row
    sets no timer: nothing is pending, no socket is left, the state stays
    closed. *)
Theorem reconnect_budget :
  (∀ s n r, runs s !! n = Some r →
     runs (onopen n s) !! n = Some (set_reconnectAttempts 0 r))
  ∧ (∀ s n r, runs s !! n = Some r → isMounted s = true →
       reconnectAttempts r < MAX_RECONNECT_ATTEMPTS r →
       let c := reconnectAttempts r + 1 in
       let d := 1000 * Z.min c 30 in
       runs (onclose n s) !! n = Some (set_reconnectAttempts c r)
       ∧ calls (onclose n s) = calls s ++ [SetTimeout (CbConnect n) d]
       ∧ timers (onclose n s)
         = timers s ++ [mkTimer (nextTimer s) d (now s + Z.max 0 d) (CbConnect n)]
       ∧ d ≤ 30000)
  ∧ (∀ s n r, runs s !! n = Some r →
       MAX_RECONNECT_ATTEMPTS r ≤ reconnectAttempts r →
       runs (onclose n s) = runs s
       ∧ calls (onclose n s) = calls s
       ∧ timers (onclose n s) = timers s)
  ∧ (∀ p t0, truthy (wsUrl p) = true → retry p = 3 →
       ∃ s,
         run (mount p t0)
           [WsOpen 0%nat;
            WsClose 0%nat; Elapse 1000; Fire 1%nat;
            WsClose 1%nat; Elapse 2000; Fire 2%nat;
            WsClose 2%nat; Elapse 3000; Fire 3%nat;
            WsClose 3%nat; Elapse 4000; Fire 4%nat;
            WsClose 4%nat; Elapse 5000; Fire 5%nat;
            WsClose 5%nat; Elapse 6000; Fire 6%nat;
            WsClose 6%nat] = Some s
         ∧ calls s
           = [SetTimeout (CbConnect 0) 1000; SetTimeout (CbConnect 0) 2000;
              SetTimeout (CbConnect 0) 3000; SetTimeout (CbConnect 0) 4000;
              SetTimeout (CbConnect 0) 5000; SetTimeout (CbConnect 0) 6000]
         ∧ timers s = []
         ∧ wsRef s = None
         ∧ wsState s = Ws_closed
         ∧ Forall (λ k, readyState k = CLOSED ∧ ws_closeFired k = true) (sockets s)
         ∧ length (sockets s) = 7%nat)
  ∧ (∀ p s, truthy (wsUrl p) = true →
       runs (socketEffect p s)
       = runs s ++ [mkRun (default "" (wsUrl p)) (retry p * 2) 0])
  ∧ (∀ p t0 es s,
       truthy (wsUrl p) = true →
       Forall (keepsSocket p) es →
       run (mount p t0) es = Some s →
       ∃ c,
         runs s = [mkRun (default "" (wsUrl p)) (retry p * 2) c]
         ∧ (∀ i s', step s (WsOpen i) = Some s' →
              runs s' = [mkRun (default "" (wsUrl p)) (retry p * 2) 0])
         ∧ (∀ i s', step s (WsClose i) = Some s' →
              isMounted s = true → c < retry p * 2 →
              let d := 1000 * Z.min (c + 1) 30 in
              runs s' = [mkRun (default "" (wsUrl p)) (retry p * 2) (c + 1)]
              ∧ calls s' = calls s ++ [SetTimeout (CbConnect 0) d]
              ∧ timers s'
                = timers s
                  ++ [mkTimer (nextTimer s) d (now s + Z.max 0 d) (CbConnect 0)])
         ∧ (∀ i s', step s (WsClose i) = Some s' →
              isMounted s = false ∨ retry p * 2 ≤ c →
              runs s' = runs s ∧ calls s' = calls s ∧ timers s' = timers s))
  ∧ (∀ s e s', step s e = Some s' →
       budgets s' = budgets s
       ∨ ∃ p, e = Render p ∧ wsDeps p ≠ wsDeps (props s)
              ∧ truthy (wsUrl p) = true
              ∧ runs s'
                = runs s ++ [mkRun (default "" (wsUrl p)) (retry p * 2) 0]).
Proof.
  split; [|split; [|split; [|split; [|split; [|split]]]]].
  - intros s n r Hr. by apply onopen_resets.
  - intros s n r Hr Hm Hlt c d.
    destruct (onclose_below_budget s n r Hr Hm Hlt) as (H1 & H2 & H3 & _).
    repeat split; try done. subst d. lia.
  - intros s n r Hr Hle.
    destruct (onclose_budget_spent s n r Hr (or_intror Hle)) as (H1 & H2 & H3 & _).
    done.
  - intros p t0 Hws Hretry. destruct p; simpl in Hws, Hretry; subst.
    mount_socket_mode Hws. run_events.
    eexists. split; [reflexivity|]. hook_eval.
    repeat split. repeat constructor.
  - intros p s. apply socketEffect_runs.
  - intros p t0 es s. apply close_event_budget.
  - intros s e s'. apply step_budgets.
Qed.

(** * Further properties *)

(** ** After the owner is gone *)

Lemma unchanged_refl (s : State) : unchanged s s.
Proof. by repeat split. Qed.

Lemma unchanged_trans (s1 s2 s3 : State) :
  unchanged s1 s2 → unchanged s2 s3 → unchanged s1 s3.
Proof. intros (?&?&?) (?&?&?). repeat split; congruence. Qed.

Lemma setTimeout_unchanged (cb : Callback) (d : Z) (s : State) :
  unchanged s (setTimeout cb d s).
Proof.
  repeat split. unfold transportCalls, setTimeout. state_simpl.
  rewrite omap_app. cbn. by rewrite app_nil_r.
Qed.

Lemma fetchData_unchanged (c : Closure) (a : Z) (s : State) :
  unchanged s (fetchData c a s).
Proof.
  unfold fetchData. cbv zeta.
  set (s1 := match timeoutRef s with Some t => clearTimeout t s | None => s end).
  assert (unchanged s s1) as H1 by (subst s1; by destruct (timeoutRef s)).
  eapply unchanged_trans; [exact H1|].
  eapply unchanged_trans; [apply (setTimeout_unchanged (CbFetch c a (now s1)))|].
  by repeat split.
Qed.

Lemma abortCurrent_unchanged (s : State) : unchanged s (abortCurrent s).
Proof.
  unfold abortCurrent. destruct (abortControllerRef s); [|apply unchanged_refl].
  destruct (isAborted _ _); by repeat split.
Qed.

Lemma closeWebSocket_unchanged (s : State) : unchanged s (closeWebSocket s).
Proof. unfold closeWebSocket. destruct (wsRef s); by repeat split. Qed.

Lemma connectWebSocket_unchanged (n : nat) (s : State) :
  unchanged s (connectWebSocket n s).
Proof.
  unfold connectWebSocket. destruct (wsRef s); [apply unchanged_refl|].
  destruct (runs s !! n); by repeat split.
Qed.

Lemma onclose_unchanged (n : nat) (s : State) : unchanged s (onclose n s).
Proof.
  unfold onclose. cbv zeta. state_simpl.
  destruct (runs s !! n); [|by repeat split].
  destruct (_ && _); [|by repeat split].
  eapply unchanged_trans; [|apply setTimeout_unchanged]. by repeat split.
Qed.

Lemma sendMessage_unchanged (m : Json) (s : State) : unchanged s (sendMessage m s).
Proof. unfold sendMessage. destruct (openHandle s); by repeat split. Qed.

(** With the owner gone, the timer callback returns at once, a settled
    call publishes nothing, and an inbound message is dropped. *)
Lemma gone_handlers (s : State) :
  isMounted s = false →
  (∀ c a r, startRequest c a r s = s)
  ∧ (∀ r o, unchanged s (settle r o s))
  ∧ (∀ d, onmessage d s = s).
Proof.
  intros Hm. split; [|split].
  - intros. unfold startRequest. by rewrite Hm.
  - intros r o. unfold settle. cbv zeta.
    assert (∀ k, isCurrent k s = false) as Hcur
      by (intros; unfold isCurrent; by rewrite Hm).
    destruct o; rewrite ?Hcur; try apply unchanged_refl.
    destruct (_ <? _); [|rewrite !Hcur; apply unchanged_refl].
    unfold isCurrent at 1.
    replace (isMounted (setTimeout _ _ s)) with false by done.
    apply setTimeout_unchanged.
  - intros. unfold onmessage. by rewrite Hm.
Qed.

Lemma step_gone (s s' : State) (e : Event) :
  isMounted s = false → step s e = Some s' → unchanged s s'.
Proof.
  intros Hm Hstep. destruct (gone_handlers s Hm) as (Hstart & Hsettle & Hmsg).
  destruct e; cbn [step] in Hstep; rewrite ?Hm in Hstep; try done.
  - injection Hstep as <-. unfold refetch. apply fetchData_unchanged.
  - injection Hstep as <-. unfold cancel. apply abortCurrent_unchanged.
  - injection Hstep as <-. apply sendMessage_unchanged.
  - injection Hstep as <-. apply closeWebSocket_unchanged.
  - destruct (interval s); [|done]. injection Hstep as <-.
    unfold refetch. apply fetchData_unchanged.
  - destruct (0 <=? dt); [|done]. injection Hstep as <-. by repeat split.
  - destruct (findTimer t s) as [tm|]; [|done].
    destruct (t_due tm <=? now s); [|done]. injection Hstep as <-.
    destruct (t_cb tm); cbn [runCallback].
    + destruct (gone_handlers (clearTimeout t s) Hm) as (-> & _). by repeat split.
    + eapply unchanged_trans; [|apply fetchData_unchanged]. by repeat split.
    + eapply unchanged_trans; [|apply connectWebSocket_unchanged]. by repeat split.
  - destruct (findRequest k s) as [r|]; [|done].
    destruct (settles k o s); [|done]. injection Hstep as <-.
    destruct (gone_handlers (dropRequest k s) Hm) as (_ & H & _).
    eapply unchanged_trans; [|apply H]. by repeat split.
  - destruct (sockets s !! i) as [k|]; [|done].
    case_bool_decide; [|done]. injection Hstep as <-. by repeat split.
  - destruct (sockets s !! i) as [k|]; [|done].
    case_bool_decide; [|done]. injection Hstep as <-. by rewrite Hmsg.
  - destruct (sockets s !! i) as [k|]; [|done].
    case_bool_decide; [done|]. injection Hstep as <-. by repeat split.
  - destruct (sockets s !! i) as [k|]; [|done].
    destruct (ws_closeFired k); [done|]. injection Hstep as <-.
    eapply unchanged_trans; [|apply onclose_unchanged]. by repeat split.
  - destruct (sockets s !! i) as [k|]; [|done].
    case_bool_decide; [|done]. injection Hstep as <-. by repeat split.
Qed.

Lemma unmount_effect (s : State) :
  isMounted (unmount s) = false
  ∧ published (unmount s) = published s
  ∧ transportCalls (unmount s) = transportCalls s
  ∧ wsRef (unmount s) = None
  ∧ (∀ t, timeoutRef s = Some t → findTimer t (unmount s) = None).
Proof.
  unfold unmount. cbv zeta.
  set (s0 := abortCurrent (set_isMounted false s)).
  assert (isMounted s0 = false ∧ published s0 = published s
          ∧ transportCalls s0 = transportCalls s ∧ timeoutRef s0 = timeoutRef s
          ∧ timers s0 = timers s) as (Hm & Hp & Hc & Ht & Htm).
  { subst s0. unfold abortCurrent. state_simpl.
    destruct (abortControllerRef s); [|done]. by destruct (isAborted _ _). }
  rewrite Ht.
  set (s1 := match timeoutRef s with Some t => clearTimeout t s0 | None => s0 end).
  assert (isMounted s1 = false ∧ published s1 = published s
          ∧ transportCalls s1 = transportCalls s
          ∧ (∀ t, timeoutRef s = Some t → findTimer t s1 = None)) as (Hm1 & Hp1 & Hc1 & Hf1).
  { subst s1. destruct (timeoutRef s) as [t|]; [|done].
    repeat split; try done. intros t' [= <-].
    unfold findTimer, clearTimeout. state_simpl.
    destruct (find _ _) as [x|] eqn:Hfind; [|done].
    apply find_some in Hfind as [Hin Heq].
    apply list_elem_of_In, list_elem_of_filter in Hin as [Hne _].
    apply Nat.eqb_eq in Heq. done. }
  rewrite closeWebSocket_no_ref.
  set (s2 := if wsCleanup _ then _ else _).
  assert (unchanged s1 s2 ∧ wsRef s2 = None ∧ timers s2 = timers s1) as (Hu & Hr & Htm2).
  { subst s2. destruct (wsCleanup _).
    - split; [eapply unchanged_trans; apply closeWebSocket_unchanged|].
      split; [apply closeWebSocket_no_ref|].
      unfold closeWebSocket. by repeat destruct (wsRef _).
    - split; [apply closeWebSocket_unchanged|].
      split; [apply closeWebSocket_no_ref|].
      unfold closeWebSocket. by destruct (wsRef _). }
  destruct Hu as (Hm2 & Hp2 & Hc2).
  repeat split; state_simpl; try congruence.
  - transitivity (published s2); [reflexivity|congruence].
  - transitivity (transportCalls s2); [reflexivity|congruence].
  - intros t Ht1. unfold findTimer. state_simpl. rewrite Htm2. by apply Hf1.
Qed.

(** X1.  Teardown.  Once the owner is gone, whatever happens afterwards (timers
    fire, calls settle, socket events arrive, stale references to
    [refetch] or [sendMessage] are called), no call is handed to the
    transport and [data], [loading], [error] and [wsData] keep the values
    they had; the fetch that was waiting for its debounce timer is never
    made, its timer is cleared. *)
Theorem teardown_is_final (s s1 s' : State) (es : list Event) :
  step s Unmount = Some s1 →
  run s1 es = Some s' →
  isMounted s' = false
  ∧ published s' = published s
  ∧ transportCalls s' = transportCalls s
  ∧ (∀ t, timeoutRef s = Some t → findTimer t s1 = None).
Proof.
  intros Hstep Hrun. cbn [step] in Hstep.
  destruct (isMounted s); [|done]. injection Hstep as <-.
  destruct (unmount_effect s) as (Hm & Hp & Hc & _ & Ht).
  assert (unchanged (unmount s) s') as (Hm' & Hp' & Hc').
  { revert Hrun Hm. generalize (unmount s). clear.
    induction es as [|e es IH]; intros s0 Hrun Hm.
    - cbn [run] in Hrun. injection Hrun as <-. apply unchanged_refl.
    - rewrite run_cons in Hrun.
      destruct (step s0 e) as [s1|] eqn:Hstep; [|done]. cbn in Hrun.
      pose proof (step_gone _ _ _ Hm Hstep) as Hu.
      eapply unchanged_trans; [exact Hu|]. apply IH; [done|].
      destruct Hu as (-> & _). done. }
  repeat split; try congruence. exact Ht.
Qed.

(** ** Timers that nobody clears *)

(** X17.  The timer of a reconnect is not kept in any ref, and [connectWebSocket]
    does not look at [isMounted]: a reconnect that was scheduled before the
    owner went away still fires afterwards and opens a socket, which
    becomes the handle; no cleanup is left to close it. *)
Theorem reconnect_outlives_owner (p : Options) (t0 : Z) :
  truthy (wsUrl p) = true →
  0 < retry p →
  ∃ s,
    run (mount p t0) [WsClose 0%nat; Unmount; Elapse 1000; Fire 1%nat] = Some s
    ∧ isMounted s = false
    ∧ wsRef s = Some 1%nat
    ∧ sockets s !! 1%nat
      = Some (mkSocket (default "" (wsUrl p)) CONNECTING 0 [] false)
    ∧ timers s = [].
Proof.
  intros Hws Hretry. destruct p; simpl in Hws, Hretry.
  mount_socket_mode Hws. run_events.
  eexists. split; [reflexivity|]. hook_eval. done.
Qed.

(** X5.  The timer of a retry is not kept in [timeoutRef] either, so a newer
    [fetchData] does not clear it; when it fires, the retry runs
    [fetchData] and that clears the timer of the newer fetch.  Here the
    first call fails, the owner renders with another [url] and calls
    [refetch()], and the retry fires before the debounce delay is over: the
    call for the new [url] is never made, the retry of the old one is, and
    its response is published. *)
Theorem retry_overtakes_newer_fetch
    (p : Options) (u : string) (t0 : Z) (e : Err) (d : Json) :
  truthy (wsUrl p) = false →
  autoFetch p = true →
  0 < retry p →
  url p ≠ u →
  100 < debounce p →
  let c := mkClosure p true in
  let c' := mkClosure (withUrl u p) false in
  ∃ s,
    run (mount p t0)
      [Fire 1%nat; Settle 0%nat (Failure e); Render (withUrl u p); Refetch;
       Elapse 100; Fire 2%nat; Fire 4%nat; Settle 1%nat (Success d)]
    = Some s
    ∧ calls s
      = [SetTimeout (CbFetch c 0 t0) 0;
         Axios (mkRequest 0 c 0 t0);
         SetTimeout (CbRetry c 0) 100;
         SetTimeout (CbFetch c' 0 t0) (debounce p);
         SetTimeout (CbFetch c 1 (t0 + 100)) 0;
         Axios (mkRequest 1 c 1 (t0 + 100))]
    ∧ timers s = []
    ∧ inflight s = []
    ∧ fetchDataRef s = c'
    ∧ data s = Some d
    ∧ loading s = false.
Proof.
  intros Hws Hauto Hretry Hu Hd c c'. subst c c'.
  destruct p; simpl in Hws, Hauto, Hretry, Hu, Hd; subst.
  mount_http_mode Hws; do 2 run_event; run_render_new_request; run_events;
    (eexists; split; [reflexivity|]; hook_eval; done).
Qed.

(** ** A change of [wsUrl] *)

Lemma render_new_wsUrl (p : Options) (s : State) :
  fetchDeps p = fetchDeps (props s) →
  wsUrl p ≠ wsUrl (props s) →
  render p s
  = refreshEffect p
      (socketEffect p
         (autoFetchEffect p
            (queueEffect (wsState s) (wsMessagesQueue s) (queueId s)
               (set_interval false
                  (let s1 := set_props p (set_memo (memo s) s) in
                   if wsCleanup s1 then closeWebSocket s1 else s1))))).
Proof.
  intros Hf Hw. unfold render.
  rewrite (bool_decide_eq_true_2 _ Hf).
  rewrite !bool_decide_eq_false_2; [done|..];
    unfold refreshDeps, wsDeps, autoFetchDeps; congruence.
Qed.

(** X18.  The close handler of a socket clears the handle and schedules a
    reconnect of its own run of the effect, whichever socket is behind the
    handle by then.  After [wsUrl] changed, the socket of the old run is
    closed by the cleanup and the new run connects; the close event of the
    old socket then clears the handle of the new one.  The new socket opens
    and the state is open, yet [sendMessage] queues and the queue effect
    sends nothing, for want of a handle; and the old run reconnects, to the
    old [wsUrl], and that socket becomes the handle. *)
Theorem close_of_replaced_socket
    (p : Options) (u : string) (t0 : Z) (m : Json) :
  truthy (wsUrl p) = true →
  0 < retry p →
  u ≠ "" →
  wsUrl p ≠ Some u →
  ∃ s,
    run (mount p t0)
      [WsOpen 0%nat; Render (withWsUrl u p); WsClose 0%nat; WsOpen 1%nat;
       SendMessage m; Render (withWsUrl u p); Elapse 1000; Fire 1%nat]
    = Some s
    ∧ wsState s = Ws_open
    ∧ wsMessagesQueue s = [m]
    ∧ sockets s !! 1%nat = Some (mkSocket u OPEN 1 [] false)
    ∧ wsRef s = Some 2%nat
    ∧ sockets s !! 2%nat
      = Some (mkSocket (default "" (wsUrl p)) CONNECTING 0 [] false).
Proof.
  intros Hws Hretry Hu Hne. destruct p; simpl in Hws, Hretry, Hne.
  assert (truthy (Some u) = true) as Hwu.
  { simpl. apply negb_true_iff, String.eqb_neq. done. }
  mount_socket_mode Hws. run_event.
  rewrite run_cons, step_Render by reflexivity.
  rewrite render_new_wsUrl by first [reflexivity | cbn; congruence].
  unfold autoFetchEffect, socketEffect, refreshEffect.
  cbn [withWsUrl wsUrl autoRefresh autoFetch retry].
  rewrite Hwu, andb_false_r, orb_true_r. hook_eval.
  do 3 run_event.
  rewrite run_cons, step_Render by reflexivity.
  rewrite render_same_deps by reflexivity. hook_eval.
  run_events.
  eexists. split; [reflexivity|]. hook_eval. done.
Qed.
(** ** The published error *)

Lemma jsOr_truthy (a : option Json) (b : Json) :
  jsTruthy b = true → jsTruthy (jsOr a b) = true.
Proof.
  intros Hb. unfold jsOr. destruct a as [v|]; [|done].
  by destruct (jsTruthy v) eqn:Hv.
Qed.


(** X10.  [err.response?.data?.message || err.message || "Something went wrong"]:
    the first of the two messages that is truthy, whatever its type, else
    the fixed text; the value is truthy in every case.  For an [err] that
    is [null] or [undefined] the expression throws. *)
Theorem errorMessage_fallback :
  errorMessage Nullish = None
  ∧ ∀ response_message message,
      ∃ v,
        errorMessage (Thrown response_message message) = Some v
        ∧ jsTruthy v = true
        ∧ (truthyValue response_message = true → response_message = Some v)
        ∧ (truthyValue response_message = false → truthyValue message = true →
             message = Some v)
        ∧ (truthyValue response_message = false → truthyValue message = false →
             v = JStr "Something went wrong").
Proof.
  split; [done|]. intros rm m. eexists. split; [reflexivity|].
  split; [by do 2 apply jsOr_truthy|].
  unfold jsOr, truthyValue. destruct rm as [a|], m as [b|];
    repeat split; intros; repeat case_match; simplify_eq; done.
Qed.

(** ** What a render leaves alone *)

Lemma flushQueue_requestSide (ws : WsState) (queue : list Json) (s : State) :
  requestSide (flushQueue ws queue s) = requestSide s.
Proof.
  unfold flushQueue. split_cases; try done.
  by rewrite foldl_wsSend.
Qed.

Lemma fetchData_requestSide (c : Closure) (a : Z) (s : State) :
  requestSide (fetchData c a s) = requestSide s.
Proof. unfold fetchData, setTimeout, clearTimeout. by destruct (timeoutRef s). Qed.

Lemma effects_requestSide (p : Options) (ws : WsState) (queue : list Json) (qid : nat)
    (s : State) :
  requestSide (closeWebSocket s) = requestSide s
  ∧ requestSide (queueEffect ws queue qid s) = requestSide s
  ∧ requestSide (autoFetchEffect p s) = requestSide s
  ∧ requestSide (socketEffect p s) = requestSide s
  ∧ requestSide (refreshEffect p s) = requestSide s.
Proof.
  repeat split.
  - unfold_handlers. split_cases; done.
  - unfold queueEffect. case_match; [done|].
    change (requestSide (set_flushDeps ?d ?x)) with (requestSide x).
    apply flushQueue_requestSide.
  - unfold autoFetchEffect. case_match; [|done]. apply fetchData_requestSide.
  - unfold_handlers. split_cases; done.
  - unfold_handlers. split_cases; done.
Qed.

Lemma render_requestSide (p : Options) (s : State) :
  requestSide (render p s) = requestSide s.
Proof.
  unfold render. cbv zeta.
  repeat match goal with
         | |- context [bool_decide ?P] => destruct (bool_decide P)
         end;
    repeat first
      [ rewrite (proj1 (effects_requestSide p Ws_open [] 0 _))
      | rewrite (proj1 (proj2 (effects_requestSide p _ _ _ _)))
      | rewrite (proj1 (proj2 (proj2 (effects_requestSide p Ws_open [] 0 _))))
      | rewrite (proj1 (proj2 (proj2 (proj2 (effects_requestSide p Ws_open [] 0 _)))))
      | rewrite (proj2 (proj2 (proj2 (proj2 (effects_requestSide p Ws_open [] 0 _)))))
      | progress change (requestSide (set_interval ?b ?x)) with (requestSide x)
      | progress change (requestSide (set_fetchDataRef ?b ?x)) with (requestSide x)
      | destruct (wsCleanup _) ];
    done.
Qed.

Lemma mount_requestSide (p : Options) (t0 : Z) :
  requestSide (mount p t0) = requestSide (initial p t0).
Proof.
  unfold mount. cbv zeta.
  rewrite (proj2 (proj2 (proj2 (proj2 (effects_requestSide p Ws_open [] 0 _))))).
  rewrite (proj1 (proj2 (proj2 (proj2 (effects_requestSide p Ws_open [] 0 _))))).
  rewrite (proj1 (proj2 (proj2 (effects_requestSide p Ws_open [] 0 _)))).
  change (requestSide (set_fetchDataRef ?b ?x)) with (requestSide x).
  by rewrite flushQueue_requestSide.
Qed.

Lemma requestSide_error (s s' : State) :
  requestSide s' = requestSide s → error s' = error s.
Proof. unfold requestSide. intros H. injection H. intros. assumption. Qed.





(** ** Auto refresh *)

Lemma flushQueue_interval (ws : WsState) (queue : list Json) (s : State) :
  interval (flushQueue ws queue s) = interval s.
Proof.
  unfold flushQueue. split_cases; try done.
  by rewrite foldl_wsSend.
Qed.

Lemma effects_interval (p : Options) (ws : WsState) (queue : list Json) (qid : nat)
    (s : State) :
  interval (closeWebSocket s) = interval s
  ∧ interval (queueEffect ws queue qid s) = interval s
  ∧ interval (autoFetchEffect p s) = interval s
  ∧ interval (socketEffect p s) = interval s
  ∧ interval (refreshEffect p s) = refreshes p.
Proof.
  repeat split.
  - unfold_handlers. split_cases; done.
  - unfold queueEffect. case_match; [done|].
    change (interval (set_flushDeps ?d ?x)) with (interval x).
    apply flushQueue_interval.
  - unfold_handlers. split_cases; done.
  - unfold_handlers. split_cases; done.
  - unfold refreshEffect, refreshes.
    destruct (autoRefresh p =? 0); destruct (truthy (wsUrl p)); done.
Qed.

Lemma render_interval (p : Options) (s : State) :
  interval (render p s)
  = if bool_decide (refreshDeps p = refreshDeps (props s)) then interval s
    else refreshes p.
Proof.
  unfold render. cbv zeta.
  destruct (bool_decide (refreshDeps p = refreshDeps (props s)));
    [|by rewrite (proj2 (proj2 (proj2 (proj2 (effects_interval p Ws_open [] 0 _)))))].
  repeat match goal with
         | |- context [bool_decide ?P] => destruct (bool_decide P)
         end;
    repeat first
      [ rewrite (proj1 (effects_interval p Ws_open [] 0 _))
      | rewrite (proj1 (proj2 (effects_interval p _ _ _ _)))
      | rewrite (proj1 (proj2 (proj2 (effects_interval p Ws_open [] 0 _))))
      | rewrite (proj1 (proj2 (proj2 (proj2 (effects_interval p Ws_open [] 0 _)))))
      | progress change (interval (set_fetchDataRef ?b ?x)) with (interval x)
      | destruct (wsCleanup _) ];
    done.
Qed.

Lemma mount_interval (p : Options) (t0 : Z) : interval (mount p t0) = refreshes p.
Proof.
  unfold mount. cbv zeta.
  apply (proj2 (proj2 (proj2 (proj2 (effects_interval p Ws_open [] 0 _))))).
Qed.

Lemma step_interval (s s' : State) (e : Event) :
  step s e = Some s' →
  (∀ p, e ≠ Render p) → e ≠ Unmount →
  interval s' = interval s ∧ isMounted s' = isMounted s.
Proof.
  intros Hstep Hne Hu. destruct e; cbn [step] in Hstep;
    try (by destruct (Hne p)); try done.
  all: repeat case_match; simplify_eq; unfold_handlers; split_cases; done.
Qed.

Lemma requestSide_isMounted (s s' : State) :
  requestSide s' = requestSide s → isMounted s' = isMounted s.
Proof. unfold requestSide. intros H. injection H. intros. assumption. Qed.

Lemma run_interval (s0 s : State) (es : list Event) :
  interval s0 = isMounted s0 && refreshes (props s0) →
  run s0 es = Some s →
  interval s = isMounted s && refreshes (props s).
Proof.
  revert s0. induction es as [|e es IH]; intros s0 H0 Hrun.
  - cbn [run] in Hrun. by injection Hrun as <-.
  - rewrite run_cons in Hrun. destruct (step s0 e) as [s1|] eqn:Hstep; [|done].
    cbn in Hrun. apply (IH s1); [|done]. clear IH Hrun.
    pose proof (step_props _ _ _ Hstep) as Hp.
    destruct e;
      try (destruct (step_interval _ _ _ Hstep ltac:(done) ltac:(done)) as [-> ->];
           by rewrite Hp).
    + cbn [step] in Hstep. destruct (isMounted s0) eqn:Hm; [|done].
      injection Hstep as <-.
      rewrite render_interval, render_props.
      rewrite (requestSide_isMounted _ _ (render_requestSide p s0)), Hm.
      case_bool_decide as Hd; [|done].
      rewrite H0. cbn [andb]. unfold refreshes.
      unfold refreshDeps in Hd. injection Hd as -> ->. done.
    + cbn [step] in Hstep. destruct (isMounted s0); [|done].
      injection Hstep as <-.
      destruct (unmount_effect s0) as (-> & _). unfold unmount. done.
Qed.

Lemma mount_interval_inv (p : Options) (t0 : Z) :
  interval (mount p t0) = isMounted (mount p t0) && refreshes (props (mount p t0)).
Proof.
  rewrite mount_interval, mount_props.
  by rewrite (requestSide_isMounted _ _ (mount_requestSide p t0)).
Qed.

(** X8.  The interval of auto refresh is set exactly while the owner is alive,
    [autoRefresh] is not zero and no [wsUrl] is given; so a tick happens
    in such a state only, and it calls [fetchDataRef.current()]: the
    callback of the latest render that changed a dependency, with no
    attempts made. *)
Theorem auto_refresh_when_configured
    (p : Options) (t0 : Z) (es : list Event) (s : State) :
  run (mount p t0) es = Some s →
  interval s = isMounted s && refreshes (props s)
  ∧ ∀ s', step s IntervalTick = Some s' →
      isMounted s = true
      ∧ autoRefresh (props s) ≠ 0
      ∧ truthy (wsUrl (props s)) = false
      ∧ s' = fetchData (fetchDataRef s) 0 s.
Proof.
  intros Hrun.
  pose proof (run_interval _ _ _ (mount_interval_inv p t0) Hrun) as Hinv.
  split; [exact Hinv|].
  intros s' Hstep. cbn [step] in Hstep.
  destruct (interval s); [|done]. injection Hstep as <-.
  symmetry in Hinv. apply andb_true_iff in Hinv as [Hm Hr].
  unfold refreshes in Hr. apply andb_true_iff in Hr as [Ha Hw].
  apply negb_true_iff in Ha, Hw. apply Z.eqb_neq in Ha. done.
Qed.

(** ** One pending fetch, one live call *)

Section Owned.

Context {A : Type} (id : A → nat).

Lemma owned_nil (P : A → Prop) (next : nat) (ref : option nat) :
  owned id P [] next ref.
Proof.
  split; [constructor|]. split; intros x Hx; by apply not_elem_of_nil in Hx.
Qed.

Lemma owned_filter (P Q : A → Prop) `{∀ x, Decision (Q x)}
    (l : list A) (next : nat) (ref : option nat) :
  owned id P l next ref → owned id P (filter Q l) next ref.
Proof.
  intros (Hnd & Hlt & Href). split; [|split].
  - apply (sublist_NoDup (id <$> filter Q l) (id <$> l));
      first [exact Hnd | apply fmap_sublist, sublist_filter].
  - intros x [_ Hx]%list_elem_of_filter. by apply Hlt.
  - intros x [_ Hx]%list_elem_of_filter. by apply Href.
Qed.

Lemma owned_weaken (P P' : A → Prop) (l : list A) (next : nat) (ref : option nat) :
  (∀ x, x ∈ l → P' x → P x) → owned id P l next ref → owned id P' l next ref.
Proof.
  intros HP (Hnd & Hlt & Href). split; [done|]. split; [done|].
  intros x Hx Hp. apply Href; [done|]. by apply HP.
Qed.

Lemma owned_fresh (l : list A) (next : nat) (x : A) :
  (∀ y, y ∈ l → (id y < next)%nat) → id x = next → NoDup (id <$> l) →
  NoDup (id <$> (l ++ [x])).
Proof.
  intros Hlt Hid Hnd. rewrite fmap_app. apply NoDup_app. split; [done|].
  split; [|apply NoDup_singleton].
  intros k (y & -> & Hy)%list_elem_of_fmap_1 Hk.
  apply list_elem_of_singleton in Hk. specialize (Hlt y Hy). lia.
Qed.

(** A new item that does not satisfy [P] leaves the ref as it is. *)
Lemma owned_add_other (P : A → Prop) (l : list A) (next : nat) (ref : option nat)
    (x : A) :
  id x = next → ¬ P x →
  owned id P l next ref → owned id P (l ++ [x]) (S next) ref.
Proof.
  intros Hid Hx (Hnd & Hlt & Href). split; [by apply (owned_fresh l next)|].
  split.
  - intros y [Hy| ->%list_elem_of_singleton]%elem_of_app; [|lia].
    specialize (Hlt y Hy). lia.
  - intros y [Hy| ->%list_elem_of_singleton]%elem_of_app Hp; [by apply Href|done].
Qed.

(** When no item satisfies [P] any more, a new one may, and the ref holds
    its number. *)
Lemma owned_push (P : A → Prop) (l : list A) (next : nat) (ref : option nat)
    (x : A) :
  id x = next → (∀ y, y ∈ l → ¬ P y) →
  owned id P l next ref → owned id P (l ++ [x]) (S next) (Some next).
Proof.
  intros Hid Hno (Hnd & Hlt & Href). split; [by apply (owned_fresh l next)|].
  split.
  - intros y [Hy| ->%list_elem_of_singleton]%elem_of_app; [|lia].
    specialize (Hlt y Hy). lia.
  - intros y [Hy| ->%list_elem_of_singleton]%elem_of_app Hp;
      [by destruct (Hno y Hy)|by rewrite Hid].
Qed.

Lemma owned_length (P : A → Prop) `{∀ x, Decision (P x)}
    (l : list A) (next : nat) (ref : option nat) :
  owned id P l next ref → (length (filter P l) ≤ 1)%nat.
Proof.
  intros (Hnd & _ & Href).
  induction l as [|x l IH]; [cbn; lia|].
  apply NoDup_cons in Hnd as [Hx Hnd].
  assert (length (filter P l) ≤ 1)%nat as Hl.
  { apply IH; [done|]. intros y Hy. apply Href. by apply elem_of_cons; right. }
  rewrite filter_cons. destruct (decide (P x)) as [Hp|]; [|done].
  destruct (filter P l) as [|y l'] eqn:Hf; [cbn; lia|].
  assert (y ∈ filter P l) as [Hpy Hy]%list_elem_of_filter
    by (rewrite Hf; apply elem_of_cons; by left).
  assert (Some (id x) = Some (id y)) as [= Heq].
  { rewrite <- (Href x), <- (Href y); try done.
    - apply elem_of_cons; by right.
    - apply elem_of_cons; by left. }
  destruct Hx. rewrite Heq. by apply list_elem_of_fmap_2.
Qed.

End Owned.

(** *** Timers *)

Lemma timerInv_ext (s s' : State) :
  timerSide s' = timerSide s → timerInv s → timerInv s'.
Proof. unfold timerSide, timerInv. intros [= -> -> ->]. done. Qed.

Lemma clearTimeout_timerInv (t : nat) (s : State) :
  timerInv s → timerInv (clearTimeout t s).
Proof. intros H. unfold timerInv, clearTimeout. state_simpl. by apply owned_filter. Qed.

Lemma setTimeout_timerInv (cb : Callback) (d : Z) (s : State) :
  ¬ isFetch cb → timerInv s → timerInv (setTimeout cb d s).
Proof.
  intros Hcb H. unfold timerInv, setTimeout. state_simpl.
  by apply owned_add_other.
Qed.

Lemma fetchData_timerInv (c : Closure) (a : Z) (s : State) :
  timerInv s → timerInv (fetchData c a s).
Proof.
  intros H. unfold fetchData. cbv zeta.
  set (s1 := match timeoutRef s with Some t => clearTimeout t s | None => s end).
  assert (timerInv s1 ∧ ∀ y, y ∈ timers s1 → ¬ isFetch (t_cb y)) as [H1 Hno].
  { subst s1. destruct (timeoutRef s) as [t|] eqn:Ht.
    - split; [by apply clearTimeout_timerInv|].
      unfold clearTimeout. state_simpl.
      intros y [Hne Hy]%list_elem_of_filter Hf.
      destruct H as (_ & _ & Href). specialize (Href y Hy Hf).
      rewrite Ht in Href. by injection Href as ->.
    - split; [done|]. intros y Hy Hf.
      destruct H as (_ & _ & Href). specialize (Href y Hy Hf). congruence. }
  unfold timerInv, setTimeout. state_simpl. by eapply owned_push.
Qed.

Lemma flushQueue_timerSide (ws : WsState) (queue : list Json) (s : State) :
  timerSide (flushQueue ws queue s) = timerSide s.
Proof.
  unfold flushQueue. split_cases; try done.
  by rewrite foldl_wsSend.
Qed.

Lemma handlers_timerSide (s : State) :
  timerSide (closeWebSocket s) = timerSide s
  ∧ timerSide (abortCurrent s) = timerSide s
  ∧ (∀ n, timerSide (connectWebSocket n s) = timerSide s)
  ∧ (∀ c a r, timerSide (startRequest c a r s) = timerSide s)
  ∧ (∀ p, timerSide (socketEffect p s) = timerSide s)
  ∧ (∀ p, timerSide (refreshEffect p s) = timerSide s)
  ∧ (∀ ws queue qid, timerSide (queueEffect ws queue qid s) = timerSide s).
Proof.
  repeat split; intros; try (unfold_handlers; split_cases; done).
  unfold queueEffect. case_match; [done|].
  change (timerSide (set_flushDeps ?d ?x)) with (timerSide x).
  apply flushQueue_timerSide.
Qed.

Lemma autoFetchEffect_timerInv (p : Options) (s : State) :
  timerInv s → timerInv (autoFetchEffect p s).
Proof.
  intros H. unfold autoFetchEffect. destruct (_ && _); [|done].
  by apply fetchData_timerInv.
Qed.

Ltac keep_timers :=
  repeat first
    [ assumption
    | apply autoFetchEffect_timerInv
    | apply fetchData_timerInv
    | apply clearTimeout_timerInv
    | apply (timerInv_ext _ _ (proj1 (handlers_timerSide _)))
    | apply (timerInv_ext _ _ (proj1 (proj2 (handlers_timerSide _))))
    | apply (timerInv_ext _ _ (proj1 (proj2 (proj2 (handlers_timerSide _))) _))
    | apply (timerInv_ext _ _ (proj1 (proj2 (proj2 (proj2 (handlers_timerSide _)))) _ _ _))
    | apply (timerInv_ext _ _
               (proj1 (proj2 (proj2 (proj2 (proj2 (handlers_timerSide _))))) _))
    | apply (timerInv_ext _ _
               (proj1 (proj2 (proj2 (proj2 (proj2 (proj2 (handlers_timerSide _)))))) _))
    | apply (timerInv_ext _ _
               (proj2 (proj2 (proj2 (proj2 (proj2 (proj2 (handlers_timerSide _)))))) _ _ _))
    | match goal with
      | |- timerInv (if ?b then _ else _) => destruct b
      | |- timerInv (match ?o with Some _ => _ | None => _ end) => destruct o
      | |- timerInv (set_props _ ?x) => apply (timerInv_ext _ x eq_refl)
      | |- timerInv (set_memo _ ?x) => apply (timerInv_ext _ x eq_refl)
      | |- timerInv (set_interval _ ?x) => apply (timerInv_ext _ x eq_refl)
      | |- timerInv (set_fetchDataRef _ ?x) => apply (timerInv_ext _ x eq_refl)
      | |- timerInv (set_isMounted _ ?x) => apply (timerInv_ext _ x eq_refl)
      | |- timerInv (set_now _ ?x) => apply (timerInv_ext _ x eq_refl)
      | |- timerInv (wsClose _ ?x) => apply (timerInv_ext _ x eq_refl)
      end ].

Lemma render_timerInv (p : Options) (s : State) :
  timerInv s → timerInv (render p s).
Proof. intros H. unfold render. cbv zeta. keep_timers. Qed.

Lemma unmount_timerInv (s : State) : timerInv s → timerInv (unmount s).
Proof. intros H. unfold unmount. cbv zeta. keep_timers. Qed.

Lemma mount_timerInv (p : Options) (t0 : Z) : timerInv (mount p t0).
Proof.
  assert (timerInv (initial p t0)) as H by apply owned_nil.
  unfold mount. cbv zeta. keep_timers.
Qed.

Lemma step_timerInv (s s' : State) (e : Event) :
  step s e = Some s' → timerInv s → timerInv s'.
Proof.
  intros Hstep H. destruct e; cbn [step] in Hstep.
  - destruct (isMounted s); [|done]. injection Hstep as <-.
    by apply render_timerInv.
  - destruct (isMounted s); [|done]. injection Hstep as <-.
    by apply unmount_timerInv.
  - injection Hstep as <-. unfold refetch. keep_timers.
  - injection Hstep as <-. unfold cancel. keep_timers.
  - injection Hstep as <-. apply (timerInv_ext s); [|done].
    unfold sendMessage, wsSend, setWsMessagesQueue. by destruct (openHandle s).
  - injection Hstep as <-. keep_timers.
  - destruct (interval s); [|done]. injection Hstep as <-.
    unfold refetch. keep_timers.
  - destruct (0 <=? dt); [|done]. injection Hstep as <-. keep_timers.
  - destruct (findTimer t s) as [tm|]; [|done].
    destruct (t_due tm <=? now s); [|done]. injection Hstep as <-.
    destruct (t_cb tm); cbn [runCallback]; keep_timers.
  - destruct (findRequest k s) as [r|]; [|done].
    destruct (settles k o s); [|done]. injection Hstep as <-.
    assert (timerInv (dropRequest k s)) as Hd by (by apply (timerInv_ext s)).
    revert Hd. generalize (dropRequest k s). clear. intros s H.
    unfold settle. cbv zeta.
    assert (∀ b x, timerInv x → timerInv (if b : bool then set_loading false x else x))
      as Hfin by (intros [] x Hx; [by apply (timerInv_ext x)|done]).
    apply Hfin. destruct o; [| |done].
    + destruct (isCurrent _ _); [by apply (timerInv_ext s)|done].
    + destruct (_ <? _); [by apply setTimeout_timerInv; [intros []|]|].
      destruct (isCurrent _ _); [|done].
      destruct (errorMessage e); [by apply (timerInv_ext s)|done].
  - destruct (sockets s !! i) as [k|]; [|done].
    case_bool_decide; [|done]. injection Hstep as <-. by apply (timerInv_ext s).
  - destruct (sockets s !! i) as [k|]; [|done].
    case_bool_decide; [|done]. injection Hstep as <-.
    apply (timerInv_ext s); [|done]. unfold onmessage. by repeat case_match.
  - destruct (sockets s !! i) as [k|]; [|done].
    case_bool_decide; [done|]. injection Hstep as <-. by apply (timerInv_ext s).
  - destruct (sockets s !! i) as [k|]; [|done].
    destruct (ws_closeFired k); [done|]. injection Hstep as <-.
    assert (timerInv (setSocketClosed i s)) as Hd by (by apply (timerInv_ext s)).
    revert Hd. generalize (setSocketClosed i s). clear. intros s H.
    unfold onclose. cbv zeta.
    destruct (runs _ !! _); [|by apply (timerInv_ext s)].
    destruct (_ && _); [|by apply (timerInv_ext s)].
    apply setTimeout_timerInv; [by intros []|]. by apply (timerInv_ext s).
  - destruct (sockets s !! i) as [k|]; [|done].
    case_bool_decide; [|done]. injection Hstep as <-. by apply (timerInv_ext s).
Qed.

(** X3.  Debouncing.  At any time at most one fetch waits for its timer, and
    [timeoutRef] holds that timer: every [fetchData] clears the timer of
    the fetch before it, whoever asked for it (the first render, [refetch],
    auto refresh or a retry). *)
Theorem one_pending_fetch (p : Options) (t0 : Z) (es : list Event) (s : State) :
  run (mount p t0) es = Some s →
  (length (pendingFetches s) ≤ 1)%nat
  ∧ ∀ t, t ∈ pendingFetches s → timeoutRef s = Some (t_id t).
Proof.
  intros Hrun.
  assert (timerInv s) as Hinv.
  { pose proof (mount_timerInv p t0) as H0.
    revert H0 Hrun. generalize (mount p t0). clear.
    induction es as [|e es IH]; intros s0 H0 Hrun.
    - cbn [run] in Hrun. by injection Hrun as <-.
    - rewrite run_cons in Hrun. destruct (step s0 e) as [s1|] eqn:Hstep; [|done].
      cbn in Hrun. apply (IH s1); [|done]. by eapply step_timerInv. }
  split; [by eapply owned_length|].
  intros t [Hf Ht]%list_elem_of_filter.
  destruct Hinv as (_ & _ & Href). by apply Href.
Qed.

(** *** Calls in flight *)

Lemma callInv_ext (s s' : State) :
  callSide s' = callSide s → callInv s → callInv s'.
Proof. unfold callSide, callInv. intros [= -> -> -> ->]. done. Qed.

Lemma requestSide_callSide (s s' : State) :
  requestSide s' = requestSide s → callSide s' = callSide s.
Proof.
  unfold requestSide, callSide. intros H. injection H. intros. congruence.
Qed.

(** After [abort()] on the controller in the ref, every call in flight is
    an aborted one. *)
Lemma abortCurrent_callInv (s : State) :
  callInv s →
  callInv (abortCurrent s)
  ∧ ∀ r, r ∈ inflight (abortCurrent s) → r_controller r ∈ aborted (abortCurrent s).
Proof.
  intros H. pose proof H as (_ & _ & Href).
  unfold abortCurrent. destruct (abortControllerRef s) as [k|] eqn:Hk.
  - unfold isAborted. case_bool_decide as Hab.
    + split; [done|]. intros r Hr.
      destruct (decide (r_controller r ∈ aborted s)) as [|Hn]; [done|].
      specialize (Href r Hr Hn). by simplify_eq.
    + split.
      * unfold callInv. state_simpl. rewrite Hk.
        eapply owned_weaken; [|rewrite <- Hk; exact H].
        intros r _ Hr Hin. apply Hr. by apply elem_of_cons; right.
      * state_simpl. intros r Hr. apply elem_of_cons.
        destruct (decide (r_controller r ∈ aborted s)) as [|Hn]; [by right|].
        specialize (Href r Hr Hn). left. by simplify_eq.
  - split; [done|]. intros r Hr.
    destruct (decide (r_controller r ∈ aborted s)) as [|Hn]; [done|].
    specialize (Href r Hr Hn). congruence.
Qed.

Lemma startRequest_callInv (c : Closure) (a id : Z) (s : State) :
  callInv s → callInv (startRequest c a id s).
Proof.
  intros H. unfold startRequest. destruct (isMounted s); [|done].
  cbn [negb]. cbv zeta.
  assert (callInv (set_error None (set_loading true s))) as H1
    by (by apply (callInv_ext s)).
  destruct (abortCurrent_callInv _ H1) as [H2 Hall].
  revert H2 Hall. generalize (abortCurrent (set_error None (set_loading true s))).
  clear. intros s H Hall.
  unfold callInv. state_simpl. eapply owned_push; [done| |exact H].
  intros r Hr Hn. by apply Hn, Hall.
Qed.

Lemma dropRequest_callInv (k : nat) (s : State) : callInv s → callInv (dropRequest k s).
Proof. intros H. unfold callInv, dropRequest. state_simpl. by apply owned_filter. Qed.

Lemma flushQueue_callSide (ws : WsState) (queue : list Json) (s : State) :
  callSide (flushQueue ws queue s) = callSide s.
Proof. apply requestSide_callSide, flushQueue_requestSide. Qed.

Lemma handlers_callSide (s : State) :
  callSide (closeWebSocket s) = callSide s
  ∧ (∀ n, callSide (connectWebSocket n s) = callSide s)
  ∧ (∀ n, callSide (onclose n s) = callSide s)
  ∧ (∀ c a, callSide (fetchData c a s) = callSide s)
  ∧ (∀ m, callSide (sendMessage m s) = callSide s)
  ∧ (∀ d, callSide (onmessage d s) = callSide s)
  ∧ (∀ r o, callSide (settle r o s) = callSide s).
Proof.
  repeat split; intros; unfold_handlers; split_cases; done.
Qed.

Lemma unmount_callInv (s : State) : callInv s → callInv (unmount s).
Proof.
  intros H. unfold unmount. cbv zeta.
  assert (callInv (abortCurrent (set_isMounted false s))) as H1.
  { apply abortCurrent_callInv. by apply (callInv_ext s). }
  revert H1. generalize (abortCurrent (set_isMounted false s)).
  clear H. intros s1 H.
  repeat first
    [ assumption
    | match goal with
      | |- callInv (if ?b then _ else _) => destruct b
      | |- callInv (match ?o with Some _ => _ | None => _ end) => destruct o
      | |- callInv (set_interval _ ?x) => apply (callInv_ext x _ eq_refl)
      | |- callInv (wsClose _ ?x) => apply (callInv_ext x _ eq_refl)
      | |- callInv (clearTimeout _ ?x) => apply (callInv_ext x _ eq_refl)
      | |- callInv (closeWebSocket ?x) =>
          apply (callInv_ext x _ (proj1 (handlers_callSide x)))
      end ].
Qed.

Lemma step_callInv (s s' : State) (e : Event) :
  step s e = Some s' → callInv s → callInv s'.
Proof.
  intros Hstep H. destruct e; cbn [step] in Hstep.
  - destruct (isMounted s); [|done]. injection Hstep as <-.
    apply (callInv_ext s); [|done]. apply requestSide_callSide, render_requestSide.
  - destruct (isMounted s); [|done]. injection Hstep as <-.
    by apply unmount_callInv.
  - injection Hstep as <-. apply (callInv_ext s); [|done].
    unfold refetch. apply handlers_callSide.
  - injection Hstep as <-. unfold cancel. by apply abortCurrent_callInv.
  - injection Hstep as <-. apply (callInv_ext s); [|done]. apply handlers_callSide.
  - injection Hstep as <-. apply (callInv_ext s); [|done]. apply handlers_callSide.
  - destruct (interval s); [|done]. injection Hstep as <-.
    apply (callInv_ext s); [|done]. unfold refetch. apply handlers_callSide.
  - destruct (0 <=? dt); [|done]. injection Hstep as <-. by apply (callInv_ext s).
  - destruct (findTimer t s) as [tm|]; [|done].
    destruct (t_due tm <=? now s); [|done]. injection Hstep as <-.
    assert (callInv (clearTimeout t s)) as H1 by (by apply (callInv_ext s)).
    destruct (t_cb tm); cbn [runCallback].
    + by apply startRequest_callInv.
    + apply (callInv_ext (clearTimeout t s)); [|done]. apply handlers_callSide.
    + apply (callInv_ext (clearTimeout t s)); [|done]. apply handlers_callSide.
  - destruct (findRequest k s) as [r|]; [|done].
    destruct (settles k o s); [|done]. injection Hstep as <-.
    apply (callInv_ext (dropRequest k s)); [apply handlers_callSide|].
    by apply dropRequest_callInv.
  - destruct (sockets s !! i) as [k|]; [|done].
    case_bool_decide; [|done]. injection Hstep as <-. by apply (callInv_ext s).
  - destruct (sockets s !! i) as [k|]; [|done].
    case_bool_decide; [|done]. injection Hstep as <-.
    apply (callInv_ext s); [|done]. apply handlers_callSide.
  - destruct (sockets s !! i) as [k|]; [|done].
    case_bool_decide; [done|]. injection Hstep as <-. by apply (callInv_ext s).
  - destruct (sockets s !! i) as [k|]; [|done].
    destruct (ws_closeFired k); [done|]. injection Hstep as <-.
    apply (callInv_ext (setSocketClosed i s)); [apply handlers_callSide|].
    by apply (callInv_ext s).
  - destruct (sockets s !! i) as [k|]; [|done].
    case_bool_decide; [|done]. injection Hstep as <-. by apply (callInv_ext s).
Qed.

Lemma mount_callInv (p : Options) (t0 : Z) : callInv (mount p t0).
Proof.
  apply (callInv_ext (initial p t0));
    [apply requestSide_callSide, mount_requestSide|apply owned_nil].
Qed.

(** X4.  Cancellation of superseded calls.  At any time at most one call in
    flight has a signal that was not aborted, and it is the call of the
    controller in [abortControllerRef]: the timer callback aborts the
    controller in the ref before it makes a new one.  So [cancel()] leaves no
    call in flight that was not aborted. *)
Theorem one_live_call (p : Options) (t0 : Z) (es : list Event) (s : State) :
  run (mount p t0) es = Some s →
  (length (liveCalls s) ≤ 1)%nat
  ∧ (∀ r, r ∈ liveCalls s → abortControllerRef s = Some (r_controller r))
  ∧ liveCalls (cancel s) = [].
Proof.
  intros Hrun.
  assert (callInv s) as Hinv.
  { pose proof (mount_callInv p t0) as H0.
    revert H0 Hrun. generalize (mount p t0). clear.
    induction es as [|e es IH]; intros s0 H0 Hrun.
    - cbn [run] in Hrun. by injection Hrun as <-.
    - rewrite run_cons in Hrun. destruct (step s0 e) as [s1|] eqn:Hstep; [|done].
      cbn in Hrun. apply (IH s1); [|done]. by eapply step_callInv. }
  split; [|split].
  - unfold liveCalls. by eapply owned_length.
  - intros r [Hf Hr]%list_elem_of_filter.
    destruct Hinv as (_ & _ & Href). by apply Href.
  - destruct (abortCurrent_callInv s Hinv) as [_ Hall].
    unfold cancel, liveCalls.
    destruct (filter _ _) as [|r l] eqn:Hf; [done|].
    assert (r ∈ r :: l) as Hin by (apply elem_of_cons; by left).
    rewrite <- Hf in Hin. apply list_elem_of_filter in Hin as [Hn Hr].
    destruct Hn. by apply Hall.
Qed.

(** ** Socket mode fetches nothing *)

Lemma noFetch_ext (s s' : State) :
  fetchSide s' = fetchSide s → noFetch s → noFetch s'.
Proof. unfold fetchSide, noFetch. intros [= -> -> -> -> ->]. done. Qed.

Lemma flushQueue_fetchSide (ws : WsState) (queue : list Json) (s : State) :
  fetchSide (flushQueue ws queue s) = fetchSide s.
Proof.
  unfold flushQueue. split_cases; try done.
  by rewrite foldl_wsSend.
Qed.

Lemma handlers_fetchSide (s : State) :
  fetchSide (closeWebSocket s) = fetchSide s
  ∧ fetchSide (abortCurrent s) = fetchSide s
  ∧ (∀ n, fetchSide (connectWebSocket n s) = fetchSide s)
  ∧ (∀ m, fetchSide (sendMessage m s) = fetchSide s)
  ∧ (∀ d, fetchSide (onmessage d s) = fetchSide s)
  ∧ (∀ p, fetchSide (socketEffect p s) = fetchSide s)
  ∧ (∀ p, fetchSide (refreshEffect p s) = fetchSide s)
  ∧ (∀ ws queue qid, fetchSide (queueEffect ws queue qid s) = fetchSide s)
  ∧ (∀ p, truthy (wsUrl p) = true → fetchSide (autoFetchEffect p s) = fetchSide s).
Proof.
  repeat split; intros; try (unfold_handlers; split_cases; done).
  - unfold queueEffect. case_match; [done|].
    change (fetchSide (set_flushDeps ?d ?x)) with (fetchSide x).
    apply flushQueue_fetchSide.
  - unfold autoFetchEffect. match goal with H : _ = true |- _ => rewrite H end.
    by rewrite andb_false_r.
Qed.

Lemma noFetch_filter (P : Timer → Prop) `{∀ t, Decision (P t)} (s : State) :
  noFetch s → noFetch (set_timers (filter P (timers s)) s).
Proof.
  intros (H1 & H2 & H3 & H4 & H5). repeat split; try done.
  state_simpl. intros t [_ Ht]%list_elem_of_filter. by apply H2.
Qed.

Lemma onclose_noFetch (n : nat) (s : State) : noFetch s → noFetch (onclose n s).
Proof.
  intros H. unfold onclose. cbv zeta.
  destruct (runs _ !! _); [|by apply (noFetch_ext s)].
  destruct (_ && _); [|by apply (noFetch_ext s)].
  destruct H as (H1 & H2 & H3 & H4 & H5).
  unfold setTimeout. repeat split; state_simpl; try done.
  - intros t [Ht| ->%list_elem_of_singleton]%elem_of_app; [by apply H2|done].
  - intros c [Hc| ->%list_elem_of_singleton]%elem_of_app; [by apply H3|by eexists _, _].
Qed.

Ltac keep_noFetch :=
  repeat first
    [ assumption
    | match goal with
      | |- noFetch (if ?b then _ else _) => destruct b
      | |- noFetch (match ?o with Some _ => _ | None => _ end) => destruct o
      | |- noFetch (clearTimeout _ ?x) => apply (noFetch_filter _ x)
      | |- noFetch (closeWebSocket ?x) =>
          apply (noFetch_ext x _ (proj1 (handlers_fetchSide x)))
      | |- noFetch (abortCurrent ?x) =>
          apply (noFetch_ext x _ (proj1 (proj2 (handlers_fetchSide x))))
      | |- noFetch (socketEffect ?p ?x) =>
          apply (noFetch_ext x _
                   (proj1 (proj2 (proj2 (proj2 (proj2 (proj2 (handlers_fetchSide x)))))) p))
      | |- noFetch (refreshEffect ?p ?x) =>
          apply (noFetch_ext x _
                   (proj1 (proj2 (proj2 (proj2 (proj2 (proj2 (proj2
                      (handlers_fetchSide x))))))) p))
      | |- noFetch (queueEffect ?a ?b ?c ?x) =>
          apply (noFetch_ext x _
                   (proj1 (proj2 (proj2 (proj2 (proj2 (proj2 (proj2 (proj2
                      (handlers_fetchSide x)))))))) a b c))
      | H : truthy (wsUrl ?p) = true |- noFetch (autoFetchEffect ?p ?x) =>
          apply (noFetch_ext x _
                   (proj2 (proj2 (proj2 (proj2 (proj2 (proj2 (proj2 (proj2
                      (handlers_fetchSide x)))))))) p H))
      | |- noFetch (set_props _ ?x) => apply (noFetch_ext x _ eq_refl)
      | |- noFetch (set_memo _ ?x) => apply (noFetch_ext x _ eq_refl)
      | |- noFetch (set_interval _ ?x) => apply (noFetch_ext x _ eq_refl)
      | |- noFetch (set_fetchDataRef _ ?x) => apply (noFetch_ext x _ eq_refl)
      | |- noFetch (set_isMounted _ ?x) => apply (noFetch_ext x _ eq_refl)
      | |- noFetch (wsClose _ ?x) => apply (noFetch_ext x _ eq_refl)
      end ].

Lemma render_noFetch (p : Options) (s : State) :
  truthy (wsUrl p) = true → noFetch s → noFetch (render p s).
Proof. intros Hws H. unfold render. cbv zeta. keep_noFetch. Qed.

Lemma unmount_noFetch (s : State) : noFetch s → noFetch (unmount s).
Proof. intros H. unfold unmount. cbv zeta. keep_noFetch. Qed.

Lemma mount_noFetch (p : Options) (t0 : Z) :
  truthy (wsUrl p) = true → noFetch (mount p t0).
Proof.
  intros Hws.
  assert (noFetch (initial p t0)) as H.
  { repeat split; cbn; intros x Hx; by apply not_elem_of_nil in Hx. }
  unfold mount. cbv zeta. keep_noFetch.
Qed.

Lemma findTimer_elem (t : nat) (s : State) (tm : Timer) :
  findTimer t s = Some tm → tm ∈ timers s.
Proof.
  unfold findTimer. intros [Hin _]%find_some. by apply list_elem_of_In.
Qed.

Lemma step_noFetch (s s' : State) (e : Event) :
  keepsSocketMode e →
  step s e = Some s' →
  interval s = false → noFetch s → noFetch s'.
Proof.
  intros He Hstep Hi H. destruct e; cbn [step] in Hstep; cbn [keepsSocketMode] in He.
  - destruct (isMounted s); [|done]. injection Hstep as <-.
    by apply render_noFetch.
  - destruct (isMounted s); [|done]. injection Hstep as <-.
    by apply unmount_noFetch.
  - done.
  - injection Hstep as <-. unfold cancel. keep_noFetch.
  - injection Hstep as <-.
    apply (noFetch_ext s); [|done]. apply handlers_fetchSide.
  - injection Hstep as <-. keep_noFetch.
  - by rewrite Hi in Hstep.
  - destruct (0 <=? dt); [|done]. injection Hstep as <-. by apply (noFetch_ext s).
  - destruct (findTimer t s) as [tm|] eqn:Hf; [|done].
    destruct (t_due tm <=? now s); [|done]. injection Hstep as <-.
    pose proof H as (_ & Ht & _). specialize (Ht tm (findTimer_elem _ _ _ Hf)).
    destruct (t_cb tm); try done. cbn [runCallback].
    apply (noFetch_ext (clearTimeout t s)); [apply handlers_fetchSide|].
    keep_noFetch.
  - destruct H as (H1 & _). unfold findRequest in Hstep. by rewrite H1 in Hstep.
  - destruct (sockets s !! i) as [k|]; [|done].
    case_bool_decide; [|done]. injection Hstep as <-. by apply (noFetch_ext s).
  - destruct (sockets s !! i) as [k|]; [|done].
    case_bool_decide; [|done]. injection Hstep as <-.
    apply (noFetch_ext s); [|done]. apply handlers_fetchSide.
  - destruct (sockets s !! i) as [k|]; [|done].
    case_bool_decide; [done|]. injection Hstep as <-. by apply (noFetch_ext s).
  - destruct (sockets s !! i) as [k|]; [|done].
    destruct (ws_closeFired k); [done|]. injection Hstep as <-.
    apply onclose_noFetch. by apply (noFetch_ext s).
  - destruct (sockets s !! i) as [k|]; [|done].
    case_bool_decide; [|done]. injection Hstep as <-. by apply (noFetch_ext s).
Qed.

Lemma run_socketMode (p : Options) (t0 : Z) (es : list Event) (s : State) :
  truthy (wsUrl p) = true →
  Forall keepsSocketMode es →
  run (mount p t0) es = Some s →
  truthy (wsUrl (props s)) = true ∧ noFetch s ∧ interval s = false.
Proof.
  intros Hws Hes Hrun.
  assert (truthy (wsUrl (props s)) = true ∧ noFetch s) as [Hw Hinv].
  { assert (truthy (wsUrl (props (mount p t0))) = true) as Hw0
      by (by rewrite mount_props).
    pose proof (mount_noFetch p t0 Hws) as H0.
    pose proof (mount_interval_inv p t0) as Hi0.
    revert Hw0 H0 Hi0 Hrun. generalize (mount p t0). clear Hws.
    induction Hes as [|e es He Hes IH]; intros s0 Hw0 H0 Hi0 Hrun.
    - cbn [run] in Hrun. by injection Hrun as <-.
    - rewrite run_cons in Hrun. destruct (step s0 e) as [s1|] eqn:Hstep; [|done].
      cbn in Hrun.
      assert (interval s0 = false) as Hi.
      { rewrite Hi0. unfold refreshes. rewrite Hw0. cbn [negb].
        by rewrite !andb_false_r. }
      apply (IH s1); [| | |done].
      + rewrite (step_props _ _ _ Hstep). by destruct e.
      + by eapply step_noFetch.
      + eapply (run_interval s0 s1 [e]); [done|]. cbn [run]. by rewrite Hstep. }
  pose proof (run_interval _ _ _ (mount_interval_inv p t0) Hrun) as Hi.
  split; [done|]. split; [done|].
  rewrite Hi. unfold refreshes. rewrite Hw. cbn [negb]. by rewrite !andb_false_r.
Qed.

(** X7.  With a [wsUrl] at every render the hook makes no HTTP call of its own:
    the auto fetch effect and the auto refresh effect do nothing, so as
    long as the owner does not call [refetch()] no call is made, no fetch
    waits for a timer, and [data] and [loading] stay as initialised. *)
Theorem socket_mode_fetches_nothing
    (p : Options) (t0 : Z) (es : list Event) (s : State) :
  truthy (wsUrl p) = true →
  Forall keepsSocketMode es →
  run (mount p t0) es = Some s →
  transportCalls s = []
  ∧ pendingFetches s = []
  ∧ inflight s = []
  ∧ interval s = false
  ∧ data s = None
  ∧ loading s = false.
Proof.
  intros Hws Hes Hrun.
  destruct (run_socketMode p t0 es s Hws Hes Hrun) as (Hw & Hinv & Hi).
  destruct Hinv as (H1 & H2 & H3 & H4 & H5).
  repeat split; try done.
  - unfold transportCalls.
    assert (∀ l : list Call, (∀ c, c ∈ l → ∃ n d, c = SetTimeout (CbConnect n) d) →
              omap (λ c, match c with Axios r => Some r | SetTimeout _ _ => None end) l
              = []) as Hnil.
    { induction l as [|c l IHl]; [done|]. intros Hl.
      destruct (Hl c) as (n & d & ->); [by apply elem_of_cons; left|].
      cbn. apply IHl. intros c Hc. apply Hl. by apply elem_of_cons; right. }
    by apply Hnil.
  - unfold pendingFetches.
    destruct (filter _ _) as [|t l] eqn:Hf; [done|].
    assert (t ∈ t :: l) as Hin by (apply elem_of_cons; by left).
    rewrite <- Hf in Hin. apply list_elem_of_filter in Hin as [Hft Ht].
    specialize (H2 t Ht). by destruct (t_cb t).
Qed.

(** *** The error of a message that does not parse *)



(** ** What a render fetches *)

Lemma render_rendered (p : Options) (s : State) :
  rendered (render p s)
  = if bool_decide (fetchDeps p = fetchDeps (props s))
    then (p, memo s, fetchDataRef s)
    else (p, mkClosure p (isFirst s), mkClosure p (isFirst s)).
Proof.
  unfold render. cbv zeta.
  repeat match goal with
         | |- context [bool_decide ?P] => destruct (bool_decide P)
         end;
    repeat first
      [ rewrite (proj1 (effects_rendered p Ws_open [] 0 _))
      | rewrite (proj1 (proj2 (effects_rendered p _ _ _ _)))
      | rewrite (proj1 (proj2 (proj2 (effects_rendered p Ws_open [] 0 _))))
      | rewrite (proj1 (proj2 (proj2 (proj2 (effects_rendered p Ws_open [] 0 _)))))
      | rewrite (proj2 (proj2 (proj2 (proj2 (effects_rendered p Ws_open [] 0 _)))))
      | progress change (rendered (set_interval ?b ?x)) with (rendered x)
      | progress change (rendered (set_fetchDataRef ?c ?x))
          with ((rendered x).1.1, (rendered x).1.2, c)
      | destruct (wsCleanup _) ];
    done.
Qed.

(** X6.  The auto fetch effect depends on [autoFetch] and [wsUrl] only.  A
    render that changes the request ([url], [method], [body], [headers],
    [queryParams], ...) and keeps these two makes no call and sets no timer,
    and publishes nothing; the new request is what the next [refetch()] or
    auto refresh tick asks for, through the new callback in [fetchDataRef],
    which closes over the [isFirst] of this render. *)
Theorem changed_request_fetches_nothing (p : Options) (s : State) :
  autoFetchDeps p = autoFetchDeps (props s) →
  fetchSide (render p s) = fetchSide s
  ∧ error (render p s) = error s
  ∧ latestRequestIdRef (render p s) = latestRequestIdRef s
  ∧ fetchDataRef (render p s)
    = (if bool_decide (fetchDeps p = fetchDeps (props s)) then fetchDataRef s
       else mkClosure p (isFirst s)).
Proof.
  intros Ha. split; [|split; [|split]].
  - unfold render. cbv zeta. rewrite (bool_decide_eq_true_2 _ Ha).
    repeat match goal with
           | |- context [bool_decide ?P] => destruct (bool_decide P)
           end;
      repeat first
        [ rewrite (proj1 (handlers_fetchSide _))
        | rewrite (proj1 (proj2 (proj2 (proj2 (proj2 (proj2 (handlers_fetchSide _)))))) p)
        | rewrite (proj1 (proj2 (proj2 (proj2 (proj2 (proj2 (proj2
                     (handlers_fetchSide _))))))) p)
        | rewrite (proj1 (proj2 (proj2 (proj2 (proj2 (proj2 (proj2 (proj2
                     (handlers_fetchSide _)))))))))
        | progress change (fetchSide (set_interval ?b ?x)) with (fetchSide x)
        | progress change (fetchSide (set_fetchDataRef ?c ?x)) with (fetchSide x)
        | destruct (wsCleanup _) ];
      done.
  - apply requestSide_error, render_requestSide.
  - unfold render. cbv zeta. rewrite (bool_decide_eq_true_2 _ Ha).
    assert (∀ x, latestRequestIdRef (closeWebSocket x) = latestRequestIdRef x) as Hc
      by (intros; unfold_handlers; split_cases; done).
    assert (∀ x, latestRequestIdRef (socketEffect p x) = latestRequestIdRef x) as Hs
      by (intros; unfold_handlers; split_cases; done).
    assert (∀ x, latestRequestIdRef (refreshEffect p x) = latestRequestIdRef x) as Hr
      by (intros; unfold_handlers; split_cases; done).
    assert (∀ a b c x, latestRequestIdRef (queueEffect a b c x) = latestRequestIdRef x)
      as Hq.
    { intros. unfold queueEffect, flushQueue. split_cases; try done.
      by rewrite foldl_wsSend. }
    repeat match goal with
           | |- context [bool_decide ?P] => destruct (bool_decide P)
           end;
      repeat first
        [ rewrite Hc | rewrite Hs | rewrite Hr | rewrite Hq
        | progress change (latestRequestIdRef (set_interval ?b ?x))
            with (latestRequestIdRef x)
        | progress change (latestRequestIdRef (set_fetchDataRef ?c ?x))
            with (latestRequestIdRef x)
        | destruct (wsCleanup _) ];
      done.
  - pose proof (render_rendered p s) as Hr. unfold rendered in Hr.
    destruct (bool_decide _); by injection Hr.
Qed.

(** ** The delay of a retry *)

(** X12.  [min(100 * 2 ^ attempts, 5000)] for the attempts the hook counts, which
    start at zero: the delay doubles from 100 up to 3200 at the fifth
    retry, is 5000 from the sixth on, and never decreases. *)
Theorem retryDelay_bounds (a b : Z) :
  0 ≤ a → a ≤ b →
  100 ≤ retryDelay a
  ∧ retryDelay a ≤ retryDelay b
  ∧ retryDelay b ≤ 5000
  ∧ (a < 6 → retryDelay a = 100 * 2 ^ a ∧ retryDelay (a + 1) = Z.min (2 * retryDelay a) 5000)
  ∧ (6 ≤ a → retryDelay a = 5000).
Proof.
  intros Ha Hab. unfold retryDelay.
  assert (1 ≤ 2 ^ a) as H1 by (apply (Z.pow_le_mono_r 2 0 a); lia).
  assert (2 ^ a ≤ 2 ^ b) as H2 by (apply Z.pow_le_mono_r; lia).
  split; [lia|]. split; [lia|]. split; [lia|]. split.
  - intros Hlt. assert (2 ^ a ≤ 2 ^ 5) as H3 by (apply Z.pow_le_mono_r; lia).
    change (2 ^ 5) with 32 in H3.
    rewrite Z.pow_add_r by lia. change (2 ^ 1) with 2. lia.
  - intros Hge. assert (2 ^ 6 ≤ 2 ^ a) as H3 by (apply Z.pow_le_mono_r; lia).
    change (2 ^ 6) with 64 in H3. lia.
Qed.

(** ** One connection *)

(** X15.  In a hook whose socket props stay as they are, at most one socket has
    not closed, or one reconnect is scheduled, never both; a socket that is
    connecting or open is the one behind [wsRef]; the connection state is
    open whenever the socket behind [wsRef] is; and while the state is open
    the socket behind [wsRef] is open, or closing because the server
    started the closing handshake and the close event is still to come. *)
Theorem one_connection_at_a_time
    (p : Options) (t0 : Z) (es : list Event) (s : State) :
  Forall (keepsSocket p) es →
  run (mount p t0) es = Some s →
  (liveSockets s + pendingConnects s ≤ 1)%nat
  ∧ (∀ i k, sockets s !! i = Some k →
       readyState k = CONNECTING ∨ readyState k = OPEN → wsRef s = Some i)
  ∧ (∀ i, openHandle s = Some i → wsState s = Ws_open)
  ∧ (wsState s = Ws_open →
     ∃ i k, wsRef s = Some i ∧ sockets s !! i = Some k
            ∧ (readyState k = OPEN ∨ readyState k = CLOSING)).
Proof.
  intros Hes Hrun.
  destruct (run_oneConnection p es (mount p t0) s Hes) as [Hoc _];
    [by rewrite mount_props|apply mount_oneConnection|exact Hrun|].
  split; [apply Hoc|]. split; [apply Hoc|]. split; [apply Hoc|apply Hoc].
Qed.

(** X16.  In such a hook, while the connection state is open and the socket
    behind [wsRef] is open, [sendMessage] sends the message at once,
    serialised, on that socket, and leaves the queue and every other socket
    alone; while the state is open and that socket is closing,
    [sendMessage] appends the message to the queue and sends nothing. *)
Theorem open_state_sends_at_once
    (p : Options) (t0 : Z) (es : list Event) (s : State) (m : Json) :
  Forall (keepsSocket p) es →
  run (mount p t0) es = Some s →
  wsState s = Ws_open →
  ∃ i k,
    wsRef s = Some i ∧ sockets s !! i = Some k
    ∧ (readyState k = OPEN
       ∧ sentOn i (sendMessage m s) = sentOn i s ++ [JSON_stringify m]
       ∧ (∀ j, j ≠ i → sentOn j (sendMessage m s) = sentOn j s)
       ∧ wsMessagesQueue (sendMessage m s) = wsMessagesQueue s
       ∨ readyState k = CLOSING
         ∧ wsMessagesQueue (sendMessage m s) = wsMessagesQueue s ++ [m]
         ∧ sockets (sendMessage m s) = sockets s).
Proof.
  intros Hes Hrun Hws.
  destruct (run_oneConnection p es (mount p t0) s Hes) as [Hoc _];
    [by rewrite mount_props|apply mount_oneConnection|exact Hrun|].
  destruct (oc_state_open s Hoc Hws) as (i & k & Hr & Hk & Hst).
  exists i, k. split; [done|]. split; [done|].
  destruct Hst as [Hopen|Hclosing]; [left|right]; (split; [done|]).
  - assert (openHandle s = Some i) as Hh.
    { unfold openHandle. rewrite Hr, Hk. by rewrite bool_decide_eq_true_2. }
    unfold sendMessage. rewrite Hh. unfold wsSend, sentOn. state_simpl.
    split; [|split; [|done]].
    + by rewrite list_lookup_alter_eq, Hk.
    + intros j Hj. by rewrite list_lookup_alter_ne.
  - assert (openHandle s = None) as Hh.
    { unfold openHandle. rewrite Hr, Hk. rewrite bool_decide_eq_false_2; [done|].
      by rewrite Hclosing. }
    by rewrite sendMessage_queues.
Qed.

(** ** The request configuration *)

Lemma objGet_app (k : string) (a b : Obj) :
  objGet k (a ++ b)
  = match objGet k b with
    | Some w => Some w
    | None => objGet k a
    end.
Proof.
  induction a as [|[k' v] a IH]; cbn [app objGet].
  - by destruct (objGet k b).
  - rewrite IH. by destruct (objGet k b).
Qed.

(** X13.  The headers of a call.  A header the caller gives is sent as given, so
    a [Content-Type] of the caller replaces the default; without one,
    [application/json] is sent unless the body is a [FormData], for which no
    [Content-Type] is added; nothing else is added.  The body is attached
    exactly when the method is not GET and the body is truthy. *)
Theorem request_config (h : Heap) (p : Options) (k : nat) :
  let c := buildConfig h p k in
  let given := spreadHeaders h (headers p) in
  (∀ key v, objGet key given = Some v → objGet key (cfg_headers c) = Some v)
  ∧ (∀ key, key ≠ "Content-Type" → objGet key (cfg_headers c) = objGet key given)
  ∧ (objGet "Content-Type" given = None →
       objGet "Content-Type" (cfg_headers c)
       = if isFormData h (body p) then None else Some "application/json")
  ∧ (cfg_data c
     = if negb (bool_decide (method p = GET)) && bodyTruthy h (body p)
       then body p else None)
  ∧ (method p = GET → cfg_data c = None)
  ∧ (cfg_data c = None ∨ cfg_data c = body p)
  ∧ signal c = k.
Proof.
  intros c given.
  assert (cfg_headers c
          = if isFormData h (body p) then [] ++ given
            else [("Content-Type", "application/json")] ++ given) as Hh.
  { subst c given. unfold buildConfig. cbv zeta. by destruct (_ && _). }
  assert (cfg_data c
          = if negb (bool_decide (method p = GET)) && bodyTruthy h (body p)
            then body p else None) as Hd.
  { subst c. unfold buildConfig. cbv zeta. by destruct (_ && _). }
  split; [|split; [|split; [|split; [|split; [|split]]]]].
  - intros key v Hv. rewrite Hh.
    destruct (isFormData h (body p)); by rewrite objGet_app, Hv.
  - intros key Hk. rewrite Hh.
    destruct (isFormData h (body p)); rewrite objGet_app;
      destruct (objGet key given); try done.
    cbn [objGet]. by rewrite (proj2 (String.eqb_neq _ _)) by congruence.
  - intros Hn. rewrite Hh.
    destruct (isFormData h (body p)); by rewrite objGet_app, Hn.
  - exact Hd.
  - intros Hm. rewrite Hd, Hm. by rewrite bool_decide_eq_true_2.
  - rewrite Hd. destruct (_ && _); [by right|by left].
  - subst c. unfold buildConfig. cbv zeta. by destruct (_ && _).
Qed.

(** ** The factory *)

Lemma shape_absent {A : Type} (f : Field A) : shape f = IsAbsent → f = Absent.
Proof. by destruct f. Qed.

Lemma shape_undefined {A : Type} (f : Field A) : shape f = IsUndefined → f = Undefined.
Proof. by destruct f. Qed.

Lemma spreadField_there {A : Type} (a b : Field A) :
  shape b ≠ IsAbsent → spreadField a b = b.
Proof. by destruct b. Qed.

Ltac each_field H :=
  unfold shapes in H;
  repeat match type of H with
         | Forall _ (_ :: _) => apply Forall_cons in H as [? H]
         end.

(** X14.  What the hook made by [createDataFetcher(defaultOptions)] runs with.
    Called without options, the factory's options.  Called with an object
    that holds the [url] only, the factory's options with that [url].  A
    property the object holds wins, also when its value is [undefined]: an
    object that holds every property leaves nothing of the factory's
    options, and one that holds every property as [undefined] gives the
    defaults of the parameter list, not those of the factory. *)
Theorem factory_options (d o : UseHttpOptions) :
  createDataFetcher d None = destructure d
  ∧ url (createDataFetcher d (Some o)) = o_url o
  ∧ (Forall (λ x, x = IsAbsent) (shapes o) →
       createDataFetcher d (Some o) = withUrl (o_url o) (destructure d))
  ∧ (Forall (λ x, x ≠ IsAbsent) (shapes o) →
       createDataFetcher d (Some o) = destructure o)
  ∧ (Forall (λ x, x = IsUndefined) (shapes o) →
       createDataFetcher d (Some o) = defaults (o_url o)).
Proof.
  split; [done|]. split; [done|]. split; [|split].
  - intros H. each_field H.
    unfold createDataFetcher, spreadOptions, destructure, withUrl.
    repeat match goal with
           | Hs : shape _ = IsAbsent |- _ => apply shape_absent in Hs; rewrite Hs; clear Hs
           end.
    done.
  - intros H. each_field H.
    unfold createDataFetcher, spreadOptions.
    rewrite !spreadField_there by done. by destruct o.
  - intros H. each_field H.
    unfold createDataFetcher, spreadOptions, destructure, defaults.
    repeat match goal with
           | Hs : shape _ = IsUndefined |- _ =>
               apply shape_undefined in Hs; rewrite Hs; clear Hs
           end.
    done.
Qed.

(** ** Loading ends *)

Lemma loadInv_ext (s s' : State) :
  loadSide s' = loadSide s → loadInv s → loadInv s'.
Proof.
  unfold loadSide, loadInv, latestPending, awaited, pendingFetches.
  intros [= -> -> -> -> ->]. done.
Qed.

Lemma fetchData_timers (c : Closure) (a : Z) (s : State) :
  timerInv s →
  ∃ l,
    timers (fetchData c a s)
    = l ++ [mkTimer (nextTimer s) (fetchDelay c) (now s + Z.max 0 (fetchDelay c))
              (CbFetch c a (now s))]
    ∧ (∀ y, y ∈ l → ¬ isFetch (t_cb y))
    ∧ latestRequestIdRef (fetchData c a s) = now s.
Proof.
  intros H. unfold fetchData. cbv zeta.
  set (s1 := match timeoutRef s with Some t => clearTimeout t s | None => s end).
  assert ((∀ y, y ∈ timers s1 → ¬ isFetch (t_cb y))
          ∧ now s1 = now s ∧ nextTimer s1 = nextTimer s) as (Hno & Hnow & Hnext).
  { subst s1. destruct (timeoutRef s) as [t|] eqn:Ht.
    - split; [|done]. unfold clearTimeout. state_simpl.
      intros y [Hne Hy]%list_elem_of_filter Hf.
      destruct H as (_ & _ & Href). specialize (Href y Hy Hf).
      rewrite Ht in Href. by injection Href as ->.
    - split; [|done]. intros y Hy Hf.
      destruct H as (_ & _ & Href). specialize (Href y Hy Hf). congruence. }
  exists (timers s1). unfold setTimeout. state_simpl.
  rewrite Hnow, Hnext. done.
Qed.

Lemma fetchData_loadInv (c : Closure) (a : Z) (s : State) :
  timerInv s → loadInv (fetchData c a s).
Proof.
  intros H. destruct (fetchData_timers c a s H) as (l & Ht & Hno & Hl).
  split.
  - intros t c' a' id Hin Hcb. rewrite Ht in Hin. rewrite Hl.
    apply elem_of_app in Hin as [Hin| ->%list_elem_of_singleton].
    + destruct (Hno t Hin). by rewrite Hcb.
    + cbn in Hcb. by injection Hcb as _ _ <-.
  - intros _ _. left. unfold pendingFetches. rewrite Ht, filter_app.
    rewrite filter_cons_True by done. by destruct (filter _ l).
Qed.

Lemma setTimeout_loadInv (cb : Callback) (d : Z) (s : State) :
  ¬ isFetch cb → loadInv s → loadInv (setTimeout cb d s).
Proof.
  intros Hcb [Hl Ha]. unfold setTimeout. split.
  - intros t c a id. state_simpl.
    intros [Hin| ->%list_elem_of_singleton]%elem_of_app Ht; [by eapply Hl|].
    cbn in Ht. rewrite Ht in Hcb. by destruct Hcb.
  - state_simpl. intros Hm Hld. destruct (Ha Hm Hld) as [Hp|Hr]; [|by right].
    left. unfold pendingFetches in *. state_simpl. rewrite filter_app.
    by destruct (filter _ (timers s)).
Qed.

Lemma flushQueue_loadSide (ws : WsState) (queue : list Json) (s : State) :
  loadSide (flushQueue ws queue s) = loadSide s.
Proof.
  unfold flushQueue. split_cases; try done.
  by rewrite foldl_wsSend.
Qed.

Lemma handlers_loadSide (s : State) :
  loadSide (closeWebSocket s) = loadSide s
  ∧ loadSide (abortCurrent s) = loadSide s
  ∧ (∀ n, loadSide (connectWebSocket n s) = loadSide s)
  ∧ (∀ m, loadSide (sendMessage m s) = loadSide s)
  ∧ (∀ d, loadSide (onmessage d s) = loadSide s)
  ∧ (∀ p, loadSide (socketEffect p s) = loadSide s)
  ∧ (∀ p, loadSide (refreshEffect p s) = loadSide s)
  ∧ (∀ ws queue qid, loadSide (queueEffect ws queue qid s) = loadSide s).
Proof.
  repeat split; intros; try (unfold_handlers; split_cases; done).
  unfold queueEffect. case_match; [done|].
  change (loadSide (set_flushDeps ?d ?x)) with (loadSide x).
  apply flushQueue_loadSide.
Qed.

Lemma fetchInv_ext (s s' : State) :
  timerSide s' = timerSide s → loadSide s' = loadSide s → fetchInv s → fetchInv s'.
Proof.
  intros Ht Hl [H1 H2]. split; [by apply (timerInv_ext s)|by apply (loadInv_ext s)].
Qed.

Lemma fetchData_fetchInv (c : Closure) (a : Z) (s : State) :
  fetchInv s → fetchInv (fetchData c a s).
Proof.
  intros [H1 H2]. split; [by apply fetchData_timerInv|by apply fetchData_loadInv].
Qed.

Lemma autoFetchEffect_fetchInv (p : Options) (s : State) :
  fetchInv s → fetchInv (autoFetchEffect p s).
Proof.
  intros H. unfold autoFetchEffect. destruct (_ && _); [|done].
  by apply fetchData_fetchInv.
Qed.

Lemma setTimeout_fetchInv (cb : Callback) (d : Z) (s : State) :
  ¬ isFetch cb → fetchInv s → fetchInv (setTimeout cb d s).
Proof.
  intros Hcb [H1 H2].
  split; [by apply setTimeout_timerInv|by apply setTimeout_loadInv].
Qed.

Ltac keep_fetchInv :=
  repeat first
    [ assumption
    | apply autoFetchEffect_fetchInv
    | apply fetchData_fetchInv
    | match goal with
      | |- fetchInv (if ?b then _ else _) => destruct b
      | |- fetchInv (closeWebSocket ?x) =>
          apply (fetchInv_ext x _ (proj1 (handlers_timerSide x))
                   (proj1 (handlers_loadSide x)))
      | |- fetchInv (abortCurrent ?x) =>
          apply (fetchInv_ext x _ (proj1 (proj2 (handlers_timerSide x)))
                   (proj1 (proj2 (handlers_loadSide x))))
      | |- fetchInv (socketEffect ?p ?x) =>
          apply (fetchInv_ext x _
                   (proj1 (proj2 (proj2 (proj2 (proj2 (handlers_timerSide x))))) p)
                   (proj1 (proj2 (proj2 (proj2 (proj2 (proj2 (handlers_loadSide x)))))) p))
      | |- fetchInv (refreshEffect ?p ?x) =>
          apply (fetchInv_ext x _
                   (proj1 (proj2 (proj2 (proj2 (proj2 (proj2 (handlers_timerSide x)))))) p)
                   (proj1 (proj2 (proj2 (proj2 (proj2 (proj2 (proj2
                      (handlers_loadSide x))))))) p))
      | |- fetchInv (queueEffect ?a ?b ?c ?x) =>
          apply (fetchInv_ext x _
                   (proj2 (proj2 (proj2 (proj2 (proj2 (proj2 (handlers_timerSide x))))))
                      a b c)
                   (proj2 (proj2 (proj2 (proj2 (proj2 (proj2 (proj2
                      (handlers_loadSide x))))))) a b c))
      | |- fetchInv (set_props _ ?x) => apply (fetchInv_ext x _ eq_refl eq_refl)
      | |- fetchInv (set_memo _ ?x) => apply (fetchInv_ext x _ eq_refl eq_refl)
      | |- fetchInv (set_interval _ ?x) => apply (fetchInv_ext x _ eq_refl eq_refl)
      | |- fetchInv (set_fetchDataRef _ ?x) => apply (fetchInv_ext x _ eq_refl eq_refl)
      | |- fetchInv (set_now _ ?x) => apply (fetchInv_ext x _ eq_refl eq_refl)
      end ].

Lemma render_fetchInv (p : Options) (s : State) :
  fetchInv s → fetchInv (render p s).
Proof. intros H. unfold render. cbv zeta. keep_fetchInv. Qed.

Lemma mount_fetchInv (p : Options) (t0 : Z) : fetchInv (mount p t0).
Proof.
  assert (fetchInv (initial p t0)) as H.
  { split; [apply owned_nil|]. split; [|done].
    intros t c a id Hin. by apply not_elem_of_nil in Hin. }
  unfold mount. cbv zeta. keep_fetchInv.
Qed.

(** Once the owner is gone the invariant asks for the identifiers only. *)
Lemma gone_loadInv (s s' : State) :
  isMounted s' = false →
  latestRequestIdRef s' = latestRequestIdRef s →
  (∀ t, t ∈ timers s' → t ∈ timers s) →
  loadInv s → loadInv s'.
Proof.
  intros Hm Hl Hsub [H _]. split; [|by rewrite Hm].
  intros t c a id Hin Hcb. rewrite Hl. eapply H; [by apply Hsub|done].
Qed.

Lemma unmount_timers (s : State) :
  latestRequestIdRef (unmount s) = latestRequestIdRef s
  ∧ ∀ t, t ∈ timers (unmount s) → t ∈ timers s.
Proof.
  unfold unmount. cbv zeta.
  set (s0 := abortCurrent (set_isMounted false s)).
  assert (timerSide s0 = timerSide s ∧ latestRequestIdRef s0 = latestRequestIdRef s)
    as [Ht0 Hl0].
  { subst s0. unfold abortCurrent. state_simpl.
    destruct (abortControllerRef s); [|done]. by destruct (isAborted _ _). }
  set (s1 := match timeoutRef s0 with Some t => clearTimeout t s0 | None => s0 end).
  assert (latestRequestIdRef s1 = latestRequestIdRef s
          ∧ ∀ t, t ∈ timers s1 → t ∈ timers s) as [Hl1 Hsub].
  { unfold timerSide in Ht0. injection Ht0 as Ht0 _ _.
    subst s1. destruct (timeoutRef s0); [|by rewrite Ht0].
    split; [done|]. unfold clearTimeout. state_simpl.
    intros t [_ Hin]%list_elem_of_filter. by rewrite <- Ht0. }
  assert (∀ x, latestRequestIdRef (closeWebSocket x) = latestRequestIdRef x
               ∧ timers (closeWebSocket x) = timers x) as Hc.
  { intros x. unfold closeWebSocket. by destruct (wsRef x). }
  revert Hl1 Hsub. generalize s1. intros x Hl1 Hsub.
  repeat match goal with
         | |- context [match ?o with Some _ => _ | None => _ end] => destruct o
         | |- context [if ?b then _ else _] => destruct b
         end;
    state_simpl; unfold wsClose; state_simpl;
    rewrite ?(proj1 (Hc _)), ?(proj2 (Hc _)); state_simpl;
    rewrite ?(proj1 (Hc _)), ?(proj2 (Hc _)); done.
Qed.

Lemma injective_on {A : Type} (f : A → nat) (l : list A) (x y : A) :
  NoDup (f <$> l) → x ∈ l → y ∈ l → f x = f y → x = y.
Proof.
  induction l as [|z l IH]; intros Hnd Hx Hy Hf; [by apply not_elem_of_nil in Hx|].
  cbn in Hnd. apply NoDup_cons in Hnd as [Hz Hnd].
  apply elem_of_cons in Hx as [->|Hx]; apply elem_of_cons in Hy as [->|Hy];
    try done.
  - destruct Hz. rewrite Hf. by apply list_elem_of_fmap_2.
  - destruct Hz. rewrite <- Hf. by apply list_elem_of_fmap_2.
  - by apply IH.
Qed.

Lemma findRequest_elem (k : nat) (s : State) (r : Request) :
  findRequest k s = Some r → r ∈ inflight s ∧ r_controller r = k.
Proof.
  unfold findRequest. intros [Hin Heq]%find_some.
  split; [by apply list_elem_of_In|by apply Nat.eqb_eq].
Qed.

(** What the completion of a call changes. *)
Lemma settle_shape (r : Request) (o : Outcome) (s : State) :
  isMounted (settle r o s) = isMounted s
  ∧ latestRequestIdRef (settle r o s) = latestRequestIdRef s
  ∧ inflight (settle r o s) = inflight s
  ∧ loading (settle r o s)
    = (if isCurrent (r_requestId r) s then false else loading s)
  ∧ (settle r o s = (if isCurrent (r_requestId r) s then set_loading false s else s)
     ∨ (∃ x, isCurrent (r_requestId r) s = true ∧ isCurrent (r_requestId r) x = true
             ∧ timerSide x = timerSide s
             ∧ settle r o s = set_loading false x)
     ∨ ∃ cb d, ¬ isFetch cb
               ∧ settle r o s
                 = (if isCurrent (r_requestId r) s
                    then set_loading false (setTimeout cb d s)
                    else setTimeout cb d s)).
Proof.
  unfold settle. cbv zeta. destruct o as [d|e|].
  - destruct (isCurrent (r_requestId r) s) eqn:Hc.
    + assert (isCurrent (r_requestId r) (set_data (Some d) s) = true) as Hc' by done.
      rewrite Hc'. repeat split; try done. right; left.
      exists (set_data (Some d) s). done.
    + rewrite Hc. repeat split; try done. by left.
  - destruct (_ <? _).
    + assert (∀ cb d, isCurrent (r_requestId r) (setTimeout cb d s)
                      = isCurrent (r_requestId r) s) as Hc by done.
      rewrite Hc. destruct (isCurrent (r_requestId r) s) eqn:Hcur;
        (repeat split; try done; right; right; eexists (CbRetry _ _), _;
         split; [by intros []|]; by rewrite ?Hcur).
    + destruct (isCurrent (r_requestId r) s) eqn:Hc.
      * destruct (errorMessage e) as [v|].
        -- assert (isCurrent (r_requestId r) (set_error (Some v) s) = true)
             as Hc' by done.
           rewrite Hc'. repeat split; try done. right; left.
           exists (set_error (Some v) s). done.
        -- rewrite Hc. repeat split; try done. by left.
      * rewrite Hc. repeat split; try done. by left.
  - destruct (isCurrent (r_requestId r) s) eqn:Hc;
      (repeat split; try done; left; by rewrite ?Hc).
Qed.

Lemma startRequest_shape (c : Closure) (a id : Z) (s : State) :
  (isMounted s = false → startRequest c a id s = s)
  ∧ (isMounted s = true →
       timers (startRequest c a id s) = timers s
       ∧ latestRequestIdRef (startRequest c a id s) = latestRequestIdRef s
       ∧ ∃ r, r ∈ inflight (startRequest c a id s) ∧ r_requestId r = id).
Proof.
  unfold startRequest. split; intros ->; cbn [negb]; [done|]. cbv zeta.
  assert (∀ x, timers (abortCurrent x) = timers x
               ∧ latestRequestIdRef (abortCurrent x) = latestRequestIdRef x) as Hab.
  { intros x. unfold abortCurrent. destruct (abortControllerRef x); [|done].
    by destruct (isAborted _ _). }
  state_simpl. rewrite (proj1 (Hab _)), (proj2 (Hab _)). state_simpl.
  split; [done|]. split; [done|].
  eexists. split; [apply elem_of_app; right; by apply list_elem_of_singleton|done].
Qed.

Lemma step_fetchInv (s s' : State) (e : Event) :
  step s e = Some s' → callInv s → fetchInv s → fetchInv s'.
Proof.
  intros Hstep Hcall H. destruct e; cbn [step] in Hstep.
  - destruct (isMounted s); [|done]. injection Hstep as <-.
    by apply render_fetchInv.
  - destruct (isMounted s); [|done]. injection Hstep as <-.
    destruct H as [H1 H2]. split; [by apply unmount_timerInv|].
    destruct (unmount_timers s) as [Hl Hsub].
    apply (gone_loadInv s); try done. apply unmount_effect.
  - injection Hstep as <-. unfold refetch. keep_fetchInv.
  - injection Hstep as <-. unfold cancel. keep_fetchInv.
  - injection Hstep as <-.
    apply (fetchInv_ext s); [| |done].
    + unfold sendMessage, wsSend, setWsMessagesQueue. by destruct (openHandle s).
    + apply handlers_loadSide.
  - injection Hstep as <-. keep_fetchInv.
  - destruct (interval s); [|done]. injection Hstep as <-.
    unfold refetch. keep_fetchInv.
  - destruct (0 <=? dt); [|done]. injection Hstep as <-. keep_fetchInv.
  - destruct (findTimer t s) as [tm|] eqn:Hf; [|done].
    destruct (t_due tm <=? now s); [|done]. injection Hstep as <-.
    pose proof (findTimer_elem _ _ _ Hf) as Htm.
    assert (t_id tm = t) as Hid.
    { unfold findTimer in Hf. apply find_some in Hf as [_ Heq].
      by apply Nat.eqb_eq. }
    destruct H as [H1 [H2 H3]].
    assert (timerInv (clearTimeout t s)) as H1' by (by apply clearTimeout_timerInv).
    assert (latestPending (clearTimeout t s)) as H2'.
    { intros x c a id [_ Hin]%list_elem_of_filter Hcb. by eapply H2. }
    destruct (t_cb tm) as [c a id|c a|n] eqn:Hcb; cbn [runCallback].
    + split; [by apply (timerInv_ext (clearTimeout t s));
                [apply handlers_timerSide|]|].
      destruct (startRequest_shape c a id (clearTimeout t s)) as [Hgone Halive].
      destruct (isMounted s) eqn:Hm.
      * destruct (Halive Hm) as (Ht & Hl & r & Hr & Hrid). split.
        -- intros x c' a' id'. rewrite Ht, Hl. apply H2'.
        -- intros _ _. right. exists r. split; [done|].
           rewrite Hrid, Hl. by eapply H2.
      * rewrite (Hgone Hm). split; [done|]. cbn [clearTimeout isMounted set_timers].
        by rewrite Hm.
    + split; [by apply fetchData_timerInv|by apply fetchData_loadInv].
    + apply (fetchInv_ext (clearTimeout t s));
        [apply handlers_timerSide|apply handlers_loadSide|].
      split; [done|]. split; [done|].
      intros Hm Hld. destruct (H3 Hm Hld) as [Hp|Hr]; [|by right].
      left. unfold pendingFetches in *. unfold clearTimeout. state_simpl.
      destruct (filter _ (timers s)) as [|x l] eqn:Hfl; [done|].
      assert (x ∈ filter (λ t0, isFetch (t_cb t0)) (timers s)) as [Hx Hin]%list_elem_of_filter
        by (rewrite Hfl; apply elem_of_cons; by left).
      intros Hnil.
      assert (x ∈ filter (λ t0, isFetch (t_cb t0))
                (filter (λ t0, t_id t0 ≠ t) (timers s))) as Hin'.
      { apply list_elem_of_filter. split; [done|].
        apply list_elem_of_filter. split; [|done].
        intros Heq. destruct H1 as (Hnd & _).
        assert (x = tm) as -> by (eapply injective_on; [exact Hnd|done..|congruence]).
        by rewrite Hcb in Hx. }
      rewrite Hnil in Hin'. by apply not_elem_of_nil in Hin'.
  - destruct (findRequest k s) as [r|] eqn:Hf; [|done].
    destruct (settles k o s); [|done]. injection Hstep as <-.
    destruct (findRequest_elem _ _ _ Hf) as [Hr Hk].
    destruct H as [H1 [H2 H3]].
    set (s1 := dropRequest k s).
    assert (timerInv s1) as H1' by (by apply (timerInv_ext s)).
    assert (latestPending s1) as H2' by done.
    destruct (settle_shape r o s1) as (Hm & Hl & Hfl & Hld & Hshape).
    assert (timerInv (settle r o s1) ∧ latestPending (settle r o s1)
            ∧ (pendingFetches s1 ≠ [] → pendingFetches (settle r o s1) ≠ []))
      as (Ht & Hlp & Hpf).
    { destruct Hshape as [->|[(x & _ & _ & Hx & Heq)|(cb & d & Hcb & ->)]].
      - destruct (isCurrent _ _); done.
      - rewrite Heq in Hl. rewrite Heq.
        unfold timerSide in Hx. injection Hx as Hx1 Hx2 Hx3.
        assert (latestRequestIdRef x = latestRequestIdRef s1) as Hxl.
        { exact Hl. }
        split; [|split].
        + unfold timerInv. state_simpl. by rewrite Hx1, Hx2, Hx3.
        + unfold latestPending. state_simpl. by rewrite Hx1, Hxl.
        + unfold pendingFetches. state_simpl. by rewrite Hx1.
      - assert (timerInv (setTimeout cb d s1)) as Ha
          by (by apply setTimeout_timerInv).
        assert (latestPending (setTimeout cb d s1)) as Hb.
        { intros t c a id. unfold setTimeout. state_simpl.
          intros [Hin| ->%list_elem_of_singleton]%elem_of_app Ht; [by eapply H2'|].
          cbn in Ht. rewrite Ht in Hcb. by destruct Hcb. }
        assert (pendingFetches s1 ≠ [] → pendingFetches (setTimeout cb d s1) ≠ [])
          as Hc.
        { unfold pendingFetches, setTimeout. state_simpl. rewrite filter_app.
          by destruct (filter _ (timers s1)). }
        destruct (isCurrent _ _); done. }
    split; [done|]. split; [done|].
    unfold awaited. rewrite Hm, Hld, Hl, Hfl. intros Hmt Hload.
    destruct (isCurrent (r_requestId r) s1) eqn:Hcur; [done|].
    unfold isCurrent in Hcur. rewrite Hmt in Hcur. cbn [andb] in Hcur.
    apply Z.eqb_neq in Hcur.
    destruct (H3 Hmt Hload) as [Hp|(r' & Hr' & Hid)]; [left; by apply Hpf|].
    right. exists r'. split; [|done].
    unfold s1, dropRequest. state_simpl. apply list_elem_of_filter. split; [|done].
    intros Heq. destruct Hcall as (Hnd & _).
    assert (r' = r) as -> by (eapply injective_on; [exact Hnd|done..|congruence]).
    done.
  - destruct (sockets s !! i) as [k|]; [|done].
    case_bool_decide; [|done]. injection Hstep as <-. by apply (fetchInv_ext s).
  - destruct (sockets s !! i) as [k|]; [|done].
    case_bool_decide; [|done]. injection Hstep as <-.
    apply (fetchInv_ext s); [| |done].
    + unfold onmessage. by repeat case_match.
    + apply handlers_loadSide.
  - destruct (sockets s !! i) as [k|]; [|done].
    case_bool_decide; [done|]. injection Hstep as <-. by apply (fetchInv_ext s).
  - destruct (sockets s !! i) as [k|]; [|done].
    destruct (ws_closeFired k); [done|]. injection Hstep as <-.
    assert (fetchInv (setSocketClosed i s)) as Hd by (by apply (fetchInv_ext s)).
    revert Hd. generalize (setSocketClosed i s). intros x Hx.
    unfold onclose. cbv zeta.
    destruct (runs _ !! _); [|by apply (fetchInv_ext x)].
    destruct (_ && _); [|by apply (fetchInv_ext x)].
    apply setTimeout_fetchInv; [by intros []|]. by apply (fetchInv_ext x).
  - destruct (sockets s !! i) as [k|]; [|done].
    case_bool_decide; [|done]. injection Hstep as <-. by apply (fetchInv_ext s).
Qed.

(** X2.  While the hook shows [loading] to an owner that is alive, the attempt
    issued last is still to complete: either its fetch waits for the timer
    [timeoutRef] holds, or its call is in flight.  The completion of that
    attempt, be it a response, a failure or a cancellation, is what sets
    [loading] back to false. *)
Theorem loading_is_awaited (p : Options) (t0 : Z) (es : list Event) (s : State) :
  run (mount p t0) es = Some s →
  isMounted s = true →
  loading s = true →
  (∃ t c a, t ∈ timers s ∧ t_cb t = CbFetch c a (latestRequestIdRef s)
            ∧ timeoutRef s = Some (t_id t))
  ∨ (∃ r, r ∈ inflight s ∧ r_requestId r = latestRequestIdRef s
          ∧ ∀ o s', step s (Settle (r_controller r) o) = Some s' → loading s' = false).
Proof.
  intros Hrun Hm Hld.
  assert (callInv s ∧ fetchInv s) as [Hcall [Htim [Hlp Hinv]]].
  { pose proof (mount_callInv p t0) as H0.
    pose proof (mount_fetchInv p t0) as H1.
    revert H0 H1 Hrun. generalize (mount p t0). clear Hm Hld.
    induction es as [|e es IH]; intros s0 H0 H1 Hrun.
    - cbn [run] in Hrun. by injection Hrun as <-.
    - rewrite run_cons in Hrun. destruct (step s0 e) as [s1|] eqn:Hstep; [|done].
      cbn in Hrun. apply (IH s1); [| |done].
      + by eapply step_callInv.
      + by eapply step_fetchInv. }
  destruct (Hinv Hm Hld) as [Hp|(r & Hr & Hid)].
  - left. unfold pendingFetches in Hp.
    destruct (filter _ (timers s)) as [|t l] eqn:Hf; [done|].
    assert (t ∈ filter (λ t0, isFetch (t_cb t0)) (timers s)) as [Ht Hin]%list_elem_of_filter
      by (rewrite Hf; apply elem_of_cons; by left).
    destruct (t_cb t) as [c a id| |] eqn:Hcb; try done.
    exists t, c, a. split; [done|]. split.
    + by rewrite <- (Hlp t c a id Hin Hcb).
    + destruct Htim as (_ & _ & Href). apply Href; [done|]. by rewrite Hcb.
  - right. exists r. split; [done|]. split; [done|].
    intros o s' Hstep. cbn [step] in Hstep.
    destruct (findRequest (r_controller r) s) as [r'|] eqn:Hf; [|done].
    destruct (settles _ _ _); [|done]. injection Hstep as <-.
    destruct (findRequest_elem _ _ _ Hf) as [Hr' Hk].
    assert (r' = r) as ->.
    { destruct Hcall as (Hnd & _). eapply injective_on; [exact Hnd|done..]. }
    destruct (settle_shape r o (dropRequest (r_controller r) s)) as (_ & _ & _ & -> & _).
    unfold isCurrent, dropRequest. state_simpl. rewrite Hm, Hid, Z.eqb_refl. done.
Qed.
End Properties.

(** * The claims on concrete runs *)

Section Examples.

#[local] Existing Instance text_JSON.

(** C1, on the code.  Two fetches issued at the same reading of the clock
    get the same identifier.  The first render fetches; its call is in
    flight when the hook is rendered with a new [headers] object and
    [refetch()] is called within the same millisecond.  The second attempt
    waits for its debounce timer; the response of the first arrives
    meanwhile and is published, though the first attempt is not the one
    issued last. *)
Theorem same_clock_reading_publishes_older_attempt :
  let p' := withHeaders 1%nat httpProps in
  let first := mkRequest 0 (mkClosure httpProps true) 0 t_start in
  ∃ s s',
    run (mount httpProps t_start) [Fire 1%nat; Render p'; Refetch; Elapse 50] = Some s
    ∧ inflight s = [first]
    ∧ timers s = [mkTimer 2 300 (t_start + 300) (CbFetch (mkClosure p' false) 0 t_start)]
    ∧ latestRequestIdRef s = r_requestId first
    ∧ step s (Settle 0%nat (Success (JStr "first"))) = Some s'
    ∧ data s' = Some (JStr "first")
    ∧ timers s' = timers s.
Proof. do 2 eexists. vm_compute. repeat split; reflexivity. Qed.

(** C2, as stated, fails, with a transport that fails on every call.  The
    hook is rendered with a new [headers] object and [refetch()] is called
    before the first timer fires, so the callback in use was memoised after
    the first fetch.  Its one call fails; 100 time units later the retry
    timer fires, and the call is not made: [fetchData] has set a second
    timer, with delay 300, which is not due. *)
Lemma retry_waits_for_debounce :
  let p := httpPropsWith 1%nat 2 in
  let p' := httpPropsWith 2%nat 2 in
  ∃ s,
    run (mount p t_start)
      [Render p'; Refetch; Elapse 300; Fire 2%nat;
       Settle 0%nat (Failure networkError); Elapse 100; Fire 3%nat] = Some s
    ∧ transportCalls s = [mkRequest 0 (mkClosure p' false) 0 t_start]
    ∧ inflight s = []
    ∧ timers s = [mkTimer 4 300 (t_start + 300 + 100 + 300)
                    (CbFetch (mkClosure p' false) 1 (t_start + 300 + 100))]
    ∧ step s (Fire 4%nat) = None.
Proof.
  eexists. split; [vm_compute; reflexivity|].
  vm_compute. repeat split; reflexivity.
Qed.

(** C5, as stated, fails: [loading] was true before [cancel()] and is
    false once the completion of the cancelled attempt was processed. *)
Lemma cancel_ends_loading :
  ∃ s',
    run (mount httpProps t_start) [Fire 1%nat] = Some inFlightState
    ∧ loading inFlightState = true
    ∧ run inFlightState [Cancel; Settle 0%nat Cancelled] = Some s'
    ∧ loading s' = false.
Proof.
  eexists. split; [vm_compute; reflexivity|].
  vm_compute. repeat split; reflexivity.
Qed.

Lemma cancel_then_completion_witness :
  abortControllerRef inFlightState = Some 0%nat
  ∧ findRequest 0 inFlightState
    = Some (mkRequest 0 (mkClosure httpProps true) 0 t_start)
  ∧ (data (cancel inFlightState) = data inFlightState
     ∧ loading (cancel inFlightState) = loading inFlightState
     ∧ error (cancel inFlightState) = error inFlightState
     ∧ isAborted 0 (cancel inFlightState) = true
     ∧ ∃ s', step (cancel inFlightState) (Settle 0%nat Cancelled) = Some s'
             ∧ data s' = data inFlightState
             ∧ error s' = error inFlightState
             ∧ loading s' = (if isCurrent t_start inFlightState then false
                             else loading inFlightState)).
Proof.
  split; [reflexivity|]. split; [reflexivity|].
  exact (cancel_then_completion inFlightState 0
           (mkRequest 0 (mkClosure httpProps true) 0 t_start) eq_refl eq_refl).
Defined.

Lemma onmessage_parse_failure_witness :
  JSON_parse "{oops" = None
  ∧ isMounted openState = true
  ∧ ((isMounted openState = true →
      onmessage "{oops" openState
      = set_error (Some (JStr "Failed to parse WebSocket message")) openState
      ∧ error (onmessage "{oops" openState)
        = Some (JStr "Failed to parse WebSocket message")
      ∧ wsState (onmessage "{oops" openState) = wsState openState)
     ∧ (isMounted openState = false → onmessage "{oops" openState = openState)
     ∧ (∀ i k, sockets openState !! i = Some k → readyState k = OPEN →
          step openState (WsMessage i "{oops")
          = Some (onmessage "{oops" openState))).
Proof.
  split; [vm_compute; reflexivity|]. split; [reflexivity|].
  apply (onmessage_parse_failure openState "{oops"). vm_compute. reflexivity.
Defined.

(** C6, as stated, fails: with the owner gone, a reconnect that was
    scheduled still opens a socket, and a message on it that does not
    parse is not parsed at all; no error is published. *)
Lemma parse_failure_after_unmount :
  ∃ s,
    run (mount (wsProps 1) t_start)
      [WsClose 0%nat; Unmount; Elapse 1000; Fire 1%nat; WsOpen 1%nat] = Some s
    ∧ JSON_parse "{oops" = None
    ∧ wsState s = Ws_open
    ∧ openHandle s = Some 1%nat
    ∧ step s (WsMessage 1%nat "{oops") = Some s
    ∧ error s = None.
Proof.
  eexists. split; [vm_compute; reflexivity|].
  vm_compute. repeat split; reflexivity.
Qed.

Lemma idleEvents_keepRequest : Forall (keepsRequest httpProps) idleEvents.
Proof. repeat constructor. Defined.

Lemma refetch_never_debounced_witness :
  Forall (keepsRequest httpProps) idleEvents
  ∧ run (mount httpProps t_start) idleEvents = Some idleState
  ∧ (fetchDataRef idleState = mkClosure httpProps true
     ∧ isFirst (refetch idleState) = false
     ∧ calls (refetch idleState)
       = calls idleState
         ++ [SetTimeout (CbFetch (mkClosure httpProps true) 0 (now idleState)) 0]).
Proof.
  split; [exact idleEvents_keepRequest|]. split; [vm_compute; reflexivity|].
  apply (refetch_never_debounced httpProps t_start idleEvents idleState
           idleEvents_keepRequest).
  vm_compute. reflexivity.
Defined.

Lemma httpEvents_keepHttpMode : Forall keepsHttpMode httpEvents.
Proof. repeat constructor. Defined.

Lemma http_mode_stays_connecting_witness :
  truthy (wsUrl httpProps) = false
  ∧ Forall keepsHttpMode httpEvents
  ∧ run (mount httpProps t_start) httpEvents = Some httpEndState
  ∧ (wsState (mount httpProps t_start) = Ws_connecting
     ∧ wsState httpEndState = Ws_connecting
     ∧ sockets httpEndState = []
     ∧ wsRef httpEndState = None
     ∧ closeWebSocket httpEndState = httpEndState).
Proof.
  split; [reflexivity|]. split; [exact httpEvents_keepHttpMode|].
  split; [vm_compute; reflexivity|].
  apply (http_mode_stays_connecting httpProps t_start httpEvents httpEndState eq_refl
           httpEvents_keepHttpMode).
  vm_compute. reflexivity.
Defined.




End Examples.

(** * The further properties on concrete runs *)

Section MoreExamples.

#[local] Existing Instance text_JSON.

Lemma teardown_is_final_witness :
  step inFlightState Unmount = Some unmountedState
  ∧ run unmountedState goneEvents = Some goneState
  ∧ (isMounted goneState = false
     ∧ published goneState = published inFlightState
     ∧ transportCalls goneState = transportCalls inFlightState
     ∧ ∀ t, timeoutRef inFlightState = Some t → findTimer t unmountedState = None).
Proof.
  split; [vm_compute; reflexivity|]. split; [vm_compute; reflexivity|].
  apply (teardown_is_final inFlightState unmountedState goneState goneEvents);
    vm_compute; reflexivity.
Defined.

Lemma reconnect_outlives_owner_witness :
  truthy (wsUrl (wsProps 1)) = true
  ∧ 0 < retry (wsProps 1)
  ∧ ∃ s,
      run (mount (wsProps 1) t_start) [WsClose 0%nat; Unmount; Elapse 1000; Fire 1%nat]
      = Some s
      ∧ isMounted s = false
      ∧ wsRef s = Some 1%nat
      ∧ sockets s !! 1%nat = Some (mkSocket "ws://feed" CONNECTING 0 [] false)
      ∧ timers s = [].
Proof.
  split; [reflexivity|]. split; [reflexivity|].
  exact (reconnect_outlives_owner (wsProps 1) t_start eq_refl eq_refl).
Defined.

Lemma retry_overtakes_newer_fetch_witness :
  let p := httpPropsWith 1%nat 1 in
  let c := mkClosure p true in
  let c' := mkClosure (withUrl "/other" p) false in
  truthy (wsUrl p) = false
  ∧ autoFetch p = true
  ∧ 0 < retry p
  ∧ url p ≠ "/other"
  ∧ 100 < debounce p
  ∧ ∃ s,
      run (mount p t_start)
        [Fire 1%nat; Settle 0%nat (Failure networkError); Render (withUrl "/other" p);
         Refetch; Elapse 100; Fire 2%nat; Fire 4%nat; Settle 1%nat (Success JNull)]
      = Some s
      ∧ calls s
        = [SetTimeout (CbFetch c 0 t_start) 0;
           Axios (mkRequest 0 c 0 t_start);
           SetTimeout (CbRetry c 0) 100;
           SetTimeout (CbFetch c' 0 t_start) (debounce p);
           SetTimeout (CbFetch c 1 (t_start + 100)) 0;
           Axios (mkRequest 1 c 1 (t_start + 100))]
      ∧ timers s = []
      ∧ inflight s = []
      ∧ fetchDataRef s = c'
      ∧ data s = Some JNull
      ∧ loading s = false.
Proof.
  intros p c c'.
  split; [reflexivity|]. split; [reflexivity|]. split; [reflexivity|].
  split; [discriminate|]. split; [reflexivity|].
  exact (retry_overtakes_newer_fetch p "/other" t_start networkError JNull
           eq_refl eq_refl eq_refl ltac:(discriminate) eq_refl).
Defined.

Lemma close_of_replaced_socket_witness :
  let p := wsProps 1 in
  truthy (wsUrl p) = true
  ∧ 0 < retry p
  ∧ "ws://other" ≠ ""
  ∧ wsUrl p ≠ Some "ws://other"
  ∧ ∃ s,
      run (mount p t_start)
        [WsOpen 0%nat; Render (withWsUrl "ws://other" p); WsClose 0%nat; WsOpen 1%nat;
         SendMessage (JStr "a"); Render (withWsUrl "ws://other" p); Elapse 1000;
         Fire 1%nat]
      = Some s
      ∧ wsState s = Ws_open
      ∧ wsMessagesQueue s = [JStr "a"]
      ∧ sockets s !! 1%nat = Some (mkSocket "ws://other" OPEN 1 [] false)
      ∧ wsRef s = Some 2%nat
      ∧ sockets s !! 2%nat = Some (mkSocket "ws://feed" CONNECTING 0 [] false).
Proof.
  intros p.
  split; [reflexivity|]. split; [reflexivity|].
  split; [discriminate|]. split; [discriminate|].
  exact (close_of_replaced_socket p "ws://other" t_start (JStr "a")
           eq_refl eq_refl ltac:(discriminate) ltac:(discriminate)).
Defined.


Lemma auto_refresh_when_configured_witness :
  run (mount refreshProps t_start) refreshEvents = Some refreshState
  ∧ interval refreshState = true
  ∧ (interval refreshState = isMounted refreshState && refreshes (props refreshState)
     ∧ ∀ s', step refreshState IntervalTick = Some s' →
         isMounted refreshState = true
         ∧ autoRefresh (props refreshState) ≠ 0
         ∧ truthy (wsUrl (props refreshState)) = false
         ∧ s' = fetchData (fetchDataRef refreshState) 0 refreshState).
Proof.
  split; [vm_compute; reflexivity|]. split; [reflexivity|].
  apply (auto_refresh_when_configured refreshProps t_start refreshEvents refreshState).
  vm_compute. reflexivity.
Defined.

Lemma one_pending_fetch_witness :
  run (mount httpProps t_start) debouncedEvents = Some debouncedState
  ∧ length (calls debouncedState) = 3%nat
  ∧ length (pendingFetches debouncedState) = 1%nat
  ∧ ((length (pendingFetches debouncedState) ≤ 1)%nat
     ∧ ∀ t, t ∈ pendingFetches debouncedState →
         timeoutRef debouncedState = Some (t_id t)).
Proof.
  split; [vm_compute; reflexivity|]. split; [reflexivity|]. split; [reflexivity|].
  apply (one_pending_fetch httpProps t_start debouncedEvents debouncedState).
  vm_compute. reflexivity.
Defined.

Lemma one_live_call_witness :
  run (mount httpProps t_start) supersededEvents = Some supersededState
  ∧ length (inflight supersededState) = 2%nat
  ∧ length (liveCalls supersededState) = 1%nat
  ∧ ((length (liveCalls supersededState) ≤ 1)%nat
     ∧ (∀ r, r ∈ liveCalls supersededState →
          abortControllerRef supersededState = Some (r_controller r))
     ∧ liveCalls (cancel supersededState) = []).
Proof.
  split; [vm_compute; reflexivity|]. split; [reflexivity|]. split; [reflexivity|].
  apply (one_live_call httpProps t_start supersededEvents supersededState).
  vm_compute. reflexivity.
Defined.

Lemma socketEvents_keepSocketMode : Forall keepsSocketMode socketEvents.
Proof. repeat constructor. Defined.

Lemma socket_mode_fetches_nothing_witness :
  truthy (wsUrl (wsProps 1)) = true
  ∧ Forall keepsSocketMode socketEvents
  ∧ run (mount (wsProps 1) t_start) socketEvents = Some socketEndState
  ∧ autoFetch (wsProps 1) = true
  ∧ (transportCalls socketEndState = []
     ∧ pendingFetches socketEndState = []
     ∧ inflight socketEndState = []
     ∧ interval socketEndState = false
     ∧ data socketEndState = None
     ∧ loading socketEndState = false).
Proof.
  split; [reflexivity|]. split; [exact socketEvents_keepSocketMode|].
  split; [vm_compute; reflexivity|]. split; [reflexivity|].
  apply (socket_mode_fetches_nothing (wsProps 1) t_start socketEvents socketEndState
           eq_refl socketEvents_keepSocketMode).
  vm_compute. reflexivity.
Defined.

Lemma changed_request_fetches_nothing_witness :
  let p := withUrl "/other" httpProps in
  autoFetchDeps p = autoFetchDeps (props idleState)
  ∧ fetchDeps p ≠ fetchDeps (props idleState)
  ∧ (fetchSide (render p idleState) = fetchSide idleState
     ∧ error (render p idleState) = error idleState
     ∧ latestRequestIdRef (render p idleState) = latestRequestIdRef idleState
     ∧ fetchDataRef (render p idleState)
       = (if bool_decide (fetchDeps p = fetchDeps (props idleState))
          then fetchDataRef idleState
          else mkClosure p (isFirst idleState))).
Proof.
  intros p. split; [reflexivity|]. split; [discriminate|].
  exact (changed_request_fetches_nothing p idleState eq_refl).
Defined.

Lemma retryDelay_bounds_witness :
  0 ≤ 2
  ∧ 2 ≤ 7
  ∧ (100 ≤ retryDelay 2
     ∧ retryDelay 2 ≤ retryDelay 7
     ∧ retryDelay 7 ≤ 5000
     ∧ (2 < 6 → retryDelay 2 = 100 * 2 ^ 2
                ∧ retryDelay (2 + 1) = Z.min (2 * retryDelay 2) 5000)
     ∧ (6 ≤ 2 → retryDelay 2 = 5000)).
Proof.
  split; [discriminate|]. split; [discriminate|].
  exact (retryDelay_bounds 2 7 ltac:(discriminate) ltac:(discriminate)).
Defined.

Lemma one_connection_at_a_time_witness :
  Forall (keepsSocket (wsProps 1)) socketEvents
  ∧ run (mount (wsProps 1) t_start) socketEvents = Some socketEndState
  ∧ length (sockets socketEndState) = 2%nat
  ∧ ((liveSockets socketEndState + pendingConnects socketEndState ≤ 1)%nat
     ∧ (∀ i k, sockets socketEndState !! i = Some k →
          readyState k = CONNECTING ∨ readyState k = OPEN →
          wsRef socketEndState = Some i)
     ∧ (∀ i, openHandle socketEndState = Some i → wsState socketEndState = Ws_open)
     ∧ (wsState socketEndState = Ws_open →
        ∃ i k, wsRef socketEndState = Some i
               ∧ sockets socketEndState !! i = Some k
               ∧ (readyState k = OPEN ∨ readyState k = CLOSING))).
Proof.
  assert (Forall (keepsSocket (wsProps 1)) socketEvents) as H
    by (repeat constructor).
  split; [exact H|]. split; [vm_compute; reflexivity|]. split; [reflexivity|].
  apply (one_connection_at_a_time (wsProps 1) t_start socketEvents socketEndState H).
  vm_compute. reflexivity.
Defined.

Lemma open_state_sends_at_once_witness :
  Forall (keepsSocket (wsProps 1)) [WsOpen 0%nat]
  ∧ run (mount (wsProps 1) t_start) [WsOpen 0%nat] = Some openState
  ∧ wsState openState = Ws_open
  ∧ ∃ i k,
      wsRef openState = Some i ∧ sockets openState !! i = Some k
      ∧ (readyState k = OPEN
         ∧ sentOn i (sendMessage (JStr "c") openState)
           = sentOn i openState ++ [JSON_stringify (JStr "c")]
         ∧ (∀ j, j ≠ i →
              sentOn j (sendMessage (JStr "c") openState) = sentOn j openState)
         ∧ wsMessagesQueue (sendMessage (JStr "c") openState)
           = wsMessagesQueue openState
         ∨ readyState k = CLOSING
           ∧ wsMessagesQueue (sendMessage (JStr "c") openState)
             = wsMessagesQueue openState ++ [JStr "c"]
           ∧ sockets (sendMessage (JStr "c") openState) = sockets openState).
Proof.
  assert (Forall (keepsSocket (wsProps 1)) [WsOpen 0%nat]) as H
    by (repeat constructor).
  split; [exact H|]. split; [vm_compute; reflexivity|]. split; [reflexivity|].
  apply (open_state_sends_at_once (wsProps 1) t_start [WsOpen 0%nat] openState
           (JStr "c") H); vm_compute; reflexivity.
Defined.


Lemma loading_is_awaited_witness :
  run (mount httpProps t_start) [Fire 1%nat] = Some inFlightState
  ∧ isMounted inFlightState = true
  ∧ loading inFlightState = true
  ∧ ((∃ t c a, t ∈ timers inFlightState
               ∧ t_cb t = CbFetch c a (latestRequestIdRef inFlightState)
               ∧ timeoutRef inFlightState = Some (t_id t))
     ∨ (∃ r, r ∈ inflight inFlightState
             ∧ r_requestId r = latestRequestIdRef inFlightState
             ∧ ∀ o s', step inFlightState (Settle (r_controller r) o) = Some s' →
                 loading s' = false)).
Proof.
  split; [vm_compute; reflexivity|]. split; [reflexivity|]. split; [reflexivity|].
  apply (loading_is_awaited httpProps t_start [Fire 1%nat] inFlightState);
    vm_compute; reflexivity.
Defined.

End MoreExamples.
